(** * ToonMotion: the sprite-sheet slicing pipeline of [src/utils/imageUtils.ts]

    A shallow embedding of the grid-to-frames extraction code
    ([getContentBounds], [alignAndMaximizeFrames], [performFixedGridSlicing],
    [sliceSpriteSheet]) together with a small model of the part of the
    browser canvas API the code calls.

    Conventions.
    - JavaScript numbers that the code only ever uses as integers (pixel
      coordinates, channel values, [rows], [cols], canvas sizes) are [Z].
    - The two quotients [sourceW / cols] and [sourceH / rows] and everything
      computed from them are exact rationals ([Q]); [Math.ceil] is
      [Qceiling].  For canvas-sized integers the IEEE quotient and the exact
      one have the same ceiling.
    - The quotient [cols / rows] of [getBestAspectRatio] is compared with
      1.8, 1.3, 0.7 and 0.5: there the numbers are IEEE 754 doubles, with
      the division and the comparisons of the hardware.
    - A canvas (or a decoded image) is an opaque platform object: it is
      modelled by its size and by the colour of each of its pixels.  An
      [ImageData] is what the code sees: a flat array of RGBA bytes.
    - How [drawImage] resamples, and which strings decode to which image, is
      the browser's business: both are left abstract in the class
      [Platform]. *)

From Stdlib Require Uint63.
From Stdlib Require Import PrimFloat.
From Stdlib Require Import String Ascii DecimalString DecimalNat.
From Stdlib Require Import ZArith QArith Qround List Sorted Bool Lia.
Import ListNotations.
Open Scope Z_scope.

Set Implicit Arguments.

(** ** Canvas model *)

Record Pixel := mkPixel { red : Z; green : Z; blue : Z; alpha : Z }.

Definition transparent : Pixel := mkPixel 0 0 0 0.

(** [HTMLCanvasElement] / [HTMLImageElement]: a size and a bitmap. *)
Record Canvas := mkCanvas {
  width : Z;
  height : Z;
  bitmap : Z -> Z -> Pixel
}.

(** [ImageData]: [data] holds [4 * iwidth * iheight] bytes, row-major RGBA. *)
Record ImageData := mkImageData {
  iwidth : Z;
  iheight : Z;
  data : list Z
}.

(** The integers [0, 1, ..., n-1] a [for (let k = 0; k < n; k++)] loop visits. *)
Definition range (n : Z) : list Z := map Z.of_nat (seq 0 (Z.to_nat n)).

(** [a[i]] on a byte array.  A read past the end (JavaScript [undefined]) is
    0 here; the code never performs one. *)
Definition get (a : list Z) (i : Z) : Z :=
  if i <? 0 then 0 else nth (Z.to_nat i) a 0.

Notation "a .[ i ]" := (get a i) (at level 1, left associativity, format "a .[ i ]").

Definition inCanvas (c : Canvas) (x y : Z) : bool :=
  (0 <=? x) && (x <? width c) && (0 <=? y) && (y <? height c).

(** A canvas keeps its colours premultiplied by alpha.  Where alpha is 0
    nothing of the colour is left: the pixel is transparent black, whatever
    was written there.  (For an alpha between 1 and 254 a browser rounds the
    colour on its way in and out; bytes that were read from a canvas come
    back as they were, and the code writes no others: it puts back what it
    read, with some alphas set to 0.) *)
Definition premultiplied (p : Pixel) : Pixel :=
  if alpha p =? 0 then transparent else p.

(** The pixel read from the canvas at [(x, y)]; transparent black outside
    it. *)
Definition pixelAt (c : Canvas) (x y : Z) : Pixel :=
  if inCanvas c x y then premultiplied (bitmap c x y) else transparent.

Definition bytes (p : Pixel) : list Z := [red p; green p; blue p; alpha p].

(** [document.createElement('canvas')] followed by the assignment of
    [width] and [height]: a transparent-black bitmap. *)
Definition createCanvas (w h : Z) : Canvas :=
  {| width := w; height := h; bitmap := fun _ _ => transparent |}.

(** [ctx.getImageData(sx, sy, sw, sh)].  A browser throws [IndexSizeError]
    when [sw] or [sh] is 0; here the array is then empty, and what is proved
    of a read of a whole canvas is to be used for canvases of positive
    size. *)
Definition getImageData (c : Canvas) (sx sy sw sh : Z) : ImageData :=
  {| iwidth := sw; iheight := sh;
     data := flat_map (fun y =>
               flat_map (fun x => bytes (pixelAt c (sx + x) (sy + y))) (range sw))
             (range sh) |}.

(** The pixel stored in an [ImageData] at column [x], row [y]. *)
Definition imagePixel (d : ImageData) (x y : Z) : Pixel :=
  let i := (y * iwidth d + x) * 4 in
  mkPixel (data d).[i] (data d).[i + 1] (data d).[i + 2] (data d).[i + 3].

(** [ctx.putImageData(d, dx, dy)]: the rectangle covered by [d] is replaced
    by the pixels of [d], premultiplied: a pixel written with alpha 0 is
    stored, and read back, as transparent black. *)
Definition putImageData (c : Canvas) (d : ImageData) (dx dy : Z) : Canvas :=
  {| width := width c; height := height c;
     bitmap := fun x y =>
       if (dx <=? x) && (x <? dx + iwidth d) && (dy <=? y) && (y <? dy + iheight d)
       then premultiplied (imagePixel d (x - dx) (y - dy))
       else bitmap c x y |}.

(** [ctx.clearRect(x, y, w, h)]: the pixels of the rectangle become
    transparent black. *)
Definition clearRect (c : Canvas) (x y w h : Z) : Canvas :=
  {| width := width c; height := height c;
     bitmap := fun px py =>
       if (x <=? px) && (px <? x + w) && (y <=? py) && (py <? y + h)
       then transparent
       else bitmap c px py |}.

(** What the code cannot see into: the rasteriser behind [drawImage] and the
    image decoder behind [new Image()]. *)
Class Platform := {
  (** colour of destination pixel [(x, y)] after
      [dst.drawImage(src, sx, sy, sw, sh, dx, dy, dw, dh)] *)
  render : Canvas -> Canvas -> Q -> Q -> Q -> Q -> Q -> Q -> Q -> Q -> Z -> Z -> Pixel;
  (** [Some img] when [onload] fires, [None] when [onerror] fires *)
  decodeImage : string -> option Canvas
}.

(** [ctx.drawImage(src, sx, sy, sw, sh, dx, dy, dw, dh)]: drawing never
    resizes the destination. *)
Definition drawImage `{Platform} (dst src : Canvas) (sx sy sw sh dx dy dw dh : Q) : Canvas :=
  {| width := width dst; height := height dst;
     bitmap := render dst src sx sy sw sh dx dy dw dh |}.

(** [canvas.toDataURL('image/png')]: a PNG is a lossless encoding of the
    bitmap, so the string is represented by the raster it encodes. *)
Definition toDataURL (c : Canvas) : ImageData :=
  getImageData c 0 0 (width c) (height c).

(** ** [getContentBounds] *)

Record Bounds := mkBounds { box_x : Z; box_y : Z; box_w : Z; box_h : Z }.

(** The five mutable locals of the scan. *)
Record Scan := mkScan { minX : Z; minY : Z; maxX : Z; maxY : Z; found : bool }.

Definition whiteThreshold : Z := 240.

(** Body of the inner loop, at column [x] of row [y]. *)
Definition scanPixel (data : list Z) (width : Z) (y : Z) (s : Scan) (x : Z) : Scan :=
  let i := (y * width + x) * 4 in
  let alpha := data.[i + 3] in
  let r := data.[i] in
  let g := data.[i + 1] in
  let b := data.[i + 2] in
  if alpha >? 20 then
    if (r <? whiteThreshold) || (g <? whiteThreshold) || (b <? whiteThreshold) then
      {| minX := if x <? minX s then x else minX s;
         maxX := if x >? maxX s then x else maxX s;
         minY := if y <? minY s then y else minY s;
         maxY := if y >? maxY s then y else maxY s;
         found := true |}
    else s
  else s.

Definition getContentBounds (ctx : Canvas) (width height : Z) : option Bounds :=
  let imageData := getImageData ctx 0 0 width height in
  let data := data imageData in
  let s0 := {| minX := width; minY := height; maxX := 0; maxY := 0; found := false |} in
  let s := fold_left (fun s y => fold_left (scanPixel data width y) (range width) s)
                     (range height) s0 in
  if negb (found s) then None
  else Some {| box_x := minX s; box_y := minY s;
               box_w := maxX s - minX s + 1; box_h := maxY s - minY s + 1 |}.

(** ** [alignAndMaximizeFrames] *)

Definition padding : Z := 2.

(** The [forEach] that accumulates [maxContentW] and [maxContentH]. *)
Definition maxContent (bounds : list (option Bounds)) : Z * Z :=
  fold_left (fun '(maxContentW, maxContentH) b =>
               match b with
               | Some b => (Z.max maxContentW (box_w b), Z.max maxContentH (box_h b))
               | None => (maxContentW, maxContentH)
               end)
            bounds (0, 0).

(** Body of the second [forEach]: the frame rendered for one cell.
    [getContext('2d')] on a fresh canvas is taken to succeed. *)
Definition centerFrame `{Platform} (finalW finalH : Z)
    (frame : Canvas) (bound : option Bounds) : ImageData :=
  let canvas := createCanvas finalW finalH in
  match bound with
  | Some bound =>
      let targetX := (inject_Z (finalW - box_w bound) / 2)%Q in
      let targetY := (inject_Z (finalH - box_h bound) / 2)%Q in
      toDataURL
        (drawImage canvas frame
           (inject_Z (box_x bound)) (inject_Z (box_y bound))
           (inject_Z (box_w bound)) (inject_Z (box_h bound))
           targetX targetY (inject_Z (box_w bound)) (inject_Z (box_h bound)))
  | None => toDataURL canvas
  end.

Definition alignAndMaximizeFrames `{Platform} (frames : list Canvas) : list ImageData :=
  let bounds :=
    map (fun frame => getContentBounds frame (width frame) (height frame)) frames in
  let '(maxContentW, maxContentH) := maxContent bounds in
  if (maxContentW =? 0) || (maxContentH =? 0) then []
  else
    let finalW := maxContentW + padding * 2 in
    let finalH := maxContentH + padding * 2 in
    fold_left (fun resultBase64 '(frame, bound) =>
                 resultBase64 ++ [centerFrame finalW finalH frame bound])
              (combine frames bounds) [].

(** ** [performFixedGridSlicing] *)

Definition safetyShave : Z := 4.

(** The four [clearRect] calls of the safety cleaning step. *)
Definition shaveEdges (cellCanvas : Canvas) : Canvas :=
  let c1 := clearRect cellCanvas 0 0 (width cellCanvas) safetyShave in
  let c2 := clearRect c1 0 (height cellCanvas - safetyShave) (width cellCanvas) safetyShave in
  let c3 := clearRect c2 0 0 safetyShave (height cellCanvas) in
  clearRect c3 (width cellCanvas - safetyShave) 0 safetyShave (height cellCanvas).

(** [for (let i = 0; i < data.length; i += 4)]: one RGBA group per step. *)
Fixpoint keyOutWhite (threshold : Z) (data : list Z) : list Z :=
  match data with
  | r :: g :: b :: a :: rest =>
      r :: g :: b
        :: (if (r >? threshold) && (g >? threshold) && (b >? threshold) then 0 else a)
        :: keyOutWhite threshold rest
  | _ => data
  end.

(** The [if (removeBg)] block. *)
Definition removeBackground (cellCanvas : Canvas) : Canvas :=
  let imageData := getImageData cellCanvas 0 0 (width cellCanvas) (height cellCanvas) in
  let threshold := 230 in
  let imageData' :=
    {| iwidth := iwidth imageData; iheight := iheight imageData;
       data := keyOutWhite threshold (data imageData) |} in
  putImageData cellCanvas imageData' 0 0.

(** The Cell Sanitizer: edge shave, then the optional key-out. *)
Definition sanitizeCell (cellCanvas : Canvas) (removeBg : bool) : Canvas :=
  let shaved := shaveEdges cellCanvas in
  if removeBg then removeBackground shaved else shaved.

(** The grid area: the global content box, else the whole canvas. *)
Definition gridArea (canvas : Canvas) : Bounds :=
  match getContentBounds canvas (width canvas) (height canvas) with
  | Some globalBounds => globalBounds
  | None => {| box_x := 0; box_y := 0; box_w := width canvas; box_h := height canvas |}
  end.

(** Body of the double loop: the cell at row [r], column [c]. *)
Definition extractCell `{Platform} (canvas : Canvas) (sourceX sourceY : Z)
    (frameWidth frameHeight : Q) (removeBg : bool) (r c : Z) : Canvas :=
  let cellCanvas := createCanvas (Qceiling frameWidth) (Qceiling frameHeight) in
  let drawn :=
    drawImage cellCanvas canvas
      (inject_Z sourceX + inject_Z c * frameWidth)%Q
      (inject_Z sourceY + inject_Z r * frameHeight)%Q
      frameWidth frameHeight
      0%Q 0%Q (inject_Z (width cellCanvas)) (inject_Z (height cellCanvas)) in
  sanitizeCell drawn removeBg.

(** The array [rawCanvases] when the double loop ends. *)
Definition rawCanvases `{Platform} (canvas : Canvas) (rows cols : Z) (removeBg : bool)
    : list Canvas :=
  let area := gridArea canvas in
  let sourceX := box_x area in
  let sourceY := box_y area in
  let sourceW := box_w area in
  let sourceH := box_h area in
  let frameWidth := (inject_Z sourceW / inject_Z cols)%Q in
  let frameHeight := (inject_Z sourceH / inject_Z rows)%Q in
  fold_left (fun acc r =>
               fold_left (fun acc c =>
                            acc ++ [extractCell canvas sourceX sourceY
                                      frameWidth frameHeight removeBg r c])
                         (range cols) acc)
            (range rows) [].

(** [canvas.getContext('2d')] and [cellCanvas.getContext('2d')] are taken to
    succeed, as they do on a canvas that has no other kind of context. *)
Definition performFixedGridSlicing `{Platform} (canvas : Canvas) (rows cols : Z)
    (removeBg : bool) : list ImageData :=
  alignAndMaximizeFrames (rawCanvases canvas rows cols removeBg).

(** ** [sliceSpriteSheet] *)

(** The canvas the [onload] handler builds: as large as the image, with
    [ctx.drawImage(img, 0, 0)], which is the nine-argument call with the
    image's own size on both sides. *)
Definition sourceCanvas `{Platform} (img : Canvas) : Canvas :=
  let canvas := createCanvas (width img) (height img) in
  let iw := inject_Z (width img) in
  let ih := inject_Z (height img) in
  drawImage canvas img 0%Q 0%Q iw ih 0%Q 0%Q iw ih.

(** How a promise settles. *)
Inductive Promise (A : Type) : Type :=
| Fulfilled (value : A)
| Rejected.
Arguments Fulfilled {A} value.
Arguments Rejected {A}.

(** The returned promise, once the image has fired [onload] or [onerror]:
    both handlers call [resolve], and the executor does not bind [reject]. *)
Definition sliceSpriteSheet `{Platform} (spriteSheetBase64 : string) (rows cols : Z)
    (removeBg : bool) : Promise (list ImageData) :=
  match decodeImage spriteSheetBase64 with
  | Some img =>
      let canvas := sourceCanvas img in
      let fixedFrames := performFixedGridSlicing canvas rows cols removeBg in
      Fulfilled fixedFrames
  | None => Fulfilled []
  end.

(** ** A reference platform

    A nearest-neighbour rasteriser and a decoder that knows a few named
    sheets: one concrete browser on which the pipeline can be run. *)

Definition nearestRender (dst src : Canvas) (sx sy sw sh dx dy dw dh : Q) (x y : Z) : Pixel :=
  let qx := inject_Z x in
  let qy := inject_Z y in
  if Qle_bool dx qx && negb (Qle_bool (dx + dw) qx)
     && Qle_bool dy qy && negb (Qle_bool (dy + dh) qy)
  then pixelAt src (Qfloor (sx + (qx + (1 # 2) - dx) * sw / dw))
                   (Qfloor (sy + (qy + (1 # 2) - dy) * sh / dh))
  else bitmap dst x y.

Definition white : Pixel := mkPixel 255 255 255 255.
Definition ink : Pixel := mkPixel 20 20 20 255.

(** A fully white 24 x 24 sheet. *)
Definition whiteSheet : Canvas :=
  {| width := 24; height := 24; bitmap := fun _ _ => white |}.

(** A 60 x 30 white sheet with a 14 x 16 ink block on the left and a
    10 x 10 ink block on the right. *)
Definition twoSprites : Canvas :=
  {| width := 60; height := 30;
     bitmap := fun x y =>
       if (4 <=? x) && (x <? 18) && (6 <=? y) && (y <? 22) then ink
       else if (40 <=? x) && (x <? 50) && (10 <=? y) && (y <? 20) then ink
       else white |}.

(** A 90 x 30 white sheet laid out for a 1 x 3 grid: ink blocks in the
    first and third slot, nothing in the middle one. *)
Definition threeSlots : Canvas :=
  {| width := 90; height := 30;
     bitmap := fun x y =>
       if (4 <=? x) && (x <? 18) && (6 <=? y) && (y <? 22) then ink
       else if (70 <=? x) && (x <? 84) && (6 <=? y) && (y <? 22) then ink
       else white |}.

(** An 8 x 8 sheet of solid ink. *)
Definition tinySheet : Canvas :=
  {| width := 8; height := 8; bitmap := fun _ _ => ink |}.

Definition sampleDecode (s : string) : option Canvas :=
  if String.eqb s "white" then Some whiteSheet
  else if String.eqb s "two" then Some twoSprites
  else if String.eqb s "three" then Some threeSlots
  else if String.eqb s "tiny" then Some tinySheet
  else None.

Definition samplePlatform : Platform :=
  {| render := nearestRender; decodeImage := sampleDecode |}.

(** The frames a promise was fulfilled with. *)
Definition framesOf (p : Promise (list ImageData)) : list ImageData :=
  match p with
  | Fulfilled frames => frames
  | Rejected => []
  end.

(** The sizes of a frame sequence, and whether a frame is all zero bytes. *)
Definition sizes (frames : list ImageData) : list (Z * Z) :=
  map (fun d => (iwidth d, iheight d)) frames.

Definition blank (d : ImageData) : bool := forallb (fun v => v =? 0) (data d).

(** ** Vocabulary of the specification *)

(** A pixel is foreground when it is visible and not near-white. *)
Definition isForeground (p : Pixel) : bool :=
  (alpha p >? 20) && ((red p <? 240) || (green p <? 240) || (blue p <? 240)).

(** [(x, y)] is a foreground pixel of the canvas. *)
Definition foregroundAt (c : Canvas) (x y : Z) : Prop :=
  (0 <= x < width c /\ 0 <= y < height c) /\ isForeground (bitmap c x y) = true.

(** The box spans columns [x0..x1] and rows [y0..y1], every foreground pixel
    lies in it and each of its four sides touches one: it is the smallest
    axis-aligned rectangle containing all the foreground pixels. *)
Definition tightBox (c : Canvas) (b : Bounds) : Prop :=
  exists x0 y0 x1 y1,
    b = {| box_x := x0; box_y := y0; box_w := x1 - x0 + 1; box_h := y1 - y0 + 1 |}
    /\ (forall x y, foregroundAt c x y -> x0 <= x <= x1 /\ y0 <= y <= y1)
    /\ (exists y, foregroundAt c x0 y) /\ (exists y, foregroundAt c x1 y)
    /\ (exists x, foregroundAt c x y0) /\ (exists x, foregroundAt c x y1).

(** [(x, y)] lies within [safetyShave] pixels of a border of a [w] x [h] cell. *)
Definition inMargin (w h x y : Z) : bool :=
  (x <? safetyShave) || (y <? safetyShave)
  || (w - safetyShave <=? x) || (h - safetyShave <=? y).

(** The key-out condition: red, green and blue all above the threshold. *)
Definition nearWhite (threshold : Z) (p : Pixel) : bool :=
  (red p >? threshold) && (green p >? threshold) && (blue p >? threshold).

(** What the key-out does to one pixel. *)
Definition keyOutPixel (threshold : Z) (p : Pixel) : Pixel :=
  mkPixel (red p) (green p) (blue p)
          (if nearWhite threshold p then 0 else alpha p).

(** The union of the four rectangles cleared by [shaveEdges]. *)
Definition inShave (w h x y : Z) : bool :=
  ((w - safetyShave <=? x) && (x <? w - safetyShave + safetyShave)
   && (0 <=? y) && (y <? 0 + h))
  || ((0 <=? x) && (x <? 0 + safetyShave) && (0 <=? y) && (y <? 0 + h))
  || ((0 <=? x) && (x <? 0 + w)
      && (h - safetyShave <=? y) && (y <? h - safetyShave + safetyShave))
  || ((0 <=? x) && (x <? 0 + w) && (0 <=? y) && (y <? 0 + safetyShave)).

(** The content box the Frame Normalizer detects in a cell. *)
Definition contentBox (frame : Canvas) : option Bounds :=
  getContentBounds frame (width frame) (height frame).

(** ** The scan as a fold over the visited coordinates *)

(** The foreground test of [scanPixel], on the raw bytes. *)
Definition fgData (data : list Z) (width x y : Z) : bool :=
  let i := (y * width + x) * 4 in
  (data.[i + 3] >? 20)
  && ((data.[i] <? whiteThreshold) || (data.[i + 1] <? whiteThreshold)
      || (data.[i + 2] <? whiteThreshold)).

(** The assignments [scanPixel] makes on a foreground pixel. *)
Definition grow (s : Scan) (x y : Z) : Scan :=
  {| minX := if x <? minX s then x else minX s;
     maxX := if x >? maxX s then x else maxX s;
     minY := if y <? minY s then y else minY s;
     maxY := if y >? maxY s then y else maxY s;
     found := true |}.

(** The pairs [(y, x)] in the order the double loop visits them. *)
Definition coords (w h : Z) : list (Z * Z) :=
  flat_map (fun y => map (fun x => (y, x)) (range w)) (range h).

(** One step of the scan at the pair [p], given the foreground test [F]. *)
Definition scanStep (F : Z -> Z -> bool) (s : Scan) (p : Z * Z) : Scan :=
  if F (snd p) (fst p) then grow s (snd p) (fst p) else s.

(** What the scan knows after visiting the pixels of [l]. *)
Definition Tight (F : Z -> Z -> bool) (l : list (Z * Z)) (s : Scan) : Prop :=
  (forall x y, In (y, x) l -> F x y = true ->
               minX s <= x <= maxX s /\ minY s <= y <= maxY s)
  /\ (exists y, In (y, minX s) l /\ F (minX s) y = true)
  /\ (exists y, In (y, maxX s) l /\ F (maxX s) y = true)
  /\ (exists x, In (minY s, x) l /\ F x (minY s) = true)
  /\ (exists x, In (maxY s, x) l /\ F x (maxY s) = true).

Definition ScanInv (F : Z -> Z -> bool) (W H : Z) (l : list (Z * Z)) (s : Scan) : Prop :=
  if found s then Tight F l s
  else s = {| minX := W; minY := H; maxX := 0; maxY := 0; found := false |}
       /\ forall x y, In (y, x) l -> F x y = false.

(** The box returned from a final scan state. *)
Definition boxOf (s : Scan) : Bounds :=
  {| box_x := minX s; box_y := minY s;
     box_w := maxX s - minX s + 1; box_h := maxY s - minY s + 1 |}.

(** * The earlier slicer

    The first of the two versions of [imageUtils.ts]: projection-profile
    ("smart") slicing with a fixed-grid fallback, and centering with a
    generous padding.  [getContentBounds] is the same in both versions. *)

Module Legacy.

(** ** [alignAndCenterFrames]

    [Math.floor(maxContentW * 0.1)] is the integer quotient by 10: the double
    nearest to 0.1 lies above 1/10 by less than 1e-17, too little to carry a
    non-negative integer multiple across the next integer.  The body of the
    second [forEach] is that of the later version, [centerFrame]. *)
Definition alignAndCenterFrames `{Platform} (frames : list Canvas) : list ImageData :=
  let bounds :=
    map (fun frame => getContentBounds frame (width frame) (height frame)) frames in
  let '(maxContentW, maxContentH) := maxContent bounds in
  let padding := Z.max 20 (maxContentW / 10) in
  let finalW := maxContentW + padding * 2 in
  let finalH := maxContentH + padding * 2 in
  fold_left (fun resultBase64 '(frame, bound) =>
               resultBase64 ++ [centerFrame finalW finalH frame bound])
            (combine frames bounds) [].

(** ** [performSmartSlicing] *)

Definition threshold : Z := 240.

(** The test both [isRowEmpty] and [isColEmpty] apply to the pixel at
    column [x], row [y]. *)
Definition inked (data : list Z) (width x y : Z) : bool :=
  let i := (y * width + x) * 4 in
  (data.[i + 3] >? 20)
  && ((data.[i] <? threshold) || (data.[i + 1] <? threshold)
      || (data.[i + 2] <? threshold)).

(** [isRowEmpty]: [false] at the first inked pixel of the row. *)
Definition isRowEmpty (data : list Z) (width : Z) (y : Z) : bool :=
  forallb (fun x => negb (inked data width x y)) (range width).

(** [isColEmpty] *)
Definition isColEmpty (data : list Z) (width height : Z) (x : Z) : bool :=
  forallb (fun y => negb (inked data width x y)) (range height).

(** [{start, end}] *)
Record Segment := mkSegment { seg_start : Z; seg_end : Z }.

(** The locals of one projection scan: [inRow], [startY], [rowSegments]
    (or [inCol], [startX], [colSegments]). *)
Record Profile := mkProfile { inside : bool; startAt : Z; segments : list Segment }.

(** Body of a projection loop at line [y] of [limit] lines.  The row scan
    and the column scan are the same loop over different data. *)
Definition scanLine (isEmpty : Z -> bool) (limit : Z) (s : Profile) (y : Z) : Profile :=
  let empty := isEmpty y in
  if negb (inside s) && negb empty then
    {| inside := true; startAt := y; segments := segments s |}
  else if inside s && (empty || (y =? limit - 1)) then
    {| inside := false; startAt := startAt s;
       segments := if y - startAt s >? 10
                   then segments s ++ [{| seg_start := startAt s; seg_end := y |}]
                   else segments s |}
  else s.

Definition findSegments (isEmpty : Z -> bool) (limit : Z) : list Segment :=
  segments (fold_left (scanLine isEmpty limit) (range limit)
                      {| inside := false; startAt := 0; segments := [] |}).

Definition rowSegments (canvas : Canvas) : list Segment :=
  let data := data (getImageData canvas 0 0 (width canvas) (height canvas)) in
  findSegments (isRowEmpty data (width canvas)) (height canvas).

Definition colSegments (canvas : Canvas) : list Segment :=
  let data := data (getImageData canvas 0 0 (width canvas) (height canvas)) in
  findSegments (isColEmpty data (width canvas) (height canvas)) (width canvas).

(** Body of the extraction loop: the cell of row band [r] and column band
    [c]; the key-out block is the one of the later version. *)
Definition smartCell `{Platform} (canvas : Canvas) (removeBg : bool)
    (r c : Segment) : Canvas :=
  let w := seg_end c - seg_start c in
  let h := seg_end r - seg_start r in
  let cellCanvas := createCanvas w h in
  let drawn :=
    drawImage cellCanvas canvas
      (inject_Z (seg_start c)) (inject_Z (seg_start r)) (inject_Z w) (inject_Z h)
      0%Q 0%Q (inject_Z w) (inject_Z h) in
  if removeBg then removeBackground drawn else drawn.

(** The array [rawCanvases] of the smart slicer. *)
Definition smartCells `{Platform} (canvas : Canvas) (removeBg : bool) : list Canvas :=
  fold_left (fun acc r =>
               fold_left (fun acc c => acc ++ [smartCell canvas removeBg r c])
                         (colSegments canvas) acc)
            (rowSegments canvas) [].

Definition performSmartSlicing `{Platform} (canvas : Canvas) (removeBg : bool)
    : list ImageData :=
  if (length (rowSegments canvas) =? 0)%nat || (length (colSegments canvas) =? 0)%nat
  then []
  else alignAndCenterFrames (smartCells canvas removeBg).

(** ** [performFixedGridSlicing] *)

(** Body of the double loop. *)
Definition fixedCell `{Platform} (canvas : Canvas) (frameWidth frameHeight : Z)
    (removeBg : bool) (r c : Z) : Canvas :=
  let cellCanvas := createCanvas frameWidth frameHeight in
  let drawn :=
    drawImage cellCanvas canvas
      (inject_Z (c * frameWidth)) (inject_Z (r * frameHeight))
      (inject_Z frameWidth) (inject_Z frameHeight)
      0%Q 0%Q (inject_Z frameWidth) (inject_Z frameHeight) in
  if removeBg then removeBackground drawn else drawn.

(** [Math.floor(canvas.width / cols)] is the integer quotient. *)
Definition fixedCells `{Platform} (canvas : Canvas) (rows cols : Z) (removeBg : bool)
    : list Canvas :=
  let frameWidth := width canvas / cols in
  let frameHeight := height canvas / rows in
  fold_left (fun acc r =>
               fold_left (fun acc c =>
                            acc ++ [fixedCell canvas frameWidth frameHeight removeBg r c])
                         (range cols) acc)
            (range rows) [].

Definition performFixedGridSlicing `{Platform} (canvas : Canvas) (rows cols : Z)
    (removeBg : bool) : list ImageData :=
  alignAndCenterFrames (fixedCells canvas rows cols removeBg).

(** ** [sliceSpriteSheet]

    [Math.floor((rows * cols) * 0.5)] is the integer quotient by 2. *)
Definition sliceSpriteSheet `{Platform} (spriteSheetBase64 : string) (rows cols : Z)
    (removeBg : bool) : Promise (list ImageData) :=
  match decodeImage spriteSheetBase64 with
  | Some img =>
      let canvas := sourceCanvas img in
      let smartFrames := performSmartSlicing canvas removeBg in
      if Z.of_nat (length smartFrames) >=? (rows * cols) / 2
      then Fulfilled smartFrames
      else Fulfilled (performFixedGridSlicing canvas rows cols removeBg)
  | None => Fulfilled []
  end.

End Legacy.

(** * Around the slicer *)

(** ** [getBestAspectRatio] (generation service) *)

(** An integer as a JavaScript number, that is as a double; exact below
    2^53. *)
Definition number (z : Z) : float :=
  if z <? 0 then PrimFloat.opp (PrimFloat.of_uint63 (Uint63.of_Z (- z)))
  else PrimFloat.of_uint63 (Uint63.of_Z z).

(** [ratio >= 1.8] is [1.8 <= ratio]; a comparison with [NaN] is false. *)
#[warnings="-inexact-float"]
Definition getBestAspectRatio (rows cols : Z) : string :=
  let ratio := PrimFloat.div (number cols) (number rows) in
  if PrimFloat.leb 1.8%float ratio then "16:9"
  else if PrimFloat.leb 1.3%float ratio then "4:3"
  else if PrimFloat.leb ratio 0.7%float then "3:4"
  else if PrimFloat.leb ratio 0.5%float then "9:16"
  else "1:1".

(** The same decision taken on the integers, without a division. *)
Definition aspectByIntegers (rows cols : Z) : string :=
  if 9 * rows <=? 5 * cols then "16:9"
  else if 13 * rows <=? 10 * cols then "4:3"
  else if 10 * cols <=? 7 * rows then "3:4"
  else "1:1".

(** [f] holds of [0, 1, ..., n-1]. *)
Fixpoint allBelow (n : nat) (f : Z -> bool) : bool :=
  match n with
  | O => true
  | S k => f (Z.of_nat k) && allBelow k f
  end.

(** ** The grid [handleGenerate] derives from the frame count

    [gridOfFrameCount] is the sequence of assignments in [App.tsx];
    [gridOfFrameCount'] the reordered one of the later [App]. *)
Definition gridOfFrameCount (frameCount : Z) : Z * Z :=
  let '(rows, cols) := (2, 2) in
  let '(rows, cols) := if frameCount =? 6 then (2, 3) else (rows, cols) in
  let '(rows, cols) := if frameCount =? 8 then (2, 4) else (rows, cols) in
  let '(rows, cols) := if frameCount =? 9 then (3, 3) else (rows, cols) in
  let '(rows, cols) := if frameCount =? 4 then (2, 2) else (rows, cols) in
  (rows, cols).

Definition gridOfFrameCount' (frameCount : Z) : Z * Z :=
  let '(rows, cols) := (2, 2) in
  let '(rows, cols) := if frameCount =? 4 then (2, 2) else (rows, cols) in
  let '(rows, cols) := if frameCount =? 6 then (2, 3) else (rows, cols) in
  let '(rows, cols) := if frameCount =? 8 then (2, 4) else (rows, cols) in
  let '(rows, cols) := if frameCount =? 9 then (3, 3) else (rows, cols) in
  (rows, cols).

(** ** The playback step of [AnimationPreview]

    [(prev + 1) % frames.length]; JavaScript's [%] truncates like [Z.rem]. *)
Definition nextFrameIndex (prev length : Z) : Z := Z.rem (prev + 1) length.

(** ** [downloadZip] *)

(** [String(n)] for a natural number. *)
Definition numberToString (n : nat) : string :=
  NilEmpty.string_of_uint (Nat.to_uint n).

(** [s.split(sep)] for a one-character separator. *)
Fixpoint split (sep : ascii) (s : string) : list string :=
  match s with
  | EmptyString => [EmptyString]
  | String c rest =>
      if Ascii.eqb c sep then EmptyString :: split sep rest
      else match split sep rest with
           | piece :: more => String c piece :: more
           | [] => [String c EmptyString]
           end
  end.

(** A JSZip folder: its entries in insertion order.  The data of an entry is
    what the caller passed, [None] standing for [undefined]. *)
Definition Folder : Type := list (string * option string).

(** [folder.file(name, data, ...)]: a new name is appended, an existing name
    keeps its place and gets the new data. *)
Definition file (folder : Folder) (name : string) (data : option string) : Folder :=
  if existsb (fun e => String.eqb (fst e) name) folder
  then map (fun e => if String.eqb (fst e) name then (name, data) else e) folder
  else folder ++ [(name, data)].

(** The entries of the folder ["frames"] when the [forEach] ends. *)
Definition zipEntries (frames : list string) : Folder :=
  fold_left (fun folder '(index, frame) =>
               let base64Data := nth_error (split "," frame) 1 in
               file folder ("frame_" ++ numberToString (index + 1) ++ ".png")%string
                    base64Data)
            (combine (seq 0 (length frames)) frames) [].

(** What [downloadZip] hands to [saveAs]: the archive's entries and the
    name of the download. *)
Definition downloadZip (frames : list string) (filename : string) : Folder * string :=
  (zipEntries frames, (filename ++ ".zip")%string).

(** ** [downloadApng] *)

(** The arguments of [UPNG.encode] and the name given to [saveAs]. *)
Record ApngCall := mkApngCall {
  buffers : list (list Z);
  apngWidth : Z;
  apngHeight : Z;
  cnum : Z;
  delays : list Z;
  apngName : string
}.

(** [Math.round] of a rational: halves go up. *)
Definition round (q : Q) : Z := Qfloor (q + (1 # 2)).

(** The locals [width], [height] and [buffers] of the loop. *)
Record ApngLoop := mkApngLoop { loopWidth : Z; loopHeight : Z; loopBuffers : list (list Z) }.

(** Body of the [for] loop for one frame that has loaded.
    [ctx.drawImage(frameImg, 0, 0, width, height)] draws the whole image
    into the rectangle given. *)
Definition apngStep `{Platform} (s : ApngLoop) (frameImg : Canvas) : ApngLoop :=
  let imgWidth := width frameImg in
  let imgHeight := height frameImg in
  let '(width, height) :=
    if loopWidth s =? 0 then (imgWidth, imgHeight)
    else (loopWidth s, loopHeight s) in
  let canvas := createCanvas width height in
  let canvas :=
    drawImage canvas frameImg
      0%Q 0%Q (inject_Z imgWidth) (inject_Z imgHeight)
      0%Q 0%Q (inject_Z width) (inject_Z height) in
  let buffer := data (getImageData canvas 0 0 width height) in
  {| loopWidth := width; loopHeight := height; loopBuffers := loopBuffers s ++ [buffer] |}.

(** The loop: [await loadImage(frame)] rejects the whole download when a
    frame does not load. *)
Fixpoint apngLoop `{Platform} (frames : list string) (s : ApngLoop) : option ApngLoop :=
  match frames with
  | [] => Some s
  | frame :: rest =>
      match decodeImage frame with
      | Some frameImg => apngLoop rest (apngStep s frameImg)
      | None => None
      end
  end.

(** [downloadApng], the later version: [None] when it returns without
    saving anything. *)
Definition downloadApng `{Platform} (frames : list string) (fps : Z) (filename : string)
    : Promise (option ApngCall) :=
  if (length frames =? 0)%nat then Fulfilled None
  else
    match apngLoop frames {| loopWidth := 0; loopHeight := 0; loopBuffers := [] |} with
    | None => Rejected
    | Some s =>
        let delay := round (1000 / inject_Z fps) in
        let delays := repeat delay (length (loopBuffers s)) in
        Fulfilled (Some {| buffers := loopBuffers s;
                           apngWidth := loopWidth s; apngHeight := loopHeight s;
                           cnum := 0; delays := delays;
                           apngName := (filename ++ ".png")%string |})
    end.

(** ** [extractBase64Data] (generation service)

    Strings are sequences of code units below 256.  The regular expression
    [/^data:([a-zA-Z0-9]+\/[a-zA-Z0-9-.+]+);base64,(.+)$/] is read from left
    to right: neither character class contains the character that must
    follow it (["/"] after the first, [";"] after the second), so each [+]
    can only take the longest run, and [(.+)$] must take the whole rest,
    which has to be non-empty and free of line breaks. *)

Definition isAlnum (c : ascii) : bool :=
  let n := nat_of_ascii c in
  ((97 <=? n) && (n <=? 122) || (65 <=? n) && (n <=? 90)
   || (48 <=? n) && (n <=? 57))%nat.

(** [[a-zA-Z0-9-.+]] *)
Definition isSubtypeChar (c : ascii) : bool :=
  isAlnum c || Ascii.eqb c "-" || Ascii.eqb c "." || Ascii.eqb c "+".

(** [.]: anything but a line terminator. *)
Definition isDot (c : ascii) : bool :=
  negb (Ascii.eqb c "010") && negb (Ascii.eqb c "013").

Fixpoint allChars (p : ascii -> bool) (s : string) : bool :=
  match s with
  | EmptyString => true
  | String c rest => p c && allChars p rest
  end.

(** The longest prefix of characters of the class, and what follows it. *)
Fixpoint takeWhile (p : ascii -> bool) (s : string) : string * string :=
  match s with
  | EmptyString => (EmptyString, EmptyString)
  | String c rest =>
      if p c then let (a, b) := takeWhile p rest in (String c a, b)
      else (EmptyString, s)
  end.

(** The rest of [s] after the literal [pre], if [s] starts with it. *)
Fixpoint stripPrefix (pre s : string) : option string :=
  match pre with
  | EmptyString => Some s
  | String c pre' =>
      match s with
      | String d s' => if Ascii.eqb c d then stripPrefix pre' s' else None
      | EmptyString => None
      end
  end.

Definition isEmptyString (s : string) : bool :=
  match s with EmptyString => true | _ => false end.

(** [base64String.match(...)]: the two captured groups, or [None]. *)
Definition matchDataUrl (base64String : string) : option (string * string) :=
  match stripPrefix "data:" base64String with
  | None => None
  | Some r1 =>
      let (type, r2) := takeWhile isAlnum r1 in
      if isEmptyString type then None
      else match stripPrefix "/" r2 with
           | None => None
           | Some r3 =>
               let (subtype, r4) := takeWhile isSubtypeChar r3 in
               if isEmptyString subtype then None
               else match stripPrefix ";base64," r4 with
                    | None => None
                    | Some r5 =>
                        if negb (isEmptyString r5) && allChars isDot r5
                        then Some ((type ++ "/" ++ subtype)%string, r5)
                        else None
                    end
           end
  end.

(** [{mimeType, data}] *)
Definition extractBase64Data (base64String : string) : string * string :=
  match matchDataUrl base64String with
  | Some (mimeType, data) => (mimeType, data)
  | None =>
      let split := split "," base64String in
      ("image/png"%string,
       if (1 <? length split)%nat then nth 1 split EmptyString
       else nth 0 split EmptyString)
  end.

(** The data URL [generateSpriteSheet] returns for the image data [data]. *)
Definition spriteSheetUrl (data : string) : string :=
  ("data:image/png;base64," ++ data)%string.

(** The shape the regular expression accepts, with its two groups. *)
Definition dataUrlShape (s mimeType payload : string) : Prop :=
  exists type subtype,
    s = ("data:" ++ type ++ "/" ++ subtype ++ ";base64," ++ payload)%string
    /\ mimeType = (type ++ "/" ++ subtype)%string
    /\ type <> EmptyString /\ allChars isAlnum type = true
    /\ subtype <> EmptyString /\ allChars isSubtypeChar subtype = true
    /\ payload <> EmptyString /\ allChars isDot payload = true.

(** The name of entry [index] of the archive. *)
Definition frameName (index : nat) : string :=
  ("frame_" ++ numberToString (index + 1) ++ ".png")%string.

(** No separator in the string. *)
Definition without (sep : ascii) (s : string) : Prop :=
  ~ In sep (list_ascii_of_string s).

(** ** [generateSpriteSheet] (geminiService.ts)

    The request itself is the network's business: the outcome of
    [ai.models.generateContent] is an input of the model. *)

(** How a call ends: with a value, or with [throw new Error(message)]. *)
Inductive Outcome (A : Type) : Type :=
| Returned (value : A)
| Thrown (message : string).
Arguments Returned {A} value.
Arguments Thrown {A} message.

(** One part of the first candidate: [part.inlineData.data], [part.text]. *)
Record Part := mkPart { inlineData : option string; text : option string }.

(** A JavaScript string used as a condition. *)
Definition truthy (s : option string) : bool :=
  match s with
  | Some (String _ _) => true
  | _ => false
  end.

(** The [for] loop over the parts: the URL of the first part that carries
    image data. *)
Fixpoint firstImage (parts : list Part) : option string :=
  match parts with
  | [] => None
  | part :: rest =>
      match inlineData part with
      | Some data => Some (spriteSheetUrl data)
      | None => firstImage rest
      end
  end.

(** [response] is [response.candidates?.[0]?.content?.parts], [None] when a
    link of the chain is missing. *)
Definition generateSpriteSheet (apiKey : option string)
    (response : Outcome (option (list Part))) : Outcome string :=
  if negb (truthy apiKey) then Thrown "API Key not found"
  else
    let tried :=
      match response with
      | Thrown message => Thrown message
      | Returned response =>
          let parts := match response with Some parts => parts | None => [] end in
          match firstImage parts with
          | Some url => Returned url
          | None =>
              match find (fun p => truthy (text p)) parts with
              | Some textPart =>
                  Thrown "Model refused to generate image (Safety/Policy)."
              | None => Thrown "No image generated in response."
              end
          end
      end in
    match tried with
    | Returned url => Returned url
    | Thrown _ => Thrown "Failed to generate animation frames."
    end.

(** ** [handleGenerate] (the later [App]) *)

Inductive AppState : Type :=
| IDLE | ANALYZING | READY_TO_GENERATE | GENERATING | COMPLETE | ERROR.

(** The texts of the message banner: the four fixed ones, by what they say,
    and the message of a caught error. *)
Inductive Message : Type :=
| UploadAnImageFirst
| EnterAnActionFirst
| ProcessingFailed
| GenerationFailed
| Literal (message : string).

(** The pieces of React state [handleGenerate] writes. *)
Record View := mkView {
  appState : AppState;
  generatedFrames : list ImageData;
  errorMsg : option Message
}.

(** [err.message || <the default text>] *)
Definition messageOr (message : string) : Message :=
  if truthy (Some message) then Literal message else GenerationFailed.

(** [generate rows cols] is the outcome of the awaited
    [generateSpriteSheet(originalImage, actionPrompt, rows, cols)]. *)
Definition handleGenerate `{Platform} (view : View)
    (originalImage : option string) (actionPrompt : string) (frameCount : Z)
    (generate : Z -> Z -> Outcome string) : View :=
  if negb (truthy originalImage) then
    {| appState := appState view; generatedFrames := generatedFrames view;
       errorMsg := Some UploadAnImageFirst |}
  else if negb (truthy (Some actionPrompt)) then
    {| appState := appState view; generatedFrames := generatedFrames view;
       errorMsg := Some EnterAnActionFirst |}
  else
    let '(rows, cols) := gridOfFrameCount' frameCount in
    match generate rows cols with
    | Thrown message =>
        {| appState := ERROR; generatedFrames := []; errorMsg := Some (messageOr message) |}
    | Returned spriteSheetBase64 =>
        match sliceSpriteSheet spriteSheetBase64 rows cols true with
        | Rejected =>
            {| appState := ERROR; generatedFrames := [];
               errorMsg := Some GenerationFailed |}
        | Fulfilled frames =>
            if (length frames =? 0)%nat then
              {| appState := ERROR; generatedFrames := [];
                 errorMsg := Some ProcessingFailed |}
            else
              {| appState := COMPLETE; generatedFrames := frames; errorMsg := None |}
        end
    end.

(** ** What a projection scan should find *)

(** A band of lines [start .. end-1], all of them inked, more than 10 lines
    long, that begins at line 0 or after an empty line and is closed by the
    empty line [end] or by the last line of the sheet. *)
Definition band (isEmpty : Z -> bool) (limit : Z) (g : Legacy.Segment) : Prop :=
  0 <= Legacy.seg_start g
  /\ Legacy.seg_start g + 10 < Legacy.seg_end g
  /\ Legacy.seg_end g <= limit - 1
  /\ (forall y, Legacy.seg_start g <= y < Legacy.seg_end g -> isEmpty y = false)
  /\ (Legacy.seg_start g = 0 \/ isEmpty (Legacy.seg_start g - 1) = true)
  /\ (isEmpty (Legacy.seg_end g) = true \/ Legacy.seg_end g = limit - 1).

(** The state of a projection scan before line [k]. *)
Definition ProfileInv (isEmpty : Z -> bool) (limit k : Z) (s : Legacy.Profile) : Prop :=
  Forall (fun g => band isEmpty limit g /\ Legacy.seg_end g < k) (Legacy.segments s)
  /\ StronglySorted (fun a b => Legacy.seg_end a < Legacy.seg_start b)
                    (Legacy.segments s)
  /\ (Legacy.inside s = true ->
      0 <= Legacy.startAt s < k
      /\ (forall y, Legacy.startAt s <= y < k -> isEmpty y = false)
      /\ (Legacy.startAt s = 0 \/ isEmpty (Legacy.startAt s - 1) = true)
      /\ Forall (fun g => Legacy.seg_end g < Legacy.startAt s) (Legacy.segments s))
  /\ (Legacy.inside s = false -> k = 0 \/ isEmpty (k - 1) = true \/ k = limit).

(** Row [y] (column [x]) of the canvas holds no foreground pixel. *)
Definition rowBlank (c : Canvas) (y : Z) : Prop := forall x, ~ foregroundAt c x y.
Definition colBlank (c : Canvas) (x : Z) : Prop := forall y, ~ foregroundAt c x y.

(** * Proofs *)

(** ** Lists laid out in equal blocks *)

Section Blocks.
Context {A B : Type}.
Variable f : A -> list B.
Variable n : nat.
Hypothesis f_length : forall a, length (f a) = n.

Lemma length_flat_map_block (l : list A) :
  length (flat_map f l) = (length l * n)%nat.
Proof.
  induction l as [|a l IH]; simpl; [reflexivity|].
  now rewrite length_app, f_length, IH.
Qed.

Lemma nth_flat_map_block (l : list A) (a0 : A) (d : B) :
  forall i j, (i < length l)%nat -> (j < n)%nat ->
  nth (i * n + j) (flat_map f l) d = nth j (f (nth i l a0)) d.
Proof.
  induction l as [|a l IH]; intros i j Hi Hj; simpl in Hi; [lia|].
  destruct i as [|i]; simpl.
  - apply app_nth1. now rewrite f_length.
  - rewrite app_nth2 by (rewrite f_length; lia).
    rewrite f_length.
    replace (n + i * n + j - n)%nat with (i * n + j)%nat by lia.
    apply IH; lia.
Qed.
End Blocks.

Lemma fold_left_flat_map {A B S : Type} (step : S -> B -> S) (g : A -> list B)
    (l : list A) (s : S) :
  fold_left step (flat_map g l) s = fold_left (fun s a => fold_left step (g a) s) l s.
Proof.
  revert s. induction l as [|a l IH]; intro s; simpl; [reflexivity|].
  now rewrite fold_left_app, IH.
Qed.

Lemma fold_left_map {A B S : Type} (step : S -> B -> S) (g : A -> B)
    (l : list A) (s : S) :
  fold_left step (map g l) s = fold_left (fun s a => step s (g a)) l s.
Proof.
  revert s. induction l as [|a l IH]; intro s; simpl; [reflexivity|]. apply IH.
Qed.

Lemma fold_left_push {A B : Type} (g : A -> B) (l : list A) (acc : list B) :
  fold_left (fun acc a => acc ++ [g a]) l acc = acc ++ map g l.
Proof.
  revert acc. induction l as [|a l IH]; intro acc; simpl.
  - now rewrite app_nil_r.
  - now rewrite IH, <- app_assoc.
Qed.

(** ** [range] *)

Lemma length_range (n : Z) : length (range n) = Z.to_nat n.
Proof. unfold range. now rewrite length_map, length_seq. Qed.

Lemma nth_range (n : Z) (i : nat) :
  (i < Z.to_nat n)%nat -> nth i (range n) 0 = Z.of_nat i.
Proof.
  intro Hi. unfold range.
  change 0 with (Z.of_nat 0). rewrite map_nth, seq_nth by assumption.
  reflexivity.
Qed.

Lemma In_range (n x : Z) : In x (range n) <-> 0 <= x < n.
Proof.
  unfold range. rewrite in_map_iff. split.
  - intros (i & <- & Hi). apply in_seq in Hi. lia.
  - intros Hx. exists (Z.to_nat x). split; [lia|]. apply in_seq. lia.
Qed.

(** ** Reading an [ImageData] back *)

Lemma block_index (x y w k : Z) :
  0 <= x < w -> 0 <= y -> 0 <= k < 4 ->
  Z.to_nat ((y * w + x) * 4 + k)
  = (Z.to_nat y * (Z.to_nat w * 4) + (Z.to_nat x * 4 + Z.to_nat k))%nat.
Proof.
  intros Hx Hy Hk. apply Nat2Z.inj.
  rewrite Z2Nat.id by nia.
  rewrite !Nat2Z.inj_add, !Nat2Z.inj_mul, !Z2Nat.id by lia.
  simpl. ring.
Qed.

Lemma getImageData_get (c : Canvas) (sx sy w h x y k : Z) :
  0 <= x < w -> 0 <= y < h -> 0 <= k < 4 ->
  (data (getImageData c sx sy w h)).[(y * w + x) * 4 + k]
  = nth (Z.to_nat k) (bytes (pixelAt c (sx + x) (sy + y))) 0.
Proof.
  intros Hx Hy Hk. unfold get.
  destruct ((y * w + x) * 4 + k <? 0) eqn:E; [apply Z.ltb_lt in E; nia|].
  rewrite block_index by lia. simpl data.
  rewrite (nth_flat_map_block
             (fun y => flat_map (fun x => bytes (pixelAt c (sx + x) (sy + y))) (range w))
             (n := (Z.to_nat w * 4)%nat)) with (a0 := 0).
  - rewrite (nth_flat_map_block (fun x => bytes (pixelAt c (sx + x) (sy + _)))
               (n := 4%nat)) with (a0 := 0).
    + rewrite !nth_range by lia. now rewrite !Z2Nat.id by lia.
    + reflexivity.
    + rewrite length_range. lia.
    + lia.
  - intro a. rewrite (length_flat_map_block _ (n := 4%nat)) by reflexivity.
    now rewrite length_range.
  - rewrite length_range. lia.
  - lia.
Qed.

Lemma imagePixel_getImageData (c : Canvas) (sx sy w h x y : Z) :
  0 <= x < w -> 0 <= y < h ->
  imagePixel (getImageData c sx sy w h) x y = pixelAt c (sx + x) (sy + y).
Proof.
  intros Hx Hy. unfold imagePixel. simpl iwidth.
  replace ((y * w + x) * 4) with ((y * w + x) * 4 + 0) at 1 by lia.
  rewrite !getImageData_get by lia.
  now destruct (pixelAt c (sx + x) (sy + y)).
Qed.

(** ** The scan invariant *)

Lemma fold_left_ext {A S : Type} (f g : S -> A -> S) (l : list A) (s : S) :
  (forall s a, In a l -> f s a = g s a) -> fold_left f l s = fold_left g l s.
Proof.
  revert s. induction l as [|a l IH]; intros s E; simpl; [reflexivity|].
  rewrite E by now left. apply IH. intros; apply E; now right.
Qed.

Lemma scanPixel_grow (data : list Z) (width y x : Z) (s : Scan) :
  scanPixel data width y s x = if fgData data width x y then grow s x y else s.
Proof.
  unfold scanPixel, fgData, grow.
  destruct (data.[(y * width + x) * 4 + 3] >? 20); simpl; [|reflexivity].
  now destruct (_ || _).
Qed.

Lemma In_coords (w h x y : Z) : In (y, x) (coords w h) <-> 0 <= x < w /\ 0 <= y < h.
Proof.
  unfold coords. rewrite in_flat_map. split.
  - intros (y' & Hy & Hin). apply in_map_iff in Hin. destruct Hin as (x' & E & Hx).
    inversion E; subst. apply In_range in Hy, Hx. lia.
  - intros [Hx Hy]. exists y. split; [now apply In_range|].
    apply in_map_iff. exists x. split; [reflexivity|now apply In_range].
Qed.

Section ScanInvariant.
Variable F : Z -> Z -> bool.
Variables W H : Z.

Lemma Tight_skip (l : list (Z * Z)) (s : Scan) (x y : Z) :
  F x y = false -> Tight F l s -> Tight F (l ++ [(y, x)]) s.
Proof.
  intros Hf (Hall & (ya & Ia & Fa) & (yb & Ib & Fb) & (xc & Ic & Fc) & (xd & Id & Fd)).
  split; [|split; [|split; [|split]]].
  - intros x' y' Hin Hf'.
    apply in_app_or in Hin. destruct Hin as [Hin|[E|[]]].
    + now apply Hall.
    + inversion E; subst. congruence.
  - exists ya. split; [apply in_or_app; now left|assumption].
  - exists yb. split; [apply in_or_app; now left|assumption].
  - exists xc. split; [apply in_or_app; now left|assumption].
  - exists xd. split; [apply in_or_app; now left|assumption].
Qed.

Lemma Tight_grow (l : list (Z * Z)) (s : Scan) (x y : Z) :
  F x y = true -> Tight F l s -> Tight F (l ++ [(y, x)]) (grow s x y).
Proof.
  intros Hf (Hall & (ya & Ia & Fa) & (yb & Ib & Fb) & (xc & Ic & Fc) & (xd & Id & Fd)).
  assert (Hnew : In (y, x) (l ++ [(y, x)])) by (apply in_or_app; right; now left).
  unfold Tight, grow; simpl.
  split; [|split; [|split; [|split]]].
  - intros x' y' Hin Hf'.
    apply in_app_or in Hin. destruct Hin as [Hin|[E|[]]].
    + specialize (Hall _ _ Hin Hf').
      destruct (x <? minX s) eqn:E1, (x >? maxX s) eqn:E2,
               (y <? minY s) eqn:E3, (y >? maxY s) eqn:E4; lia.
    + inversion E; subst.
      destruct (x' <? minX s) eqn:E1, (x' >? maxX s) eqn:E2,
               (y' <? minY s) eqn:E3, (y' >? maxY s) eqn:E4; lia.
  - destruct (x <? minX s); [now exists y|].
    exists ya. split; [apply in_or_app; now left|assumption].
  - destruct (x >? maxX s); [now exists y|].
    exists yb. split; [apply in_or_app; now left|assumption].
  - destruct (y <? minY s); [now exists x|].
    exists xc. split; [apply in_or_app; now left|assumption].
  - destruct (y >? maxY s); [now exists x|].
    exists xd. split; [apply in_or_app; now left|assumption].
Qed.

Lemma Tight_first (l : list (Z * Z)) (x y : Z) :
  0 <= x < W -> 0 <= y < H -> F x y = true ->
  (forall x' y', In (y', x') l -> F x' y' = false) ->
  Tight F (l ++ [(y, x)])
        (grow {| minX := W; minY := H; maxX := 0; maxY := 0; found := false |} x y).
Proof.
  intros Hx Hy Hf Hnone.
  assert (Hnew : In (y, x) (l ++ [(y, x)])) by (apply in_or_app; right; now left).
  unfold Tight, grow; simpl.
  assert (E1 : (x <? W) = true) by (apply Z.ltb_lt; lia).
  assert (E3 : (y <? H) = true) by (apply Z.ltb_lt; lia).
  assert (E2 : (if x >? 0 then x else 0) = x) by (destruct (x >? 0) eqn:E; lia).
  assert (E4 : (if y >? 0 then y else 0) = y) by (destruct (y >? 0) eqn:E; lia).
  rewrite E1, E2, E3, E4.
  split; [|split; [|split; [|split]]]; try (now exists y); try (now exists x).
  intros x' y' Hin Hf'.
  apply in_app_or in Hin. destruct Hin as [Hin|[E|[]]].
  - rewrite (Hnone _ _ Hin) in Hf'. discriminate.
  - inversion E; subst. lia.
Qed.

Lemma ScanInv_step (l : list (Z * Z)) (s : Scan) (x y : Z) :
  0 <= x < W -> 0 <= y < H ->
  ScanInv F W H l s -> ScanInv F W H (l ++ [(y, x)]) (scanStep F s (y, x)).
Proof.
  intros Hx Hy Inv. unfold scanStep; simpl fst; simpl snd.
  unfold ScanInv in *.
  destruct (F x y) eqn:Hf, (found s) eqn:Hs.
  - simpl. now apply Tight_grow.
  - simpl. destruct Inv as [-> Hnone]. now apply Tight_first.
  - now apply Tight_skip.
  - destruct Inv as [E Hnone]. split; [assumption|].
    intros x' y' Hin. apply in_app_or in Hin. destruct Hin as [Hin|[E'|[]]].
    + now apply Hnone.
    + inversion E'; subst. assumption.
Qed.

Lemma ScanInv_fold (l pre : list (Z * Z)) (s : Scan) :
  (forall x y, In (y, x) l -> 0 <= x < W /\ 0 <= y < H) ->
  ScanInv F W H pre s -> ScanInv F W H (pre ++ l) (fold_left (scanStep F) l s).
Proof.
  revert pre s. induction l as [|[y x] l IH]; intros pre s Hl Inv; simpl.
  - now rewrite app_nil_r.
  - replace (pre ++ (y, x) :: l) with ((pre ++ [(y, x)]) ++ l)
      by now rewrite <- app_assoc.
    apply IH.
    + intros; apply Hl; now right.
    + apply ScanInv_step; try assumption; apply (Hl x y); now left.
Qed.

Lemma loops_as_fold (data : list Z) (s : Scan) :
  (forall x y, fgData data W x y = F x y) ->
  fold_left (fun s y => fold_left (scanPixel data W y) (range W) s) (range H) s
  = fold_left (scanStep F) (coords W H) s.
Proof.
  intro E. unfold coords. rewrite fold_left_flat_map.
  apply fold_left_ext. intros s' y _.
  rewrite fold_left_map. apply fold_left_ext. intros s'' x _.
  unfold scanStep; simpl. now rewrite scanPixel_grow, E.
Qed.

End ScanInvariant.

(** ** [getContentBounds] *)

Lemma premultiplied_idem (p : Pixel) :
  premultiplied (premultiplied p) = premultiplied p.
Proof.
  unfold premultiplied. destruct (alpha p =? 0) eqn:E; [reflexivity|].
  now rewrite E.
Qed.

Lemma alpha_premultiplied (p : Pixel) : alpha (premultiplied p) = alpha p.
Proof.
  unfold premultiplied. destruct (Z.eqb_spec (alpha p) 0) as [E|E]; [|reflexivity].
  now rewrite E.
Qed.

Lemma premultiplied_visible (p : Pixel) : alpha p <> 0 -> premultiplied p = p.
Proof.
  intro Ha. unfold premultiplied. now destruct (Z.eqb_spec (alpha p) 0).
Qed.

(** Whether a pixel counts as foreground does not depend on the colour left
    under alpha 0. *)
Lemma isForeground_premultiplied (p : Pixel) :
  isForeground (premultiplied p) = isForeground p.
Proof.
  unfold premultiplied. destruct (Z.eqb_spec (alpha p) 0) as [E|E]; [|reflexivity].
  unfold isForeground. now rewrite E.
Qed.

Lemma pixelAt_inside (c : Canvas) (x y : Z) :
  0 <= x < width c -> 0 <= y < height c ->
  pixelAt c x y = premultiplied (bitmap c x y).
Proof.
  intros Hx Hy. unfold pixelAt, inCanvas.
  replace (0 <=? x) with true by (symmetry; apply Z.leb_le; lia).
  replace (x <? width c) with true by (symmetry; apply Z.ltb_lt; lia).
  replace (0 <=? y) with true by (symmetry; apply Z.leb_le; lia).
  replace (y <? height c) with true by (symmetry; apply Z.ltb_lt; lia).
  reflexivity.
Qed.

(** What is read from a canvas is premultiplied already. *)
Lemma pixelAt_premultiplied (c : Canvas) (x y : Z) :
  premultiplied (pixelAt c x y) = pixelAt c x y.
Proof.
  unfold pixelAt. destruct (inCanvas c x y); [apply premultiplied_idem|reflexivity].
Qed.

Lemma fgData_getImageData (c : Canvas) (w h x y : Z) :
  0 <= x < w -> 0 <= y < h ->
  fgData (data (getImageData c 0 0 w h)) w x y = isForeground (pixelAt c x y).
Proof.
  intros Hx Hy. unfold fgData, isForeground, whiteThreshold.
  replace ((y * w + x) * 4) with ((y * w + x) * 4 + 0) at 2 by lia.
  rewrite !getImageData_get by lia. reflexivity.
Qed.

Lemma getContentBounds_inv (c : Canvas) (w h : Z) :
  exists s,
    ScanInv (fgData (data (getImageData c 0 0 w h)) w) w h (coords w h) s
    /\ getContentBounds c w h = if found s then Some (boxOf s) else None.
Proof.
  unfold getContentBounds.
  rewrite (loops_as_fold (fgData (data (getImageData c 0 0 w h)) w))
    by reflexivity.
  match goal with
  | |- exists s, _ /\ (if negb (found ?t) then _ else _) = _ => exists t
  end.
  split.
  - apply (ScanInv_fold (fgData (data (getImageData c 0 0 w h)) w)
             (W := w) (H := h) (coords w h) []).
    + intros x y Hin. now apply In_coords.
    + unfold ScanInv; simpl. split; [reflexivity|]. intros x y Hin. contradiction.
  - now destruct (found _).
Qed.

Lemma getContentBounds_None (c : Canvas) (w h : Z) :
  getContentBounds c w h = None <->
  (forall x y, 0 <= x < w -> 0 <= y < h -> isForeground (pixelAt c x y) = false).
Proof.
  destruct (getContentBounds_inv c w h) as (s & Inv & ->).
  unfold ScanInv in Inv. destruct (found s).
  - split; [discriminate|]. intro Hnone.
    destruct Inv as (_ & (y & Hin & Hf) & _).
    apply In_coords in Hin.
    rewrite fgData_getImageData in Hf by lia.
    rewrite Hnone in Hf by lia. discriminate.
  - split; [|reflexivity]. intros _ x y Hx Hy.
    destruct Inv as [_ Hnone].
    rewrite <- (fgData_getImageData c (w := w) (h := h)) by lia.
    apply Hnone. now apply In_coords.
Qed.

Lemma getContentBounds_Some (c : Canvas) (w h : Z) (b : Bounds) :
  getContentBounds c w h = Some b ->
  let fg x y := (0 <= x < w /\ 0 <= y < h) /\ isForeground (pixelAt c x y) = true in
  exists x0 y0 x1 y1,
    b = {| box_x := x0; box_y := y0; box_w := x1 - x0 + 1; box_h := y1 - y0 + 1 |}
    /\ (forall x y, fg x y -> x0 <= x <= x1 /\ y0 <= y <= y1)
    /\ (exists y, fg x0 y) /\ (exists y, fg x1 y)
    /\ (exists x, fg x y0) /\ (exists x, fg x y1).
Proof.
  destruct (getContentBounds_inv c w h) as (s & Inv & ->).
  unfold ScanInv in Inv. destruct (found s); [|discriminate].
  intros E fg. inversion E; subst b; clear E.
  destruct Inv as (Hall & (ya & Ia & Fa) & (yb & Ib & Fb) & (xc & Ic & Fc) & (xd & Id & Fd)).
  apply In_coords in Ia, Ib, Ic, Id.
  rewrite fgData_getImageData in Fa, Fb, Fc, Fd by lia.
  exists (minX s), (minY s), (maxX s), (maxY s).
  split; [reflexivity|]. split.
  - intros x y [Hxy Hf]. apply Hall.
    + now apply In_coords.
    + now rewrite fgData_getImageData by lia.
  - unfold fg.
    split; [exists ya; split; assumption|].
    split; [exists yb; split; assumption|].
    split; [exists xc; split; assumption|exists xd; split; assumption].
Qed.

(** A detected box is never empty. *)
Lemma getContentBounds_positive (c : Canvas) (w h : Z) (b : Bounds) :
  getContentBounds c w h = Some b -> 1 <= box_w b /\ 1 <= box_h b.
Proof.
  intro E. destruct (getContentBounds_Some _ _ _ E)
    as (x0 & y0 & x1 & y1 & -> & Hall & (y & Hy) & _).
  destruct (Hall _ _ Hy). simpl. lia.
Qed.

Lemma contentBox_None (c : Canvas) :
  contentBox c = None <-> forall x y, ~ foregroundAt c x y.
Proof.
  unfold contentBox. rewrite getContentBounds_None. unfold foregroundAt. split.
  - intros Hn x y [[Hx Hy] Hf].
    specialize (Hn x y Hx Hy).
    rewrite pixelAt_inside, isForeground_premultiplied in Hn by assumption.
    congruence.
  - intros Hn x y Hx Hy.
    rewrite pixelAt_inside, isForeground_premultiplied by assumption.
    destruct (isForeground (bitmap c x y)) eqn:E; [|reflexivity].
    exfalso. apply (Hn x y). auto.
Qed.

(** C2. [getContentBounds] returns [null] exactly when the canvas has no
    foreground pixel (alpha above 20 and one of red, green, blue below 240);
    otherwise it returns the box [{x: minX, y: minY, w: maxX-minX+1,
    h: maxY-minY+1}], the smallest axis-aligned rectangle containing every
    foreground pixel.  A fully transparent canvas and a fully near-white
    canvas both give [null]. *)
Theorem getContentBounds_spec (c : Canvas) :
  (getContentBounds c (width c) (height c) = None
     <-> forall x y, ~ foregroundAt c x y)
  /\ (forall b, getContentBounds c (width c) (height c) = Some b -> tightBox c b)
  /\ ((forall x y, 0 <= x < width c -> 0 <= y < height c -> alpha (bitmap c x y) = 0)
      -> getContentBounds c (width c) (height c) = None)
  /\ ((forall x y, 0 <= x < width c -> 0 <= y < height c ->
                   240 <= red (bitmap c x y) /\ 240 <= green (bitmap c x y)
                   /\ 240 <= blue (bitmap c x y))
      -> getContentBounds c (width c) (height c) = None).
Proof.
  pose proof (contentBox_None c) as Hnone. unfold contentBox in Hnone.
  split; [exact Hnone|]. split; [|split].
  - intros b E. apply getContentBounds_Some in E.
    destruct E as (x0 & y0 & x1 & y1 & -> & Hall & (ya & Ha) & (yb & Hb)
                   & (xc & Hc) & (xd & Hd)).
    assert (Hfg : forall x y,
               (0 <= x < width c /\ 0 <= y < height c)
               /\ isForeground (pixelAt c x y) = true -> foregroundAt c x y).
    { intros x y [[Hx Hy] Hf].
      rewrite pixelAt_inside, isForeground_premultiplied in Hf by assumption.
      split; auto. }
    exists x0, y0, x1, y1. split; [reflexivity|]. split.
    + intros x y [[Hx Hy] Hf]. apply Hall.
      split; [auto|]. now rewrite pixelAt_inside, isForeground_premultiplied.
    + split; [exists ya; now apply Hfg|].
      split; [exists yb; now apply Hfg|].
      split; [exists xc; now apply Hfg|exists xd; now apply Hfg].
  - intro Ha. apply Hnone. intros x y [[Hx Hy] Hf].
    unfold isForeground in Hf. rewrite (Ha x y Hx Hy) in Hf. discriminate.
  - intro Hw. apply Hnone. intros x y [[Hx Hy] Hf].
    destruct (Hw x y Hx Hy) as (Hr & Hg & Hb).
    unfold isForeground in Hf.
    apply andb_true_iff in Hf. destruct Hf as [_ Hf].
    apply orb_true_iff in Hf. destruct Hf as [Hf|Hf];
      [apply orb_true_iff in Hf; destruct Hf as [Hf|Hf]|];
      apply Z.ltb_lt in Hf; lia.
Qed.

(** ** The cell sanitizer *)

Lemma getImageData_ext (a b : Canvas) (sx sy w h : Z) :
  (forall x y, pixelAt a x y = pixelAt b x y) ->
  getImageData a sx sy w h = getImageData b sx sy w h.
Proof.
  intro E. unfold getImageData. f_equal.
  apply flat_map_ext. intro y. apply flat_map_ext. intro x. now rewrite E.
Qed.

Lemma keyOutWhite_nth (t : Z) (p : nat) :
  forall l,
    let n := (4 * p)%nat in
    nth n (keyOutWhite t l) 0 = nth n l 0
    /\ nth (S n) (keyOutWhite t l) 0 = nth (S n) l 0
    /\ nth (S (S n)) (keyOutWhite t l) 0 = nth (S (S n)) l 0
    /\ nth (S (S (S n))) (keyOutWhite t l) 0
       = if (nth n l 0 >? t) && (nth (S n) l 0 >? t) && (nth (S (S n)) l 0 >? t)
         then 0 else nth (S (S (S n))) l 0.
Proof.
  induction p as [|p IH]; intros l n; subst n.
  - destruct l as [|r [|g [|b [|a rest]]]]; simpl; repeat split;
      try reflexivity; now destruct (_ && _).
  - replace (4 * S p)%nat with (S (S (S (S (4 * p))))) by lia.
    destruct l as [|r [|g [|b [|a rest]]]];
      try (simpl; repeat split; try reflexivity;
           destruct (4 * p)%nat; simpl; now destruct (_ && _)).
    apply (IH rest).
Qed.

Lemma imagePixel_keyOut (t : Z) (d : ImageData) (x y : Z) :
  0 <= x -> 0 <= y -> 0 <= iwidth d ->
  imagePixel {| iwidth := iwidth d; iheight := iheight d;
                data := keyOutWhite t (data d) |} x y
  = keyOutPixel t (imagePixel d x y).
Proof.
  intros Hx Hy Hw. unfold imagePixel, keyOutPixel, nearWhite, get.
  cbn [iwidth iheight data red green blue alpha].
  set (q := y * iwidth d + x).
  assert (Hq : 0 <= q) by (unfold q; nia).
  replace (q * 4 <? 0) with false by (symmetry; apply Z.ltb_ge; lia).
  replace (q * 4 + 1 <? 0) with false by (symmetry; apply Z.ltb_ge; lia).
  replace (q * 4 + 2 <? 0) with false by (symmetry; apply Z.ltb_ge; lia).
  replace (q * 4 + 3 <? 0) with false by (symmetry; apply Z.ltb_ge; lia).
  replace (Z.to_nat (q * 4)) with (4 * Z.to_nat q)%nat by lia.
  replace (Z.to_nat (q * 4 + 1)) with (S (4 * Z.to_nat q))%nat by lia.
  replace (Z.to_nat (q * 4 + 2)) with (S (S (4 * Z.to_nat q)))%nat by lia.
  replace (Z.to_nat (q * 4 + 3)) with (S (S (S (4 * Z.to_nat q))))%nat by lia.
  destruct (keyOutWhite_nth t (Z.to_nat q) (data d)) as (-> & -> & -> & ->).
  reflexivity.
Qed.

Lemma bitmap_shaveEdges (c : Canvas) (x y : Z) :
  bitmap (shaveEdges c) x y
  = if inShave (width c) (height c) x y then transparent else bitmap c x y.
Proof.
  unfold shaveEdges, inShave, clearRect; simpl.
  repeat match goal with
         | |- context [if ?b then _ else _] => destruct b; simpl
         end; reflexivity.
Qed.

Lemma inShave_inMargin (w h x y : Z) :
  0 <= x < w -> 0 <= y < h -> inShave w h x y = inMargin w h x y.
Proof.
  intros Hx Hy. apply eq_true_iff_eq.
  unfold inShave, inMargin, safetyShave.
  rewrite !orb_true_iff, !andb_true_iff, !Z.leb_le, !Z.ltb_lt. lia.
Qed.

Lemma size_shaveEdges (c : Canvas) :
  width (shaveEdges c) = width c /\ height (shaveEdges c) = height c.
Proof. split; reflexivity. Qed.

Lemma size_sanitizeCell (c : Canvas) (removeBg : bool) :
  width (sanitizeCell c removeBg) = width c
  /\ height (sanitizeCell c removeBg) = height c.
Proof. destruct removeBg; split; reflexivity. Qed.

Lemma pixelAt_shaveEdges (c : Canvas) (x y : Z) :
  0 <= x < width c -> 0 <= y < height c ->
  pixelAt (shaveEdges c) x y
  = if inMargin (width c) (height c) x y then transparent else pixelAt c x y.
Proof.
  intros Hx Hy.
  rewrite !pixelAt_inside by assumption.
  rewrite bitmap_shaveEdges. rewrite inShave_inMargin by assumption.
  now destruct (inMargin (width c) (height c) x y).
Qed.

Lemma pixelAt_removeBackground (c : Canvas) (x y : Z) :
  0 <= x < width c -> 0 <= y < height c ->
  pixelAt (removeBackground c) x y
  = premultiplied (keyOutPixel 230 (pixelAt c x y)).
Proof.
  intros Hx Hy. rewrite pixelAt_inside by assumption.
  unfold removeBackground, putImageData. cbn [bitmap iwidth iheight].
  replace (iwidth (getImageData c 0 0 (width c) (height c))) with (width c)
    by reflexivity.
  replace (iheight (getImageData c 0 0 (width c) (height c))) with (height c)
    by reflexivity.
  replace (0 <=? x) with true by (symmetry; apply Z.leb_le; lia).
  replace (x <? 0 + width c) with true by (symmetry; apply Z.ltb_lt; lia).
  replace (0 <=? y) with true by (symmetry; apply Z.leb_le; lia).
  replace (y <? 0 + height c) with true by (symmetry; apply Z.ltb_lt; lia).
  cbn [andb]. rewrite !Z.sub_0_r.
  rewrite (imagePixel_keyOut 230 (getImageData c 0 0 (width c) (height c)))
    by (cbn [iwidth getImageData]; lia).
  rewrite imagePixel_getImageData by lia. apply premultiplied_idem.
Qed.

(** One pixel of a sanitized cell, in terms of the cell that went in. *)
Lemma pixelAt_sanitizeCell (c : Canvas) (removeBg : bool) (x y : Z) :
  0 <= x < width c -> 0 <= y < height c ->
  pixelAt (sanitizeCell c removeBg) x y
  = let p := if inMargin (width c) (height c) x y then transparent else pixelAt c x y in
    if removeBg then premultiplied (keyOutPixel 230 p) else p.
Proof.
  intros Hx Hy. unfold sanitizeCell. destruct removeBg; simpl.
  - rewrite pixelAt_removeBackground by assumption.
    now rewrite pixelAt_shaveEdges.
  - now apply pixelAt_shaveEdges.
Qed.

(** C7. After the sanitizer has run on a cell: a pixel within 4 px of any of
    the four borders has alpha 0; with [removeBg], a pixel whose red, green
    and blue all exceed 230 has alpha 0 (whether the channels are read
    before or after the pass); every other pixel is the pixel of the
    extracted cell.  The cell keeps its size. *)
Theorem sanitizeCell_spec (cell : Canvas) (removeBg : bool) (x y : Z) :
  0 <= x < width cell -> 0 <= y < height cell ->
  let p := pixelAt cell x y in
  let q := pixelAt (sanitizeCell cell removeBg) x y in
  (width (sanitizeCell cell removeBg) = width cell
   /\ height (sanitizeCell cell removeBg) = height cell)
  /\ (x < 4 \/ y < 4 \/ width cell - 4 <= x \/ height cell - 4 <= y -> alpha q = 0)
  /\ (removeBg = true -> 230 < red q /\ 230 < green q /\ 230 < blue q -> alpha q = 0)
  /\ (removeBg = true -> 230 < red p /\ 230 < green p /\ 230 < blue p -> alpha q = 0)
  /\ (~ (x < 4 \/ y < 4 \/ width cell - 4 <= x \/ height cell - 4 <= y) ->
      (removeBg = true -> ~ (230 < red p /\ 230 < green p /\ 230 < blue p)) ->
      q = p).
Proof.
  intros Hx Hy p q.
  assert (Hq := pixelAt_sanitizeCell cell removeBg Hx Hy).
  fold q in Hq. fold p in Hq. cbv zeta in Hq.
  assert (Hm : inMargin (width cell) (height cell) x y = true
               <-> (x < 4 \/ y < 4 \/ width cell - 4 <= x \/ height cell - 4 <= y)).
  { unfold inMargin, safetyShave.
    rewrite !orb_true_iff, !Z.leb_le, !Z.ltb_lt. tauto. }
  assert (Hw : forall r, nearWhite 230 r = true
                         <-> (230 < red r /\ 230 < green r /\ 230 < blue r)).
  { intro r. unfold nearWhite. rewrite !andb_true_iff, !Z.gtb_gt. lia. }
  split; [apply size_sanitizeCell|].
  assert (HA : (x < 4 \/ y < 4 \/ width cell - 4 <= x \/ height cell - 4 <= y)
               -> alpha q = 0).
  { intro Hc. apply Hm in Hc. rewrite Hq, Hc.
    destruct removeBg; reflexivity. }
  split; [exact HA|]. split; [|split].
  - intros -> Hk. apply Hw in Hk. rewrite Hq in Hk |- *.
    rewrite alpha_premultiplied.
    unfold premultiplied in Hk.
    destruct (alpha (keyOutPixel 230 _) =? 0) eqn:Ea; [discriminate|].
    unfold keyOutPixel, nearWhite in *. simpl in *. now rewrite Hk.
  - intros -> Hk.
    destruct (inMargin (width cell) (height cell) x y) eqn:Em.
    + apply HA. now apply Hm.
    + apply Hw in Hk. rewrite Hq, alpha_premultiplied.
      unfold keyOutPixel. simpl. now rewrite Hk.
  - intros Hn Hk.
    destruct (inMargin (width cell) (height cell) x y) eqn:Em.
    + exfalso. apply Hn. now apply Hm.
    + destruct removeBg; [|exact Hq].
      rewrite Hq. unfold keyOutPixel.
      destruct (nearWhite 230 p) eqn:Ew.
      * exfalso. apply Hk; [reflexivity|]. now apply Hw.
      * replace {| red := red p; green := green p; blue := blue p; alpha := alpha p |}
          with p by now destruct p.
        apply pixelAt_premultiplied.
Qed.

(** C8. Without background removal the sanitizer is idempotent: a second
    run changes neither the size nor any pixel, so the two canvases encode
    to the same raster. *)
Theorem sanitizeCell_idempotent (cell : Canvas) :
  let once := sanitizeCell cell false in
  let twice := sanitizeCell once false in
  width twice = width once /\ height twice = height once
  /\ (forall x y, bitmap twice x y = bitmap once x y)
  /\ toDataURL twice = toDataURL once.
Proof.
  intros once twice.
  assert (Hb : forall x y, bitmap twice x y = bitmap once x y).
  { intros x y. unfold twice, once, sanitizeCell.
    rewrite (bitmap_shaveEdges (shaveEdges cell)).
    rewrite bitmap_shaveEdges.
    destruct (size_shaveEdges cell) as [-> ->].
    now destruct (inShave (width cell) (height cell) x y). }
  split; [reflexivity|]. split; [reflexivity|]. split; [exact Hb|].
  unfold toDataURL.
  change (width twice) with (width once). change (height twice) with (height once).
  apply getImageData_ext. intros x y. unfold pixelAt, inCanvas.
  change (width twice) with (width once). change (height twice) with (height once).
  now rewrite Hb.
Qed.

Lemma keyOutWhite_rgb (t : Z) (d : list Z) (i : Z) :
  i mod 4 <> 3 -> (keyOutWhite t d).[i] = d.[i].
Proof.
  intro Hk. unfold get. destruct (i <? 0) eqn:Ei; [reflexivity|].
  apply Z.ltb_ge in Ei.
  pose proof (Z.div_mod i 4 ltac:(lia)) as Hdm.
  pose proof (Z.mod_pos_bound i 4 ltac:(lia)) as Hb.
  assert (Hq : 0 <= i / 4) by (apply Z.div_pos; lia).
  destruct (keyOutWhite_nth t (Z.to_nat (i / 4)) d) as (E0 & E1 & E2 & _).
  assert (Hcase : i mod 4 = 0 \/ i mod 4 = 1 \/ i mod 4 = 2) by lia.
  destruct Hcase as [Hc|[Hc|Hc]].
  - replace (Z.to_nat i) with (4 * Z.to_nat (i / 4))%nat by lia. exact E0.
  - replace (Z.to_nat i) with (S (4 * Z.to_nat (i / 4)))%nat by lia. exact E1.
  - replace (Z.to_nat i) with (S (S (4 * Z.to_nat (i / 4))))%nat by lia. exact E2.
Qed.

(** C9, as it holds.  The loop of the background-removal pass writes alpha
    bytes only: in the array it works on, every red, green and blue byte
    keeps its value, so each pixel of the array keeps its red, green and
    blue, and a pixel's alpha differs afterwards only when its red, green
    and blue all exceed 230, in which case it is 0.  On the cell canvas,
    once the array has been put back, the size is the same, a pixel whose
    red, green and blue do not all exceed 230 is the pixel it was, and a
    pixel whose red, green and blue all exceed 230 is transparent black: its
    alpha is 0 and its colour is gone with it. *)
Theorem removeBackground_frame (cell : Canvas) (x y : Z) :
  0 <= x < width cell -> 0 <= y < height cell ->
  let imageData := getImageData cell 0 0 (width cell) (height cell) in
  let keyed := {| iwidth := iwidth imageData; iheight := iheight imageData;
                  data := keyOutWhite 230 (data imageData) |} in
  let before := pixelAt cell x y in
  let written := imagePixel keyed x y in
  let after := pixelAt (removeBackground cell) x y in
  (forall d i, i mod 4 <> 3 -> (keyOutWhite 230 d).[i] = d.[i])
  /\ imagePixel imageData x y = before
  /\ (red written = red before /\ green written = green before
      /\ blue written = blue before)
  /\ (alpha written <> alpha before ->
      alpha written = 0 /\ 230 < red before /\ 230 < green before /\ 230 < blue before)
  /\ (230 < red before /\ 230 < green before /\ 230 < blue before -> alpha written = 0)
  /\ (width (removeBackground cell) = width cell
      /\ height (removeBackground cell) = height cell)
  /\ alpha after = alpha written
  /\ (~ (230 < red before /\ 230 < green before /\ 230 < blue before) -> after = before)
  /\ (230 < red before /\ 230 < green before /\ 230 < blue before -> after = transparent).
Proof.
  intros Hx Hy imageData keyed before written after.
  assert (Hb : imagePixel imageData x y = before)
    by (apply imagePixel_getImageData; lia).
  assert (Ew : written = keyOutPixel 230 before).
  { unfold written, keyed. rewrite imagePixel_keyOut; [now rewrite Hb|lia|lia|].
    unfold imageData. cbn [iwidth getImageData]. lia. }
  assert (Ea : after = premultiplied written).
  { rewrite Ew. apply pixelAt_removeBackground; assumption. }
  assert (Hw : nearWhite 230 before = true
               <-> (230 < red before /\ 230 < green before /\ 230 < blue before)).
  { unfold nearWhite. rewrite !andb_true_iff, !Z.gtb_gt. lia. }
  split; [intros d i; apply keyOutWhite_rgb|].
  split; [exact Hb|].
  split; [rewrite Ew; unfold keyOutPixel; simpl; auto|].
  split.
  { rewrite Ew. unfold keyOutPixel; cbn [alpha]. intro Hd.
    destruct (nearWhite 230 before) eqn:En; [|congruence].
    split; [reflexivity|now apply Hw]. }
  split.
  { intro Hk. apply Hw in Hk. rewrite Ew. unfold keyOutPixel; cbn [alpha].
    now rewrite Hk. }
  split; [split; reflexivity|].
  split; [rewrite Ea; apply alpha_premultiplied|].
  split.
  - intro Hk. rewrite Ea, Ew. unfold keyOutPixel.
    destruct (nearWhite 230 before) eqn:En.
    + exfalso. apply Hk. now apply Hw.
    + replace {| red := red before; green := green before; blue := blue before;
                 alpha := alpha before |}
        with before by now destruct before.
      apply pixelAt_premultiplied.
  - intro Hk. apply Hw in Hk. rewrite Ea, Ew. unfold keyOutPixel. now rewrite Hk.
Qed.

(** ** The frame normalizer *)

Lemma fold_left_append {A B : Type} (g : A -> list B) (l : list A) (acc : list B) :
  fold_left (fun acc a => acc ++ g a) l acc = acc ++ flat_map g l.
Proof.
  revert acc. induction l as [|a l IH]; intro acc; simpl.
  - now rewrite app_nil_r.
  - now rewrite IH, <- app_assoc.
Qed.

Lemma combine_map_self {A B : Type} (g : A -> B) (l : list A) :
  combine l (map g l) = map (fun a => (a, g a)) l.
Proof. induction l as [|a l IH]; simpl; [reflexivity|now rewrite IH]. Qed.

(** The running maxima dominate the start values and every box seen, and
    each is a start value or the extent of some box. *)
Lemma maxContent_fold (bounds : list (option Bounds)) :
  forall mw mh,
    let r := fold_left (fun '(maxContentW, maxContentH) b =>
                          match b with
                          | Some b => (Z.max maxContentW (box_w b),
                                       Z.max maxContentH (box_h b))
                          | None => (maxContentW, maxContentH)
                          end) bounds (mw, mh) in
    (mw <= fst r /\ mh <= snd r)
    /\ (forall b, In (Some b) bounds -> box_w b <= fst r /\ box_h b <= snd r)
    /\ (fst r = mw \/ exists b, In (Some b) bounds /\ box_w b = fst r)
    /\ (snd r = mh \/ exists b, In (Some b) bounds /\ box_h b = snd r).
Proof.
  induction bounds as [|[b|] bounds IH]; intros mw mh; simpl.
  - split; [lia|]. split; [intros b Hin; contradiction|]. split; now left.
  - specialize (IH (Z.max mw (box_w b)) (Z.max mh (box_h b))).
    cbv zeta in IH. destruct IH as ((L1 & L2) & Hall & Hw & Hh).
    split; [lia|]. split; [|split].
    + intros b' [E|Hin]; [inversion E; subst; lia|now apply Hall].
    + destruct Hw as [Hw|(b' & Hin & E)].
      * destruct (Z.max_spec mw (box_w b)) as [[_ M]|[_ M]].
        -- right. exists b. split; [now left|congruence].
        -- left. congruence.
      * right. exists b'. split; [now right|assumption].
    + destruct Hh as [Hh|(b' & Hin & E)].
      * destruct (Z.max_spec mh (box_h b)) as [[_ M]|[_ M]].
        -- right. exists b. split; [now left|congruence].
        -- left. congruence.
      * right. exists b'. split; [now right|assumption].
  - specialize (IH mw mh). cbv zeta in IH.
    destruct IH as (L & Hall & Hw & Hh).
    split; [exact L|]. split; [|split].
    + intros b' [E|Hin]; [discriminate|now apply Hall].
    + destruct Hw as [Hw|(b' & Hin & E)]; [now left|].
      right. exists b'. split; [now right|assumption].
    + destruct Hh as [Hh|(b' & Hin & E)]; [now left|].
      right. exists b'. split; [now right|assumption].
Qed.

Lemma maxContent_none (bounds : list (option Bounds)) :
  (forall b, In b bounds -> b = None) -> maxContent bounds = (0, 0).
Proof.
  unfold maxContent. generalize 0 at 1 3 as mw. generalize 0 as mh.
  induction bounds as [|b bounds IH]; intros mh mw Hn; simpl; [reflexivity|].
  rewrite (Hn b) by now left. apply IH. intros; apply Hn; now right.
Qed.

Section Normalizer.
Context `{Platform}.

Lemma alignAndMaximizeFrames_eq (frames : list Canvas) :
  alignAndMaximizeFrames frames
  = let '(maxW, maxH) := maxContent (map contentBox frames) in
    if (maxW =? 0) || (maxH =? 0) then []
    else map (fun frame => centerFrame (maxW + padding * 2) (maxH + padding * 2)
                                       frame (contentBox frame))
             frames.
Proof.
  unfold alignAndMaximizeFrames.
  change (map (fun frame => getContentBounds frame (width frame) (height frame)) frames)
    with (map contentBox frames).
  destruct (maxContent (map contentBox frames)) as [maxW maxH].
  destruct ((maxW =? 0) || (maxH =? 0)); [reflexivity|].
  rewrite combine_map_self.
  rewrite (fold_left_ext
             (fun resultBase64 '(frame, bound) =>
                resultBase64 ++ [centerFrame (maxW + padding * 2) (maxH + padding * 2)
                                             frame bound])
             (fun acc p => acc ++ [centerFrame (maxW + padding * 2) (maxH + padding * 2)
                                               (fst p) (snd p)]))
    by (intros acc [frame bound] _; reflexivity).
  rewrite fold_left_push, map_map. reflexivity.
Qed.

Lemma size_centerFrame (finalW finalH : Z) (frame : Canvas) (bound : option Bounds) :
  iwidth (centerFrame finalW finalH frame bound) = finalW
  /\ iheight (centerFrame finalW finalH frame bound) = finalH.
Proof. destruct bound; split; reflexivity. Qed.

Lemma centerFrame_blank (finalW finalH : Z) (frame : Canvas) :
  0 <= finalW -> 0 <= finalH ->
  let out := centerFrame finalW finalH frame None in
  Forall (fun v => v = 0) (data out)
  /\ length (data out) = Z.to_nat (4 * finalW * finalH).
Proof.
  intros Hw Hh out. subst out.
  unfold centerFrame, toDataURL, getImageData, createCanvas.
  cbn [data width height]. split.
  - apply Forall_forall. intros v Hin.
    apply in_flat_map in Hin. destruct Hin as (y & _ & Hin).
    apply in_flat_map in Hin. destruct Hin as (x & _ & Hin).
    unfold pixelAt in Hin. cbn [bitmap] in Hin.
    destruct (inCanvas _ _ _); simpl in Hin; intuition congruence.
  - rewrite (length_flat_map_block _ (n := (Z.to_nat finalW * 4)%nat)).
    + rewrite length_range.
      replace (4 * finalW * finalH) with (finalH * (finalW * 4)) by ring.
      rewrite !Z2Nat.inj_mul by lia. reflexivity.
    + intro y. rewrite (length_flat_map_block _ (n := 4%nat)) by reflexivity.
      now rewrite length_range.
Qed.

(** With content in at least one cell the normalizer keeps every cell, and
    the two maxima are attained and dominate. *)
Lemma alignAndMaximizeFrames_content (frames : list Canvas) :
  (exists frame b, In frame frames /\ contentBox frame = Some b) ->
  exists maxW maxH,
    alignAndMaximizeFrames frames
    = map (fun frame => centerFrame (maxW + padding * 2) (maxH + padding * 2)
                                    frame (contentBox frame)) frames
    /\ (exists frame b, In frame frames /\ contentBox frame = Some b /\ box_w b = maxW)
    /\ (exists frame b, In frame frames /\ contentBox frame = Some b /\ box_h b = maxH)
    /\ (forall frame b, In frame frames -> contentBox frame = Some b ->
                        box_w b <= maxW /\ box_h b <= maxH)
    /\ (1 <= maxW /\ 1 <= maxH).
Proof.
  intros (frame0 & b0 & Hin0 & Hb0).
  rewrite alignAndMaximizeFrames_eq.
  pose proof (maxContent_fold (map contentBox frames) 0 0) as Hm.
  cbv zeta in Hm. fold (maxContent (map contentBox frames)) in Hm.
  destruct (maxContent (map contentBox frames)) as [maxW maxH]. simpl in Hm.
  destruct Hm as (_ & Hall & Hw & Hh).
  assert (Hsome : forall frame b, In frame frames -> contentBox frame = Some b ->
                                  In (Some b) (map contentBox frames)).
  { intros frame b Hin E. rewrite <- E. now apply in_map. }
  destruct (getContentBounds_positive _ _ _ Hb0) as [Pw Ph].
  destruct (Hall b0 (Hsome _ _ Hin0 Hb0)) as [Lw Lh].
  exists maxW, maxH.
  replace ((maxW =? 0) || (maxH =? 0)) with false
    by (symmetry; apply orb_false_iff; split; apply Z.eqb_neq; lia).
  split; [reflexivity|].
  assert (Hback : forall b, In (Some b) (map contentBox frames) ->
                            exists frame, In frame frames /\ contentBox frame = Some b).
  { intros b Hin. apply in_map_iff in Hin. destruct Hin as (frame & E & Hin). eauto. }
  split; [|split; [|split]].
  - destruct Hw as [Hw|(b & Hin & E)]; [lia|].
    destruct (Hback b Hin) as (frame & Hf & Eb). exists frame, b. auto.
  - destruct Hh as [Hh|(b & Hin & E)]; [lia|].
    destruct (Hback b Hin) as (frame & Hf & Eb). exists frame, b. auto.
  - intros frame b Hin E. apply Hall. eapply Hsome; eassumption.
  - lia.
Qed.

(** With no content in any cell the normalizer returns nothing. *)
Lemma alignAndMaximizeFrames_no_content (frames : list Canvas) :
  (forall frame, In frame frames -> contentBox frame = None) ->
  alignAndMaximizeFrames frames = [].
Proof.
  intro Hn. rewrite alignAndMaximizeFrames_eq.
  rewrite maxContent_none; [reflexivity|].
  intros b Hin. apply in_map_iff in Hin. destruct Hin as (frame & <- & Hin).
  now apply Hn.
Qed.

(** C4. When at least one cell has detected content, the normalizer emits
    one raster per cell and every one of them is [(maxW + 2*2)] wide and
    [(maxH + 2*2)] high, [maxW] and [maxH] being the largest detected content
    width and height over the cells that have content. *)
Theorem alignAndMaximizeFrames_uniform (frames : list Canvas) :
  (exists frame b, In frame frames /\ contentBox frame = Some b) ->
  exists maxW maxH,
    (exists frame b, In frame frames /\ contentBox frame = Some b /\ box_w b = maxW)
    /\ (exists frame b, In frame frames /\ contentBox frame = Some b /\ box_h b = maxH)
    /\ (forall frame b, In frame frames -> contentBox frame = Some b ->
                        box_w b <= maxW /\ box_h b <= maxH)
    /\ length (alignAndMaximizeFrames frames) = length frames
    /\ (forall out, In out (alignAndMaximizeFrames frames) ->
                    iwidth out = maxW + 2 * 2 /\ iheight out = maxH + 2 * 2).
Proof.
  intro Hc.
  destruct (alignAndMaximizeFrames_content frames Hc)
    as (maxW & maxH & -> & Hw & Hh & Hall & _).
  exists maxW, maxH.
  split; [exact Hw|]. split; [exact Hh|]. split; [exact Hall|].
  split; [apply length_map|].
  intros out Hin. apply in_map_iff in Hin. destruct Hin as (frame & <- & _).
  apply size_centerFrame.
Qed.

(** C6. When some cell has detected content, a cell without any is not
    dropped: the output is as long as the input, and at the cell's own
    index stands a fully transparent raster of the size every output raster
    has. *)
Theorem alignAndMaximizeFrames_keeps_empty (frames : list Canvas)
    (i : nat) (cell : Canvas) :
  (exists frame b, In frame frames /\ contentBox frame = Some b) ->
  nth_error frames i = Some cell ->
  contentBox cell = None ->
  length (alignAndMaximizeFrames frames) = length frames
  /\ exists out,
       nth_error (alignAndMaximizeFrames frames) i = Some out
       /\ Forall (fun v => v = 0) (data out)
       /\ length (data out) = Z.to_nat (4 * iwidth out * iheight out)
       /\ (forall other, In other (alignAndMaximizeFrames frames) ->
                         iwidth other = iwidth out /\ iheight other = iheight out).
Proof.
  intros Hc Hi Hn.
  destruct (alignAndMaximizeFrames_content frames Hc)
    as (maxW & maxH & -> & _ & _ & _ & Pw & Ph).
  split; [apply length_map|].
  exists (centerFrame (maxW + padding * 2) (maxH + padding * 2) cell None).
  assert (P1 : 0 <= maxW + padding * 2) by (unfold padding; lia).
  assert (P2 : 0 <= maxH + padding * 2) by (unfold padding; lia).
  split; [|split; [|split]].
  - rewrite nth_error_map, Hi. simpl. now rewrite Hn.
  - now apply centerFrame_blank.
  - now apply centerFrame_blank.
  - intros other Hin. apply in_map_iff in Hin. destruct Hin as (frame & <- & _).
    destruct (size_centerFrame (maxW + padding * 2) (maxH + padding * 2)
                               frame (contentBox frame)) as [-> ->].
    split; reflexivity.
Qed.

End Normalizer.

(** ** The grid partitioner *)

Lemma nth_error_row_major {A : Type} (g : Z -> Z -> A) (rows cols r c : Z) :
  0 <= r < rows -> 0 <= c < cols ->
  nth_error (flat_map (fun r => map (g r) (range cols)) (range rows))
            (Z.to_nat (r * cols + c))
  = Some (g r c).
Proof.
  intros Hr Hc.
  assert (Hlen : forall a, length (map (g a) (range cols)) = Z.to_nat cols)
    by (intro a; now rewrite length_map, length_range).
  replace (Z.to_nat (r * cols + c)) with (Z.to_nat r * Z.to_nat cols + Z.to_nat c)%nat
    by (rewrite Z2Nat.inj_add, Z2Nat.inj_mul by nia; reflexivity).
  rewrite (nth_error_nth' _ (g r c)).
  - f_equal.
    rewrite (nth_flat_map_block (fun r => map (g r) (range cols)) Hlen) with (a0 := 0).
    + rewrite nth_range by lia. rewrite Z2Nat.id by lia.
      rewrite nth_indep with (d' := g r 0) by (rewrite Hlen; lia).
      rewrite map_nth, nth_range by lia. now rewrite Z2Nat.id by lia.
    + rewrite length_range. lia.
    + lia.
  - rewrite (length_flat_map_block _ Hlen), length_range. nia.
Qed.

Section Slicing.
Context `{Platform}.

Lemma rawCanvases_eq (canvas : Canvas) (rows cols : Z) (removeBg : bool) :
  rawCanvases canvas rows cols removeBg
  = let area := gridArea canvas in
    let frameWidth := (inject_Z (box_w area) / inject_Z cols)%Q in
    let frameHeight := (inject_Z (box_h area) / inject_Z rows)%Q in
    flat_map (fun r =>
                map (extractCell canvas (box_x area) (box_y area)
                                 frameWidth frameHeight removeBg r)
                    (range cols))
             (range rows).
Proof.
  unfold rawCanvases. cbv zeta.
  erewrite fold_left_ext.
  - rewrite fold_left_append. reflexivity.
  - intros acc r _. cbv beta. apply fold_left_push.
Qed.

Lemma length_rawCanvases (canvas : Canvas) (rows cols : Z) (removeBg : bool) :
  0 <= rows -> 0 <= cols ->
  length (rawCanvases canvas rows cols removeBg) = Z.to_nat (rows * cols).
Proof.
  intros Hr Hc. rewrite rawCanvases_eq. cbv zeta.
  rewrite (length_flat_map_block _ (n := Z.to_nat cols))
    by (intro a; now rewrite length_map, length_range).
  rewrite length_range. now rewrite Z2Nat.inj_mul.
Qed.

Lemma In_rawCanvases (canvas : Canvas) (rows cols : Z) (removeBg : bool) (cell : Canvas) :
  In cell (rawCanvases canvas rows cols removeBg) ->
  exists r c,
    cell = extractCell canvas (box_x (gridArea canvas)) (box_y (gridArea canvas))
             (inject_Z (box_w (gridArea canvas)) / inject_Z cols)%Q
             (inject_Z (box_h (gridArea canvas)) / inject_Z rows)%Q
             removeBg r c.
Proof.
  rewrite rawCanvases_eq. cbv zeta. intro Hin.
  apply in_flat_map in Hin. destruct Hin as (r & _ & Hin).
  apply in_map_iff in Hin. destruct Hin as (c & E & _).
  exists r, c. now symmetry.
Qed.

Lemma size_extractCell (canvas : Canvas) (sourceX sourceY : Z)
    (frameWidth frameHeight : Q) (removeBg : bool) (r c : Z) :
  width (extractCell canvas sourceX sourceY frameWidth frameHeight removeBg r c)
  = Qceiling frameWidth
  /\ height (extractCell canvas sourceX sourceY frameWidth frameHeight removeBg r c)
     = Qceiling frameHeight.
Proof. unfold extractCell. destruct removeBg; split; reflexivity. Qed.

(** C3. For [rows, cols >= 1] the partitioner yields [rows * cols] cells in
    row-major order.  The grid area is the global content box, or the whole
    canvas when there is none; the cell of row [r] and column [c] is drawn
    from the source rectangle at [(area.x + c*cellW, area.y + r*cellH)] of
    size [cellW] x [cellH], with [cellW = area.w / cols] and
    [cellH = area.h / rows], onto a canvas of [ceil(cellW)] x [ceil(cellH)]
    pixels, and then sanitized. *)
Theorem rawCanvases_grid (canvas : Canvas) (rows cols : Z) (removeBg : bool) :
  1 <= rows -> 1 <= cols ->
  exists area,
    (forall b, contentBox canvas = Some b -> area = b)
    /\ (contentBox canvas = None ->
        area = {| box_x := 0; box_y := 0;
                  box_w := width canvas; box_h := height canvas |})
    /\ length (rawCanvases canvas rows cols removeBg) = Z.to_nat (rows * cols)
    /\ let cellW := (inject_Z (box_w area) / inject_Z cols)%Q in
       let cellH := (inject_Z (box_h area) / inject_Z rows)%Q in
       forall r c, 0 <= r < rows -> 0 <= c < cols ->
         exists cell,
           nth_error (rawCanvases canvas rows cols removeBg) (Z.to_nat (r * cols + c))
           = Some cell
           /\ cell = sanitizeCell
                       (drawImage (createCanvas (Qceiling cellW) (Qceiling cellH)) canvas
                          (inject_Z (box_x area) + inject_Z c * cellW)%Q
                          (inject_Z (box_y area) + inject_Z r * cellH)%Q
                          cellW cellH
                          0%Q 0%Q
                          (inject_Z (Qceiling cellW)) (inject_Z (Qceiling cellH)))
                       removeBg
           /\ width cell = Qceiling cellW /\ height cell = Qceiling cellH.
Proof.
  intros Hr Hc. exists (gridArea canvas).
  split; [|split; [|split]].
  - intros b E. unfold gridArea. unfold contentBox in E. now rewrite E.
  - intro E. unfold gridArea. unfold contentBox in E. now rewrite E.
  - apply length_rawCanvases; lia.
  - intros cellW cellH r c Hr' Hc'.
    eexists. split; [|split].
    + rewrite rawCanvases_eq. cbv zeta.
      apply (nth_error_row_major
               (extractCell canvas (box_x (gridArea canvas)) (box_y (gridArea canvas))
                            cellW cellH removeBg)); assumption.
    + reflexivity.
    + apply size_extractCell.
Qed.

(** ** The orchestrator *)

(** A cell no wider or no higher than twice the shave margin is wiped. *)
Lemma small_cell_empty (cell : Canvas) (removeBg : bool) :
  width cell <= 8 \/ height cell <= 8 ->
  contentBox (sanitizeCell cell removeBg) = None.
Proof.
  intro Hs. unfold contentBox.
  destruct (size_sanitizeCell cell removeBg) as [-> ->].
  apply getContentBounds_None. intros x y Hx Hy.
  rewrite pixelAt_sanitizeCell by assumption. cbv zeta.
  replace (inMargin (width cell) (height cell) x y) with true.
  - now destruct removeBg.
  - symmetry. unfold inMargin, safetyShave.
    rewrite !orb_true_iff, !Z.leb_le, !Z.ltb_lt. lia.
Qed.

(** C1, as the code has it.  For [rows, cols >= 1]: a source that fails to
    decode resolves to the empty sequence; a decoded source resolves to one
    frame per grid cell, in cell order and all of one size, when some
    sanitized cell has detected content, and to the empty sequence when none
    has. *)
Theorem sliceSpriteSheet_length (spriteSheetBase64 : string) (rows cols : Z)
    (removeBg : bool) :
  1 <= rows -> 1 <= cols ->
  (decodeImage spriteSheetBase64 = None ->
   sliceSpriteSheet spriteSheetBase64 rows cols removeBg = Fulfilled [])
  /\ (forall img, decodeImage spriteSheetBase64 = Some img ->
        let cells := rawCanvases (sourceCanvas img) rows cols removeBg in
        ((exists cell b, In cell cells /\ contentBox cell = Some b) ->
         exists frames maxW maxH,
           sliceSpriteSheet spriteSheetBase64 rows cols removeBg = Fulfilled frames
           /\ length frames = Z.to_nat (rows * cols)
           /\ frames = map (fun cell => centerFrame (maxW + 2 * 2) (maxH + 2 * 2)
                                                    cell (contentBox cell)) cells)
        /\ ((forall cell, In cell cells -> contentBox cell = None) ->
            sliceSpriteSheet spriteSheetBase64 rows cols removeBg = Fulfilled [])).
Proof.
  intros Hr Hc. unfold sliceSpriteSheet. split.
  - now intros ->.
  - intros img ->. cbv zeta. unfold performFixedGridSlicing. split.
    + intro Hex.
      destruct (alignAndMaximizeFrames_content _ Hex) as (maxW & maxH & -> & _).
      eexists. exists maxW, maxH.
      split; [reflexivity|]. split; [|reflexivity].
      rewrite length_map. apply length_rawCanvases; lia.
    + intro Hn. f_equal. now apply alignAndMaximizeFrames_no_content.
Qed.

(** C5. The promise is never rejected: it is fulfilled with a list, the
    empty one when the source fails to decode, and the empty one again when
    the source decodes but no sanitized cell holds a foreground pixel (both
    maxima of the normalizer are then 0). *)
Theorem sliceSpriteSheet_empty (spriteSheetBase64 : string) (rows cols : Z)
    (removeBg : bool) :
  (exists frames,
      sliceSpriteSheet spriteSheetBase64 rows cols removeBg = Fulfilled frames)
  /\ (decodeImage spriteSheetBase64 = None ->
      sliceSpriteSheet spriteSheetBase64 rows cols removeBg = Fulfilled [])
  /\ (forall img, decodeImage spriteSheetBase64 = Some img ->
        (forall cell x y,
            In cell (rawCanvases (sourceCanvas img) rows cols removeBg) ->
            ~ foregroundAt cell x y) ->
        maxContent (map contentBox (rawCanvases (sourceCanvas img) rows cols removeBg))
        = (0, 0)
        /\ sliceSpriteSheet spriteSheetBase64 rows cols removeBg = Fulfilled []).
Proof.
  unfold sliceSpriteSheet. split; [|split].
  - destruct (decodeImage spriteSheetBase64); eexists; reflexivity.
  - now intros ->.
  - intros img -> Hn.
    assert (Hc : forall cell,
               In cell (rawCanvases (sourceCanvas img) rows cols removeBg) ->
               contentBox cell = None).
    { intros cell Hin. apply contentBox_None. intros x y. now apply Hn. }
    split.
    + apply maxContent_none. intros b Hin.
      apply in_map_iff in Hin. destruct Hin as (cell & <- & Hin). now apply Hc.
    + cbv zeta. unfold performFixedGridSlicing. f_equal.
      now apply alignAndMaximizeFrames_no_content.
Qed.

(** C10. When the cells come out no wider than 8 px or no higher than 8 px
    (twice the 4 px shave), the shave clears every pixel of every cell and
    the promise resolves with the empty list, whatever the image holds. *)
Theorem sliceSpriteSheet_small_cells (spriteSheetBase64 : string) (img : Canvas)
    (rows cols : Z) (removeBg : bool) :
  decodeImage spriteSheetBase64 = Some img ->
  1 <= rows -> 1 <= cols ->
  (Qceiling (inject_Z (box_w (gridArea (sourceCanvas img))) / inject_Z cols) <= 8
   \/ Qceiling (inject_Z (box_h (gridArea (sourceCanvas img))) / inject_Z rows) <= 8) ->
  (forall cell x y,
      In cell (rawCanvases (sourceCanvas img) rows cols removeBg) ->
      0 <= x < width cell -> 0 <= y < height cell ->
      pixelAt cell x y = transparent)
  /\ sliceSpriteSheet spriteSheetBase64 rows cols removeBg = Fulfilled [].
Proof.
  intros Hd Hr Hc Hs. split.
  - intros cell x y Hin Hx Hy.
    apply In_rawCanvases in Hin. destruct Hin as (r & c & ->).
    rewrite (proj1 (size_extractCell _ _ _ _ _ _ _ _)) in Hx.
    rewrite (proj2 (size_extractCell _ _ _ _ _ _ _ _)) in Hy.
    unfold extractCell. cbv zeta.
    rewrite pixelAt_sanitizeCell
      by (cbn [width height drawImage createCanvas]; assumption).
    cbv zeta. cbn [width height drawImage createCanvas].
    replace (inMargin _ _ x y) with true.
    + now destruct removeBg.
    + symmetry. unfold inMargin, safetyShave.
      rewrite !orb_true_iff, !Z.leb_le, !Z.ltb_lt. lia.
  - unfold sliceSpriteSheet. rewrite Hd. cbv zeta. unfold performFixedGridSlicing.
    f_equal. apply alignAndMaximizeFrames_no_content. intros cell Hin.
    apply In_rawCanvases in Hin. destruct Hin as (r & c & ->).
    unfold extractCell. cbv zeta. apply small_cell_empty.
    cbn [width height drawImage createCanvas]. exact Hs.
Qed.

End Slicing.

(** * The pipeline on the reference platform *)

Example twoSprites_bounds :
  contentBox twoSprites = Some {| box_x := 4; box_y := 6; box_w := 46; box_h := 16 |}.
Proof. vm_compute. reflexivity. Qed.

Example twoSprites_cells :
  map (fun c => (width c, height c, contentBox c))
      (@rawCanvases samplePlatform twoSprites 1 2 false)
  = [(23, 16, Some {| box_x := 4; box_y := 4; box_w := 10; box_h := 8 |});
     (23, 16, Some {| box_x := 13; box_y := 4; box_w := 6; box_h := 8 |})].
Proof. vm_compute. reflexivity. Qed.

Example twoSprites_frames :
  sizes (framesOf (@sliceSpriteSheet samplePlatform "two" 1 2 true))
  = [(14, 12); (14, 12)].
Proof. vm_compute. reflexivity. Qed.

Example threeSlots_frames :
  map (fun d => (iwidth d, iheight d, blank d))
      (framesOf (@sliceSpriteSheet samplePlatform "three" 1 3 true))
  = [(14, 12, false); (14, 12, true); (14, 12, false)].
Proof. vm_compute. reflexivity. Qed.

Example undecodable_frames :
  @sliceSpriteSheet samplePlatform "nope" 2 3 true = Fulfilled [].
Proof. reflexivity. Qed.

(** C1 fails as stated: the all-white 24 x 24 sheet decodes, the grid is
    2 x 2, and yet the promise is fulfilled with no frame at all, not 4. *)
Lemma sliceSpriteSheet_length_counterexample :
  @decodeImage samplePlatform "white" = Some whiteSheet
  /\ 1 <= 2 /\ 1 <= 2
  /\ @sliceSpriteSheet samplePlatform "white" 2 2 true = Fulfilled []
  /\ ~ (exists frames,
           @sliceSpriteSheet samplePlatform "white" 2 2 true = Fulfilled frames
           /\ length frames = Z.to_nat (2 * 2)).
Proof.
  assert (E : @sliceSpriteSheet samplePlatform "white" 2 2 true = Fulfilled [])
    by (vm_compute; reflexivity).
  split; [reflexivity|]. split; [lia|]. split; [lia|]. split; [exact E|].
  intros (frames & Ef & Hl). rewrite E in Ef. inversion Ef; subst frames.
  simpl in Hl. discriminate.
Qed.

Lemma sliceSpriteSheet_length_witness :
  (1 <= 1 /\ 1 <= 2)
  /\ ((@decodeImage samplePlatform "two" = None ->
       @sliceSpriteSheet samplePlatform "two" 1 2 true = Fulfilled [])
      /\ (forall img, @decodeImage samplePlatform "two" = Some img ->
            let cells := @rawCanvases samplePlatform (@sourceCanvas samplePlatform img) 1 2 true in
            ((exists cell b, In cell cells /\ contentBox cell = Some b) ->
             exists frames maxW maxH,
               @sliceSpriteSheet samplePlatform "two" 1 2 true = Fulfilled frames
               /\ length frames = Z.to_nat (1 * 2)
               /\ frames = map (fun cell => @centerFrame samplePlatform
                                              (maxW + 2 * 2) (maxH + 2 * 2)
                                              cell (contentBox cell)) cells)
            /\ ((forall cell, In cell cells -> contentBox cell = None) ->
                @sliceSpriteSheet samplePlatform "two" 1 2 true = Fulfilled []))).
Proof.
  split; [lia|].
  apply (@sliceSpriteSheet_length samplePlatform "two" 1 2 true); lia.
Defined.

Lemma rawCanvases_grid_witness :
  (1 <= 1 /\ 1 <= 3)
  /\ exists area,
       (forall b, contentBox threeSlots = Some b -> area = b)
       /\ (contentBox threeSlots = None ->
           area = {| box_x := 0; box_y := 0;
                     box_w := width threeSlots; box_h := height threeSlots |})
       /\ length (@rawCanvases samplePlatform threeSlots 1 3 true) = Z.to_nat (1 * 3)
       /\ let cellW := (inject_Z (box_w area) / inject_Z 3)%Q in
          let cellH := (inject_Z (box_h area) / inject_Z 1)%Q in
          forall r c, 0 <= r < 1 -> 0 <= c < 3 ->
            exists cell,
              nth_error (@rawCanvases samplePlatform threeSlots 1 3 true)
                        (Z.to_nat (r * 3 + c)) = Some cell
              /\ cell = sanitizeCell
                          (@drawImage samplePlatform
                             (createCanvas (Qceiling cellW) (Qceiling cellH)) threeSlots
                             (inject_Z (box_x area) + inject_Z c * cellW)%Q
                             (inject_Z (box_y area) + inject_Z r * cellH)%Q
                             cellW cellH 0%Q 0%Q
                             (inject_Z (Qceiling cellW)) (inject_Z (Qceiling cellH)))
                          true
              /\ width cell = Qceiling cellW /\ height cell = Qceiling cellH.
Proof.
  split; [lia|].
  apply (@rawCanvases_grid samplePlatform threeSlots 1 3 true); lia.
Defined.

Lemma alignAndMaximizeFrames_uniform_witness :
  (exists frame b, In frame [twoSprites; whiteSheet] /\ contentBox frame = Some b)
  /\ exists maxW maxH,
       (exists frame b, In frame [twoSprites; whiteSheet]
                        /\ contentBox frame = Some b /\ box_w b = maxW)
       /\ (exists frame b, In frame [twoSprites; whiteSheet]
                           /\ contentBox frame = Some b /\ box_h b = maxH)
       /\ (forall frame b, In frame [twoSprites; whiteSheet] ->
                           contentBox frame = Some b ->
                           box_w b <= maxW /\ box_h b <= maxH)
       /\ length (@alignAndMaximizeFrames samplePlatform [twoSprites; whiteSheet])
          = length [twoSprites; whiteSheet]
       /\ (forall out,
              In out (@alignAndMaximizeFrames samplePlatform [twoSprites; whiteSheet]) ->
              iwidth out = maxW + 2 * 2 /\ iheight out = maxH + 2 * 2).
Proof.
  assert (Hc : exists frame b,
             In frame [twoSprites; whiteSheet] /\ contentBox frame = Some b).
  { exists twoSprites, {| box_x := 4; box_y := 6; box_w := 46; box_h := 16 |}.
    split; [now left|vm_compute; reflexivity]. }
  split; [exact Hc|].
  exact (@alignAndMaximizeFrames_uniform samplePlatform [twoSprites; whiteSheet] Hc).
Defined.

Lemma alignAndMaximizeFrames_keeps_empty_witness :
  ((exists frame b, In frame [twoSprites; whiteSheet] /\ contentBox frame = Some b)
   /\ nth_error [twoSprites; whiteSheet] 1 = Some whiteSheet
   /\ contentBox whiteSheet = None)
  /\ length (@alignAndMaximizeFrames samplePlatform [twoSprites; whiteSheet])
     = length [twoSprites; whiteSheet]
  /\ exists out,
       nth_error (@alignAndMaximizeFrames samplePlatform [twoSprites; whiteSheet]) 1
       = Some out
       /\ Forall (fun v => v = 0) (data out)
       /\ length (data out) = Z.to_nat (4 * iwidth out * iheight out)
       /\ (forall other,
              In other (@alignAndMaximizeFrames samplePlatform [twoSprites; whiteSheet]) ->
              iwidth other = iwidth out /\ iheight other = iheight out).
Proof.
  assert (Hc : exists frame b,
             In frame [twoSprites; whiteSheet] /\ contentBox frame = Some b).
  { exists twoSprites, {| box_x := 4; box_y := 6; box_w := 46; box_h := 16 |}.
    split; [now left|vm_compute; reflexivity]. }
  assert (Hn : contentBox whiteSheet = None) by (vm_compute; reflexivity).
  split; [split; [exact Hc|split; [reflexivity|exact Hn]]|].
  exact (@alignAndMaximizeFrames_keeps_empty samplePlatform
           [twoSprites; whiteSheet] 1%nat whiteSheet Hc eq_refl Hn).
Defined.

Lemma sanitizeCell_spec_witness :
  (0 <= 10 < width twoSprites /\ 0 <= 10 < height twoSprites)
  /\ let p := pixelAt twoSprites 10 10 in
     let q := pixelAt (sanitizeCell twoSprites true) 10 10 in
     (width (sanitizeCell twoSprites true) = width twoSprites
      /\ height (sanitizeCell twoSprites true) = height twoSprites)
     /\ (10 < 4 \/ 10 < 4 \/ width twoSprites - 4 <= 10 \/ height twoSprites - 4 <= 10
         -> alpha q = 0)
     /\ (true = true -> 230 < red q /\ 230 < green q /\ 230 < blue q -> alpha q = 0)
     /\ (true = true -> 230 < red p /\ 230 < green p /\ 230 < blue p -> alpha q = 0)
     /\ (~ (10 < 4 \/ 10 < 4 \/ width twoSprites - 4 <= 10 \/ height twoSprites - 4 <= 10) ->
         (true = true -> ~ (230 < red p /\ 230 < green p /\ 230 < blue p)) ->
         q = p).
Proof.
  split; [simpl; lia|].
  apply (sanitizeCell_spec twoSprites true (x := 10) (y := 10)); simpl; lia.
Defined.

Lemma removeBackground_frame_witness :
  (0 <= 25 < width twoSprites /\ 0 <= 10 < height twoSprites)
  /\ let imageData := getImageData twoSprites 0 0 (width twoSprites) (height twoSprites) in
     let keyed := {| iwidth := iwidth imageData; iheight := iheight imageData;
                     data := keyOutWhite 230 (data imageData) |} in
     let before := pixelAt twoSprites 25 10 in
     let written := imagePixel keyed 25 10 in
     let after := pixelAt (removeBackground twoSprites) 25 10 in
     (forall d i, i mod 4 <> 3 -> (keyOutWhite 230 d).[i] = d.[i])
     /\ imagePixel imageData 25 10 = before
     /\ (red written = red before /\ green written = green before
         /\ blue written = blue before)
     /\ (alpha written <> alpha before ->
         alpha written = 0 /\ 230 < red before /\ 230 < green before /\ 230 < blue before)
     /\ (230 < red before /\ 230 < green before /\ 230 < blue before -> alpha written = 0)
     /\ (width (removeBackground twoSprites) = width twoSprites
         /\ height (removeBackground twoSprites) = height twoSprites)
     /\ alpha after = alpha written
     /\ (~ (230 < red before /\ 230 < green before /\ 230 < blue before) -> after = before)
     /\ (230 < red before /\ 230 < green before /\ 230 < blue before -> after = transparent).
Proof.
  split; [simpl; lia|].
  apply (removeBackground_frame twoSprites (x := 25) (y := 10)); simpl; lia.
Defined.

(** C9 fails as stated for the pixels of the cell canvas: the white pixel
    at (25, 10) of the 60 x 30 sheet, well inside the shaved border, is read
    as (255, 255, 255, 255) before the pass and as (0, 0, 0, 0) after it, so
    its red, green and blue have not kept their values; the same holds when
    the pass runs as part of the sanitizer. *)
Lemma removeBackground_rgb_counterexample :
  (0 <= 25 < width twoSprites /\ 0 <= 10 < height twoSprites)
  /\ pixelAt twoSprites 25 10 = mkPixel 255 255 255 255
  /\ pixelAt (removeBackground twoSprites) 25 10 = mkPixel 0 0 0 0
  /\ ~ (red (pixelAt (removeBackground twoSprites) 25 10)
        = red (pixelAt twoSprites 25 10)
        /\ green (pixelAt (removeBackground twoSprites) 25 10)
           = green (pixelAt twoSprites 25 10)
        /\ blue (pixelAt (removeBackground twoSprites) 25 10)
           = blue (pixelAt twoSprites 25 10))
  /\ pixelAt (sanitizeCell twoSprites false) 25 10 = mkPixel 255 255 255 255
  /\ pixelAt (sanitizeCell twoSprites true) 25 10 = mkPixel 0 0 0 0.
Proof.
  assert (Hb : pixelAt twoSprites 25 10 = mkPixel 255 255 255 255) by reflexivity.
  assert (Ha : pixelAt (removeBackground twoSprites) 25 10 = mkPixel 0 0 0 0).
  { rewrite pixelAt_removeBackground by (simpl; lia). rewrite Hb. reflexivity. }
  split; [simpl; lia|]. split; [exact Hb|]. split; [exact Ha|]. split.
  - rewrite Ha, Hb. simpl. intros [H _]. discriminate H.
  - split.
    + rewrite pixelAt_sanitizeCell by (simpl; lia). rewrite Hb. reflexivity.
    + rewrite pixelAt_sanitizeCell by (simpl; lia). rewrite Hb. reflexivity.
Qed.

Lemma sliceSpriteSheet_small_cells_witness :
  (@decodeImage samplePlatform "tiny" = Some tinySheet
   /\ 1 <= 1 /\ 1 <= 1
   /\ (Qceiling (inject_Z (box_w (gridArea (@sourceCanvas samplePlatform tinySheet)))
                 / inject_Z 1) <= 8
       \/ Qceiling (inject_Z (box_h (gridArea (@sourceCanvas samplePlatform tinySheet)))
                    / inject_Z 1) <= 8))
  /\ (exists x y, foregroundAt tinySheet x y)
  /\ (forall cell x y,
         In cell (@rawCanvases samplePlatform (@sourceCanvas samplePlatform tinySheet)
                               1 1 false) ->
         0 <= x < width cell -> 0 <= y < height cell ->
         pixelAt cell x y = transparent)
  /\ @sliceSpriteSheet samplePlatform "tiny" 1 1 false = Fulfilled [].
Proof.
  assert (Hs : Qceiling (inject_Z (box_w (gridArea (@sourceCanvas samplePlatform tinySheet)))
                         / inject_Z 1) <= 8).
  { apply Z.leb_le. vm_compute. reflexivity. }
  split; [split; [reflexivity|split; [lia|split; [lia|now left]]]|].
  split.
  { exists 0, 0. split; [simpl; lia|reflexivity]. }
  apply (@sliceSpriteSheet_small_cells samplePlatform "tiny" tinySheet 1 1 false);
    [reflexivity|lia|lia|now left].
Defined.

(** * Further properties of the current pipeline *)

(** X1. The content box lies inside the canvas and is never empty. *)
Theorem getContentBounds_inside (c : Canvas) (b : Bounds) :
  getContentBounds c (width c) (height c) = Some b ->
  0 <= box_x b /\ 0 <= box_y b /\ 1 <= box_w b /\ 1 <= box_h b
  /\ box_x b + box_w b <= width c /\ box_y b + box_h b <= height c.
Proof.
  intro E. apply getContentBounds_Some in E.
  destruct E as (x0 & y0 & x1 & y1 & -> & Hall
                 & (ya & Ha & Fa) & (yb & Hb & Fb)
                 & (xc & Hc & Fc) & (xd & Hd & Fd)).
  assert (H1 := Hall x1 yb (conj Hb Fb)).
  assert (H2 := Hall xd y1 (conj Hd Fd)).
  simpl. lia.
Qed.

Lemma getContentBounds_inside_witness :
  getContentBounds twoSprites (width twoSprites) (height twoSprites)
  = Some {| box_x := 4; box_y := 6; box_w := 46; box_h := 16 |}
  /\ (0 <= 4 /\ 0 <= 6 /\ 1 <= 46 /\ 1 <= 16
      /\ 4 + 46 <= width twoSprites /\ 6 + 16 <= height twoSprites).
Proof.
  assert (E : getContentBounds twoSprites (width twoSprites) (height twoSprites)
              = Some {| box_x := 4; box_y := 6; box_w := 46; box_h := 16 |})
    by (vm_compute; reflexivity).
  split; [exact E|].
  exact (getContentBounds_inside twoSprites E).
Defined.

Lemma keyOutPixel_twice (t : Z) (p : Pixel) :
  keyOutPixel t (keyOutPixel t p) = keyOutPixel t p.
Proof.
  unfold keyOutPixel, nearWhite; simpl. now destruct (_ && _).
Qed.

Lemma keyOut_premultiplied_twice (p : Pixel) :
  premultiplied (keyOutPixel 230 (premultiplied (keyOutPixel 230 p)))
  = premultiplied (keyOutPixel 230 p).
Proof.
  destruct (Z.eqb_spec (alpha (keyOutPixel 230 p)) 0) as [E|E].
  - assert (H : premultiplied (keyOutPixel 230 p) = transparent).
    { unfold premultiplied. apply Z.eqb_eq in E. now rewrite E. }
    rewrite H. reflexivity.
  - rewrite (premultiplied_visible _ E), keyOutPixel_twice.
    now apply premultiplied_visible.
Qed.

(** The colour under alpha 0 plays no part in what the pass leaves as
    foreground. *)
Lemma isForeground_keyOut_premultiplied (p : Pixel) :
  isForeground (keyOutPixel 230 (premultiplied p)) = isForeground (keyOutPixel 230 p).
Proof.
  unfold premultiplied. destruct (Z.eqb_spec (alpha p) 0) as [E|E]; [|reflexivity].
  unfold keyOutPixel, isForeground; simpl. rewrite E.
  now destruct (nearWhite 230 p).
Qed.

Lemma pixelAt_outside (c : Canvas) (x y : Z) :
  ~ (0 <= x < width c /\ 0 <= y < height c) -> pixelAt c x y = transparent.
Proof.
  intro Hn. unfold pixelAt, inCanvas.
  destruct ((0 <=? x) && (x <? width c) && (0 <=? y) && (y <? height c)) eqn:E;
    [|reflexivity].
  rewrite !andb_true_iff, !Z.leb_le, !Z.ltb_lt in E. exfalso. apply Hn. lia.
Qed.

(** X2. With background removal switched on the sanitizer is idempotent as
    well: a second run leaves the size, every pixel and the encoded raster
    as the first run made them. *)
Theorem sanitizeCell_removeBg_idempotent (cell : Canvas) :
  let once := sanitizeCell cell true in
  let twice := sanitizeCell once true in
  width twice = width once /\ height twice = height once
  /\ (forall x y, pixelAt twice x y = pixelAt once x y)
  /\ toDataURL twice = toDataURL once.
Proof.
  intros once twice.
  assert (Hp : forall x y, pixelAt twice x y = pixelAt once x y).
  { intros x y.
    destruct (Z_le_dec 0 x), (Z_lt_dec x (width cell)),
             (Z_le_dec 0 y), (Z_lt_dec y (height cell));
      try (rewrite !pixelAt_outside; [reflexivity| |];
           unfold twice, once; simpl; lia).
    unfold twice. rewrite pixelAt_sanitizeCell by (unfold once; simpl; lia).
    cbv zeta. change (width once) with (width cell).
    change (height once) with (height cell).
    unfold once. rewrite pixelAt_sanitizeCell by lia. cbv zeta.
    destruct (inMargin (width cell) (height cell) x y).
    - reflexivity.
    - apply keyOut_premultiplied_twice. }
  split; [reflexivity|]. split; [reflexivity|]. split; [exact Hp|].
  unfold toDataURL.
  change (width twice) with (width once). change (height twice) with (height once).
  now apply getImageData_ext.
Qed.

(** X3. Background removal never creates foreground, and it loses exactly the
    foreground pixels whose red, green and blue all exceed 230 (the light
    greys between the two thresholds 230 and 240). *)
Theorem removeBackground_foreground (cell : Canvas) (x y : Z) :
  foregroundAt (removeBackground cell) x y
  <-> foregroundAt cell x y
      /\ ~ (230 < red (bitmap cell x y) /\ 230 < green (bitmap cell x y)
            /\ 230 < blue (bitmap cell x y)).
Proof.
  unfold foregroundAt.
  change (width (removeBackground cell)) with (width cell).
  change (height (removeBackground cell)) with (height cell).
  assert (Hw : forall r, nearWhite 230 r = true
                         <-> (230 < red r /\ 230 < green r /\ 230 < blue r)).
  { intro r. unfold nearWhite. rewrite !andb_true_iff, !Z.gtb_gt. lia. }
  split.
  - intros [[Hx Hy] Hf].
    rewrite <- isForeground_premultiplied in Hf.
    rewrite <- (pixelAt_inside (removeBackground cell)) in Hf by assumption.
    rewrite pixelAt_removeBackground, isForeground_premultiplied in Hf by assumption.
    rewrite pixelAt_inside, isForeground_keyOut_premultiplied in Hf by assumption.
    unfold keyOutPixel, isForeground in Hf. simpl in Hf.
    destruct (nearWhite 230 (bitmap cell x y)) eqn:Ew; [discriminate|].
    split; [split; [auto|exact Hf]|].
    intro Hk. apply Hw in Hk. congruence.
  - intros [[[Hx Hy] Hf] Hk]. split; [auto|].
    rewrite <- isForeground_premultiplied.
    rewrite <- (pixelAt_inside (removeBackground cell)) by assumption.
    rewrite pixelAt_removeBackground, isForeground_premultiplied by assumption.
    rewrite pixelAt_inside, isForeground_keyOut_premultiplied by assumption.
    unfold keyOutPixel, isForeground. simpl.
    destruct (nearWhite 230 (bitmap cell x y)) eqn:Ew; [|exact Hf].
    exfalso. apply Hk. now apply Hw.
Qed.

Lemma content_interior (cell : Canvas) (removeBg : bool) (b : Bounds) :
  contentBox (sanitizeCell cell removeBg) = Some b ->
  4 <= box_x b /\ 4 <= box_y b
  /\ box_x b + box_w b <= width cell - 4
  /\ box_y b + box_h b <= height cell - 4.
Proof.
  intro E. unfold contentBox in E.
  destruct (size_sanitizeCell cell removeBg) as [Ew Eh]. rewrite Ew, Eh in E.
  apply getContentBounds_Some in E.
  assert (Hin : forall x y,
             (0 <= x < width cell /\ 0 <= y < height cell)
             /\ isForeground (pixelAt (sanitizeCell cell removeBg) x y) = true ->
             4 <= x < width cell - 4 /\ 4 <= y < height cell - 4).
  { intros x y [[Hx Hy] Hf].
    rewrite pixelAt_sanitizeCell in Hf by assumption. cbv zeta in Hf.
    destruct (inMargin (width cell) (height cell) x y) eqn:Em.
    - destruct removeBg; discriminate.
    - unfold inMargin, safetyShave in Em.
      rewrite !orb_false_iff, !Z.leb_gt, !Z.ltb_ge in Em. lia. }
  destruct E as (x0 & y0 & x1 & y1 & -> & _
                 & (ya & Ha) & (yb & Hb) & (xc & Hc) & (xd & Hd)).
  apply Hin in Ha, Hb, Hc, Hd. simpl. lia.
Qed.

(** X4. Whatever the sanitizer leaves as content lies at least 4 px away from
    every border of the cell. *)
Theorem sanitizeCell_content_interior (cell : Canvas) (removeBg : bool) (b : Bounds) :
  contentBox (sanitizeCell cell removeBg) = Some b ->
  4 <= box_x b /\ 4 <= box_y b
  /\ box_x b + box_w b <= width cell - 4
  /\ box_y b + box_h b <= height cell - 4.
Proof. apply content_interior. Qed.

Lemma sanitizeCell_content_interior_witness :
  contentBox (sanitizeCell twoSprites false)
  = Some {| box_x := 4; box_y := 6; box_w := 46; box_h := 16 |}
  /\ (4 <= 4 /\ 4 <= 6 /\ 4 + 46 <= width twoSprites - 4
      /\ 6 + 16 <= height twoSprites - 4).
Proof.
  assert (E : contentBox (sanitizeCell twoSprites false)
              = Some {| box_x := 4; box_y := 6; box_w := 46; box_h := 16 |})
    by (vm_compute; reflexivity).
  split; [exact E|].
  exact (sanitizeCell_content_interior twoSprites false E).
Defined.

(** [Math.ceil] of a quotient of integers, in integers. *)
Lemma Qceiling_div (a b : Z) :
  0 < b -> Qceiling (inject_Z a / inject_Z b) = - ((- a) / b).
Proof.
  intro Hb. destruct b as [|p|p]; try lia.
  unfold Qceiling, Qfloor, Qdiv, Qmult, Qinv, Qopp, inject_Z. simpl.
  now rewrite Z.mul_1_r.
Qed.

Lemma Qceiling_div_bounds (a b : Z) :
  0 < b ->
  a <= b * Qceiling (inject_Z a / inject_Z b) < a + b.
Proof.
  intro Hb. rewrite Qceiling_div by assumption.
  pose proof (Z.div_mod (- a) b ltac:(lia)).
  pose proof (Z.mod_pos_bound (- a) b Hb). nia.
Qed.

Section SlicingMore.
Context `{Platform}.

(** X5. The cells of one row cover the grid area and overshoot it by less than
    one pixel per cell; likewise the cells of one column. *)
Theorem rawCanvases_cover (canvas : Canvas) (rows cols : Z) (removeBg : bool)
    (cell : Canvas) :
  1 <= rows -> 1 <= cols ->
  In cell (rawCanvases canvas rows cols removeBg) ->
  box_w (gridArea canvas) <= cols * width cell < box_w (gridArea canvas) + cols
  /\ box_h (gridArea canvas) <= rows * height cell < box_h (gridArea canvas) + rows.
Proof.
  intros Hr Hc Hin.
  apply In_rawCanvases in Hin. destruct Hin as (r & c & ->).
  rewrite (proj1 (size_extractCell _ _ _ _ _ _ _ _)).
  rewrite (proj2 (size_extractCell _ _ _ _ _ _ _ _)).
  split; apply Qceiling_div_bounds; lia.
Qed.

Lemma content_or_none (cells : list Canvas) :
  (exists frame b, In frame cells /\ contentBox frame = Some b)
  \/ (forall frame, In frame cells -> contentBox frame = None).
Proof.
  induction cells as [|c l IH].
  - right. intros frame [].
  - destruct (contentBox c) as [b|] eqn:Eb.
    + left. exists c, b. split; [now left|assumption].
    + destruct IH as [(frame & b & Hin & Eb')|Hn].
      * left. exists frame, b. split; [now right|assumption].
      * right. intros frame [<-|Hin]; [assumption|now apply Hn].
Qed.

(** X6. Every frame the current [sliceSpriteSheet] delivers is at least 5 px and
    at most the cell size minus 4 px in each direction. *)
Theorem sliceSpriteSheet_frame_size (spriteSheetBase64 : string) (img : Canvas)
    (rows cols : Z) (removeBg : bool) (frames : list ImageData) :
  1 <= rows -> 1 <= cols ->
  decodeImage spriteSheetBase64 = Some img ->
  sliceSpriteSheet spriteSheetBase64 rows cols removeBg = Fulfilled frames ->
  let area := gridArea (sourceCanvas img) in
  let cellW := Qceiling (inject_Z (box_w area) / inject_Z cols) in
  let cellH := Qceiling (inject_Z (box_h area) / inject_Z rows) in
  forall out, In out frames ->
    5 <= iwidth out <= cellW - 4 /\ 5 <= iheight out <= cellH - 4.
Proof.
  intros Hr Hc Hd E area cellW cellH.
  unfold sliceSpriteSheet in E. rewrite Hd in E. cbv zeta in E.
  inversion E as [E']; clear E. unfold performFixedGridSlicing.
  destruct (content_or_none (rawCanvases (sourceCanvas img) rows cols removeBg))
    as [Hex|Hn].
  - destruct (alignAndMaximizeFrames_content _ Hex)
      as (maxW & maxH & -> & (fw & bw & Hfw & Ebw & Emw)
          & (fh & bh & Hfh & Ebh & Emh) & _ & Pw & Ph).
    intros out Hin. apply in_map_iff in Hin. destruct Hin as (frame & <- & _).
    destruct (size_centerFrame (maxW + padding * 2) (maxH + padding * 2)
                               frame (contentBox frame)) as [-> ->].
    apply In_rawCanvases in Hfw, Hfh.
    destruct Hfw as (r1 & c1 & ->). destruct Hfh as (r2 & c2 & ->).
    unfold extractCell in Ebw, Ebh. cbv zeta in Ebw, Ebh.
    apply content_interior in Ebw. apply content_interior in Ebh.
    cbn [width height drawImage createCanvas] in Ebw, Ebh.
    fold area in Ebw, Ebh. fold cellW in Ebw, Ebh. fold cellH in Ebw, Ebh.
    unfold padding. lia.
  - rewrite (alignAndMaximizeFrames_no_content _ Hn). intros out [].
Qed.

End SlicingMore.

(** * The earlier slicer *)

(** ** Projection scans *)

Lemma range_succ (n : nat) :
  range (Z.of_nat (S n)) = range (Z.of_nat n) ++ [Z.of_nat n].
Proof.
  unfold range. rewrite !Nat2Z.id. now rewrite seq_S, map_app.
Qed.

Lemma StronglySorted_snoc {A : Type} (R : A -> A -> Prop) (l : list A) (a : A) :
  StronglySorted R l -> Forall (fun b => R b a) l -> StronglySorted R (l ++ [a]).
Proof.
  induction 1 as [|b l Hs IH Hb]; intro Hf; simpl.
  - constructor; constructor.
  - inversion Hf; subst. constructor.
    + now apply IH.
    + apply Forall_app. split; [assumption|]. now constructor.
Qed.

Section Projection.
Variable isEmpty : Z -> bool.
Variable limit : Z.

Lemma ProfileInv_step (k : Z) (s : Legacy.Profile) :
  0 <= k < limit ->
  ProfileInv isEmpty limit k s ->
  ProfileInv isEmpty limit (k + 1) (Legacy.scanLine isEmpty limit s k).
Proof.
  intros Hk (Hsegs & Hsorted & Hin & Hout).
  assert (Hmono : Forall (fun g => band isEmpty limit g /\ Legacy.seg_end g < k + 1)
                         (Legacy.segments s)).
  { eapply Forall_impl; [|exact Hsegs]. intros g [Hb He]. split; [assumption|lia]. }
  unfold Legacy.scanLine. cbv zeta.
  destruct (Legacy.inside s) eqn:Ei; simpl.
  - destruct (Hin eq_refl) as (Hs & Hrun & Hstart & Hbefore).
    destruct (isEmpty k || (k =? limit - 1)) eqn:Eclose.
    + (* the band is closed at line k *)
      assert (Hend : isEmpty k = true \/ k = limit - 1).
      { apply orb_true_iff in Eclose. destruct Eclose as [E|E]; [now left|].
        right. now apply Z.eqb_eq. }
      unfold ProfileInv; simpl.
      destruct (k - Legacy.startAt s >? 10) eqn:Elong.
      * apply Z.gtb_gt in Elong.
        split; [|split; [|split]].
        -- apply Forall_app. split; [exact Hmono|].
           constructor; [|constructor].
           split; [|simpl; lia].
           unfold band; simpl. repeat split; try lia; assumption.
        -- apply StronglySorted_snoc; assumption.
        -- discriminate.
        -- intros _. destruct Hend as [E|E]; [right; left|right; right; lia].
           now replace (k + 1 - 1) with k by lia.
      * split; [exact Hmono|]. split; [exact Hsorted|]. split; [discriminate|].
        intros _. destruct Hend as [E|E]; [right; left|right; right; lia].
        now replace (k + 1 - 1) with k by lia.
    + (* the band goes on *)
      apply orb_false_iff in Eclose. destruct Eclose as [Ee _].
      unfold ProfileInv. rewrite Ei.
      split; [exact Hmono|]. split; [exact Hsorted|]. split; [|discriminate].
      intros _. split; [lia|]. split; [|split; assumption].
      intros y Hy. destruct (Z.eq_dec y k) as [->|Hne]; [assumption|].
      apply Hrun. lia.
  - destruct (isEmpty k) eqn:Ee; simpl.
    + unfold ProfileInv. rewrite Ei.
      split; [exact Hmono|]. split; [exact Hsorted|]. split; [discriminate|].
      intros _. right; left. now replace (k + 1 - 1) with k by lia.
    + (* a band starts at line k *)
      unfold ProfileInv; simpl.
      split; [exact Hmono|]. split; [exact Hsorted|]. split; [|discriminate].
      intros _. split; [lia|]. split; [|split].
      * intros y Hy. now replace y with k by lia.
      * destruct (Hout eq_refl) as [E|[E|E]]; [left; assumption|right; assumption|lia].
      * eapply Forall_impl; [|exact Hsegs]. intros g [_ He]. exact He.
Qed.

Lemma ProfileInv_prefix (n : nat) :
  Z.of_nat n <= limit ->
  ProfileInv isEmpty limit (Z.of_nat n)
    (fold_left (Legacy.scanLine isEmpty limit) (range (Z.of_nat n))
               {| Legacy.inside := false; Legacy.startAt := 0;
                  Legacy.segments := [] |}).
Proof.
  induction n as [|n IH]; intro Hn.
  - unfold ProfileInv; simpl. split; [constructor|]. split; [constructor|].
    split; [discriminate|]. intros _. now left.
  - rewrite range_succ, fold_left_app. simpl fold_left.
    replace (Z.of_nat (S n)) with (Z.of_nat n + 1) by lia.
    apply ProfileInv_step; [lia|]. apply IH. lia.
Qed.

Lemma ProfileInv_final :
  0 <= limit ->
  ProfileInv isEmpty limit limit
    (fold_left (Legacy.scanLine isEmpty limit) (range limit)
               {| Legacy.inside := false; Legacy.startAt := 0;
                  Legacy.segments := [] |}).
Proof.
  intro Hl. pose proof (ProfileInv_prefix (Z.to_nat limit) ltac:(lia)) as P.
  rewrite Z2Nat.id in P by assumption. exact P.
Qed.

(** A segment, once pushed, stays. *)
Lemma scanLine_keeps (s : Legacy.Profile) (y : Z) (g : Legacy.Segment) :
  In g (Legacy.segments s) ->
  In g (Legacy.segments (Legacy.scanLine isEmpty limit s y)).
Proof.
  intro Hin. unfold Legacy.scanLine. cbv zeta.
  destruct (negb (Legacy.inside s) && negb (isEmpty y)); [assumption|].
  destruct (Legacy.inside s && (isEmpty y || (y =? limit - 1))); [|assumption].
  simpl. destruct (y - Legacy.startAt s >? 10); [|assumption].
  apply in_or_app. now left.
Qed.

Lemma fold_scanLine_keeps (l : list Z) (s : Legacy.Profile) (g : Legacy.Segment) :
  In g (Legacy.segments s) ->
  In g (Legacy.segments (fold_left (Legacy.scanLine isEmpty limit) l s)).
Proof.
  revert s. induction l as [|y l IH]; intros s Hin; simpl; [assumption|].
  apply IH. now apply scanLine_keeps.
Qed.

Lemma range_split (b : Z) :
  0 <= b < limit -> exists rest, range limit = range b ++ b :: rest.
Proof.
  intro Hb. unfold range.
  replace (Z.to_nat limit) with (Z.to_nat b + S (Z.to_nat (limit - b - 1)))%nat by lia.
  rewrite seq_app, map_app. simpl.
  rewrite Z2Nat.id by lia. eauto.
Qed.

Lemma findSegments_sound (g : Legacy.Segment) :
  In g (Legacy.findSegments isEmpty limit) -> band isEmpty limit g.
Proof.
  unfold Legacy.findSegments. intro Hin.
  destruct (Z_le_gt_dec 0 limit) as [Hl|Hl].
  - destruct (ProfileInv_final Hl) as (Hsegs & _).
    rewrite Forall_forall in Hsegs. now apply Hsegs.
  - unfold range in Hin. replace (Z.to_nat limit) with 0%nat in Hin by lia.
    simpl in Hin. contradiction.
Qed.

Lemma findSegments_complete (g : Legacy.Segment) :
  band isEmpty limit g -> In g (Legacy.findSegments isEmpty limit).
Proof.
  destruct g as [a b]. unfold band; simpl.
  intros (Ha & Hlong & Hb & Hrun & Hstart & Hend).
  unfold Legacy.findSegments.
  destruct (@range_split b) as (rest & ->); [lia|].
  rewrite fold_left_app. simpl fold_left.
  apply fold_scanLine_keeps.
  pose proof (ProfileInv_prefix (Z.to_nat b) ltac:(lia)) as Inv.
  rewrite Z2Nat.id in Inv by lia.
  set (s := fold_left (Legacy.scanLine isEmpty limit) (range b) _) in *.
  destruct Inv as (_ & _ & Hin & Hout).
  assert (Ei : Legacy.inside s = true).
  { destruct (Legacy.inside s) eqn:E; [reflexivity|].
    destruct (Hout eq_refl) as [E0|[E0|E0]]; try lia.
    rewrite Hrun in E0 by lia. discriminate. }
  destruct (Hin Ei) as (Hs & Hrun' & Hstart' & _).
  assert (Es : Legacy.startAt s = a).
  { destruct (Z.lt_trichotomy (Legacy.startAt s) a) as [Hlt|[E|Hgt]];
      [|assumption|].
    - destruct Hstart as [E0|E0]; [lia|].
      rewrite Hrun' in E0 by lia. discriminate.
    - destruct Hstart' as [E0|E0]; [lia|].
      rewrite Hrun in E0 by lia. discriminate. }
  unfold Legacy.scanLine. cbv zeta. rewrite Ei, Es. simpl.
  replace (isEmpty b || (b =? limit - 1)) with true.
  - simpl. replace (b - a >? 10) with true by (symmetry; apply Z.gtb_gt; lia).
    apply in_or_app. right. now left.
  - symmetry. apply orb_true_iff.
    destruct Hend as [E|E]; [now left|right; now apply Z.eqb_eq].
Qed.

Lemma findSegments_sorted :
  StronglySorted (fun a b => Legacy.seg_end a < Legacy.seg_start b)
                 (Legacy.findSegments isEmpty limit).
Proof.
  unfold Legacy.findSegments.
  destruct (Z_le_gt_dec 0 limit) as [Hl|Hl].
  - now destruct (ProfileInv_final Hl) as (_ & Hsorted & _).
  - unfold range. replace (Z.to_nat limit) with 0%nat by lia. simpl. constructor.
Qed.

End Projection.

(** The projection scan finds exactly the bands: runs of more than 10 inked
    lines that begin at line 0 or after an empty line and end before an
    empty line, or at the last line of the sheet, which is then left out of
    the band. *)
Lemma Legacy_findSegments_exact (isEmpty : Z -> bool) (limit : Z)
    (g : Legacy.Segment) :
  In g (Legacy.findSegments isEmpty limit) <-> band isEmpty limit g.
Proof.
  split; [apply findSegments_sound|apply findSegments_complete].
Qed.

(** X8. The bands come in increasing order and never touch: each ends strictly
    before the next begins. *)
Theorem Legacy_findSegments_sorted (isEmpty : Z -> bool) (limit : Z) :
  StronglySorted (fun a b => Legacy.seg_end a < Legacy.seg_start b)
                 (Legacy.findSegments isEmpty limit).
Proof. apply findSegments_sorted. Qed.

(** ** Rows and columns of a canvas *)

Lemma forallb_false {A : Type} (f : A -> bool) (l : list A) :
  forallb f l = false <-> exists a, In a l /\ f a = false.
Proof.
  induction l as [|a l IH]; simpl.
  - split; [discriminate|]. intros (a & [] & _).
  - rewrite andb_false_iff, IH. split.
    + intros [E|(b & Hin & E)]; [exists a; auto|exists b; auto].
    + intros (b & [<-|Hin] & E); [now left|right; eauto].
Qed.

Lemma inked_getImageData (c : Canvas) (x y : Z) :
  0 <= x < width c -> 0 <= y < height c ->
  Legacy.inked (data (getImageData c 0 0 (width c) (height c))) (width c) x y
  = isForeground (bitmap c x y).
Proof.
  intros Hx Hy.
  change (Legacy.inked (data (getImageData c 0 0 (width c) (height c))) (width c) x y)
    with (fgData (data (getImageData c 0 0 (width c) (height c))) (width c) x y).
  rewrite fgData_getImageData by assumption.
  now rewrite pixelAt_inside, isForeground_premultiplied.
Qed.

Lemma isRowEmpty_true (c : Canvas) (y : Z) :
  0 <= y < height c ->
  Legacy.isRowEmpty (data (getImageData c 0 0 (width c) (height c))) (width c) y = true
  <-> rowBlank c y.
Proof.
  intro Hy. unfold Legacy.isRowEmpty, rowBlank, foregroundAt.
  rewrite forallb_forall. split.
  - intros Ha x [[Hx _] Hf].
    specialize (Ha x (proj2 (In_range _ _) Hx)).
    rewrite inked_getImageData, Hf in Ha by assumption. discriminate.
  - intros Hb x Hx. apply In_range in Hx.
    rewrite inked_getImageData by assumption.
    destruct (isForeground (bitmap c x y)) eqn:E; [|reflexivity].
    exfalso. apply (Hb x). auto.
Qed.

Lemma isRowEmpty_false (c : Canvas) (y : Z) :
  0 <= y < height c ->
  Legacy.isRowEmpty (data (getImageData c 0 0 (width c) (height c))) (width c) y = false
  <-> exists x, foregroundAt c x y.
Proof.
  intro Hy. unfold Legacy.isRowEmpty, foregroundAt.
  rewrite forallb_false. split.
  - intros (x & Hx & E). apply In_range in Hx.
    rewrite inked_getImageData in E by assumption.
    exists x. split; [auto|]. now destruct (isForeground (bitmap c x y)).
  - intros (x & [Hx _] & Hf). exists x. split; [now apply In_range|].
    rewrite inked_getImageData by assumption. now rewrite Hf.
Qed.

Lemma isColEmpty_true (c : Canvas) (x : Z) :
  0 <= x < width c ->
  Legacy.isColEmpty (data (getImageData c 0 0 (width c) (height c)))
                    (width c) (height c) x = true
  <-> colBlank c x.
Proof.
  intro Hx. unfold Legacy.isColEmpty, colBlank, foregroundAt.
  rewrite forallb_forall. split.
  - intros Ha y [[_ Hy] Hf].
    specialize (Ha y (proj2 (In_range _ _) Hy)).
    rewrite inked_getImageData, Hf in Ha by assumption. discriminate.
  - intros Hb y Hy. apply In_range in Hy.
    rewrite inked_getImageData by assumption.
    destruct (isForeground (bitmap c x y)) eqn:E; [|reflexivity].
    exfalso. apply (Hb y). auto.
Qed.

Lemma isColEmpty_false (c : Canvas) (x : Z) :
  0 <= x < width c ->
  Legacy.isColEmpty (data (getImageData c 0 0 (width c) (height c)))
                    (width c) (height c) x = false
  <-> exists y, foregroundAt c x y.
Proof.
  intro Hx. unfold Legacy.isColEmpty, foregroundAt.
  rewrite forallb_false. split.
  - intros (y & Hy & E). apply In_range in Hy.
    rewrite inked_getImageData in E by assumption.
    exists y. split; [auto|]. now destruct (isForeground (bitmap c x y)).
  - intros (y & [_ Hy] & Hf). exists y. split; [now apply In_range|].
    rewrite inked_getImageData by assumption. now rewrite Hf.
Qed.

Lemma rowSegments_band (c : Canvas) (g : Legacy.Segment) :
  In g (Legacy.rowSegments c)
  <-> 0 <= Legacy.seg_start g
      /\ Legacy.seg_start g + 10 < Legacy.seg_end g
      /\ Legacy.seg_end g <= height c - 1
      /\ (forall y, Legacy.seg_start g <= y < Legacy.seg_end g ->
                    exists x, foregroundAt c x y)
      /\ (Legacy.seg_start g = 0 \/ rowBlank c (Legacy.seg_start g - 1))
      /\ (rowBlank c (Legacy.seg_end g) \/ Legacy.seg_end g = height c - 1).
Proof.
  unfold Legacy.rowSegments. cbv zeta.
  split.
  - intro Hin. apply findSegments_sound in Hin.
    destruct Hin as (H0 & H1 & H2 & Hrun & Hs & He).
    split; [assumption|]. split; [assumption|]. split; [assumption|].
    split; [|split].
    + intros y Hy. apply isRowEmpty_false; [lia|]. now apply Hrun.
    + destruct (Z.eq_dec (Legacy.seg_start g) 0) as [E0|E0]; [now left|].
      destruct Hs as [E|E]; [now left|right]. apply isRowEmpty_true; [lia|assumption].
    + destruct He as [E|E]; [left|now right]. apply isRowEmpty_true; [lia|assumption].
  - intros (H0 & H1 & H2 & Hrun & Hs & He).
    apply findSegments_complete.
    split; [assumption|]. split; [assumption|]. split; [assumption|].
    split; [|split].
    + intros y Hy. apply isRowEmpty_false; [lia|]. now apply Hrun.
    + destruct (Z.eq_dec (Legacy.seg_start g) 0) as [E0|E0]; [now left|].
      destruct Hs as [E|E]; [now left|right]. apply isRowEmpty_true; [lia|assumption].
    + destruct He as [E|E]; [left|now right]. apply isRowEmpty_true; [lia|assumption].
Qed.

Lemma colSegments_band (c : Canvas) (g : Legacy.Segment) :
  In g (Legacy.colSegments c)
  <-> 0 <= Legacy.seg_start g
      /\ Legacy.seg_start g + 10 < Legacy.seg_end g
      /\ Legacy.seg_end g <= width c - 1
      /\ (forall x, Legacy.seg_start g <= x < Legacy.seg_end g ->
                    exists y, foregroundAt c x y)
      /\ (Legacy.seg_start g = 0 \/ colBlank c (Legacy.seg_start g - 1))
      /\ (colBlank c (Legacy.seg_end g) \/ Legacy.seg_end g = width c - 1).
Proof.
  unfold Legacy.colSegments. cbv zeta.
  split.
  - intro Hin. apply findSegments_sound in Hin.
    destruct Hin as (H0 & H1 & H2 & Hrun & Hs & He).
    split; [assumption|]. split; [assumption|]. split; [assumption|].
    split; [|split].
    + intros x Hx. apply isColEmpty_false; [lia|]. now apply Hrun.
    + destruct (Z.eq_dec (Legacy.seg_start g) 0) as [E0|E0]; [now left|].
      destruct Hs as [E|E]; [now left|right]. apply isColEmpty_true; [lia|assumption].
    + destruct He as [E|E]; [left|now right]. apply isColEmpty_true; [lia|assumption].
  - intros (H0 & H1 & H2 & Hrun & Hs & He).
    apply findSegments_complete.
    split; [assumption|]. split; [assumption|]. split; [assumption|].
    split; [|split].
    + intros x Hx. apply isColEmpty_false; [lia|]. now apply Hrun.
    + destruct (Z.eq_dec (Legacy.seg_start g) 0) as [E0|E0]; [now left|].
      destruct Hs as [E|E]; [now left|right]. apply isColEmpty_true; [lia|assumption].
    + destruct He as [E|E]; [left|now right]. apply isColEmpty_true; [lia|assumption].
Qed.

(** X7. On a canvas, the row bands (and the column bands) of the smart slicer
    are exactly the runs of more than 10 consecutive rows (columns) that each
    hold a foreground pixel, begin at the top (left) edge or after a blank
    row (column), and stop at a blank row (column) or at the last row
    (column) of the canvas, which the band then leaves out. *)
Theorem Legacy_segments_spec (c : Canvas) (g : Legacy.Segment) :
  (In g (Legacy.rowSegments c)
   <-> 0 <= Legacy.seg_start g
       /\ Legacy.seg_start g + 10 < Legacy.seg_end g
       /\ Legacy.seg_end g <= height c - 1
       /\ (forall y, Legacy.seg_start g <= y < Legacy.seg_end g ->
                     exists x, foregroundAt c x y)
       /\ (Legacy.seg_start g = 0 \/ rowBlank c (Legacy.seg_start g - 1))
       /\ (rowBlank c (Legacy.seg_end g) \/ Legacy.seg_end g = height c - 1))
  /\ (In g (Legacy.colSegments c)
      <-> 0 <= Legacy.seg_start g
          /\ Legacy.seg_start g + 10 < Legacy.seg_end g
          /\ Legacy.seg_end g <= width c - 1
          /\ (forall x, Legacy.seg_start g <= x < Legacy.seg_end g ->
                        exists y, foregroundAt c x y)
          /\ (Legacy.seg_start g = 0 \/ colBlank c (Legacy.seg_start g - 1))
          /\ (colBlank c (Legacy.seg_end g) \/ Legacy.seg_end g = width c - 1)).
Proof. split; [apply rowSegments_band|apply colSegments_band]. Qed.

(** ** Centering, smart cells, the fixed grid and the entry point *)

Section LegacySlicing.
Context `{Platform}.

Lemma Legacy_align_eq (frames : list Canvas) :
  Legacy.alignAndCenterFrames frames
  = let '(maxW, maxH) := maxContent (map contentBox frames) in
    let p := Z.max 20 (maxW / 10) in
    map (fun frame => centerFrame (maxW + p * 2) (maxH + p * 2)
                                  frame (contentBox frame)) frames.
Proof.
  unfold Legacy.alignAndCenterFrames.
  change (map (fun frame => getContentBounds frame (width frame) (height frame)) frames)
    with (map contentBox frames).
  destruct (maxContent (map contentBox frames)) as [maxW maxH]. cbv zeta.
  rewrite combine_map_self.
  rewrite (fold_left_ext
             (fun resultBase64 '(frame, bound) =>
                resultBase64 ++ [centerFrame (maxW + Z.max 20 (maxW / 10) * 2)
                                             (maxH + Z.max 20 (maxW / 10) * 2)
                                             frame bound])
             (fun acc p => acc ++ [centerFrame (maxW + Z.max 20 (maxW / 10) * 2)
                                               (maxH + Z.max 20 (maxW / 10) * 2)
                                               (fst p) (snd p)]))
    by (intros acc [frame bound] _; reflexivity).
  rewrite fold_left_push, map_map. reflexivity.
Qed.

Lemma Legacy_align_length (frames : list Canvas) :
  length (Legacy.alignAndCenterFrames frames) = length frames.
Proof.
  rewrite Legacy_align_eq.
  destruct (maxContent (map contentBox frames)). cbv zeta. apply length_map.
Qed.

Lemma Legacy_align_uniform (frames : list Canvas) :
  exists w h,
    (40 <= w /\ 40 <= h)
    /\ forall out, In out (Legacy.alignAndCenterFrames frames) ->
                   iwidth out = w /\ iheight out = h.
Proof.
  rewrite Legacy_align_eq.
  pose proof (maxContent_fold (map contentBox frames) 0 0) as Hm.
  cbv zeta in Hm. fold (maxContent (map contentBox frames)) in Hm.
  destruct (maxContent (map contentBox frames)) as [maxW maxH].
  simpl in Hm. destruct Hm as ((Pw & Ph) & _). cbv zeta.
  exists (maxW + Z.max 20 (maxW / 10) * 2), (maxH + Z.max 20 (maxW / 10) * 2).
  split; [lia|].
  intros out Hin. apply in_map_iff in Hin. destruct Hin as (frame & <- & _).
  apply size_centerFrame.
Qed.

(** X9. Given cells of positive width and height (a cell with a side of 0
    makes [getImageData] throw), the earlier normalizer never drops a cell
    and never returns nothing for a non-empty input: it emits one raster per
    cell, all of one size; that size leaves at least 20 px on each side of
    every detected content box; and when no cell has content every raster
    is a blank 40 x 40. *)
Theorem Legacy_alignAndCenterFrames_spec (frames : list Canvas) :
  (forall frame, In frame frames -> 0 < width frame /\ 0 < height frame) ->
  length (Legacy.alignAndCenterFrames frames) = length frames
  /\ exists w h,
       (40 <= w /\ 40 <= h)
       /\ (forall out, In out (Legacy.alignAndCenterFrames frames) ->
                       iwidth out = w /\ iheight out = h)
       /\ (forall frame b, In frame frames -> contentBox frame = Some b ->
                           box_w b + 40 <= w /\ box_h b + 40 <= h)
       /\ ((forall frame, In frame frames -> contentBox frame = None) ->
           w = 40 /\ h = 40
           /\ forall out, In out (Legacy.alignAndCenterFrames frames) ->
                          Forall (fun v => v = 0) (data out)).
Proof.
  intros _.
  split; [apply Legacy_align_length|].
  rewrite Legacy_align_eq.
  pose proof (maxContent_fold (map contentBox frames) 0 0) as Hm.
  cbv zeta in Hm. fold (maxContent (map contentBox frames)) in Hm.
  destruct (maxContent (map contentBox frames)) as [maxW maxH] eqn:Emax.
  simpl in Hm. destruct Hm as ((Pw & Ph) & Hall & _). cbv zeta.
  exists (maxW + Z.max 20 (maxW / 10) * 2), (maxH + Z.max 20 (maxW / 10) * 2).
  split; [lia|]. split; [|split].
  - intros out Hin. apply in_map_iff in Hin. destruct Hin as (frame & <- & _).
    apply size_centerFrame.
  - intros frame b Hin E.
    assert (Hs : In (Some b) (map contentBox frames))
      by (rewrite <- E; now apply in_map).
    destruct (Hall b Hs). lia.
  - intro Hn.
    assert (E0 : maxContent (map contentBox frames) = (0, 0)).
    { apply maxContent_none. intros b Hin.
      apply in_map_iff in Hin. destruct Hin as (frame & <- & Hin). now apply Hn. }
    rewrite E0 in Emax. inversion Emax; subst maxW maxH.
    split; [reflexivity|]. split; [reflexivity|].
    intros out Hin. apply in_map_iff in Hin. destruct Hin as (frame & <- & Hin).
    rewrite (Hn frame Hin). apply centerFrame_blank; vm_compute; discriminate.
Qed.

Lemma Legacy_smartCells_eq (canvas : Canvas) (removeBg : bool) :
  Legacy.smartCells canvas removeBg
  = flat_map (fun r => map (Legacy.smartCell canvas removeBg r)
                           (Legacy.colSegments canvas))
             (Legacy.rowSegments canvas).
Proof.
  unfold Legacy.smartCells.
  erewrite fold_left_ext.
  - rewrite fold_left_append. reflexivity.
  - intros acc r _. cbv beta. apply fold_left_push.
Qed.

Lemma Legacy_smart_length (canvas : Canvas) (removeBg : bool) :
  length (Legacy.performSmartSlicing canvas removeBg)
  = (length (Legacy.rowSegments canvas) * length (Legacy.colSegments canvas))%nat.
Proof.
  unfold Legacy.performSmartSlicing.
  destruct (length (Legacy.rowSegments canvas)) as [|n] eqn:Er; [reflexivity|].
  destruct (length (Legacy.colSegments canvas)) as [|m] eqn:Ec;
    [simpl; lia|].
  simpl orb. cbv iota.
  rewrite Legacy_align_length, Legacy_smartCells_eq.
  rewrite (length_flat_map_block _ (n := S m))
    by (intro a; now rewrite length_map).
  now rewrite Er.
Qed.

(** X10. Smart slicing yields one frame for every pair of a row band and a column
    band, all frames of one size; each cell it cuts is more than 10 px wide
    and high and lies within the sheet without its last row and column. *)
Theorem Legacy_performSmartSlicing_spec (canvas : Canvas) (removeBg : bool) :
  length (Legacy.performSmartSlicing canvas removeBg)
  = (length (Legacy.rowSegments canvas) * length (Legacy.colSegments canvas))%nat
  /\ (forall a b, In a (Legacy.performSmartSlicing canvas removeBg) ->
                  In b (Legacy.performSmartSlicing canvas removeBg) ->
                  iwidth a = iwidth b /\ iheight a = iheight b)
  /\ (forall cell, In cell (Legacy.smartCells canvas removeBg) ->
        exists r c,
          In r (Legacy.rowSegments canvas) /\ In c (Legacy.colSegments canvas)
          /\ cell = Legacy.smartCell canvas removeBg r c
          /\ width cell = Legacy.seg_end c - Legacy.seg_start c
          /\ height cell = Legacy.seg_end r - Legacy.seg_start r
          /\ 10 < width cell /\ 10 < height cell
          /\ 0 <= Legacy.seg_start c /\ Legacy.seg_end c <= width canvas - 1
          /\ 0 <= Legacy.seg_start r /\ Legacy.seg_end r <= height canvas - 1).
Proof.
  split; [apply Legacy_smart_length|]. split.
  - unfold Legacy.performSmartSlicing.
    destruct (_ || _); [intros a b []|].
    destruct (Legacy_align_uniform (Legacy.smartCells canvas removeBg))
      as (w & h & _ & Hsz).
    intros a b Ha Hb. destruct (Hsz a Ha) as [-> ->]. destruct (Hsz b Hb) as [-> ->].
    split; reflexivity.
  - intros cell Hin. rewrite Legacy_smartCells_eq in Hin.
    apply in_flat_map in Hin. destruct Hin as (r & Hr & Hin).
    apply in_map_iff in Hin. destruct Hin as (c & <- & Hc).
    exists r, c.
    assert (Sw : width (Legacy.smartCell canvas removeBg r c)
                 = Legacy.seg_end c - Legacy.seg_start c)
      by (unfold Legacy.smartCell; now destruct removeBg).
    assert (Sh : height (Legacy.smartCell canvas removeBg r c)
                 = Legacy.seg_end r - Legacy.seg_start r)
      by (unfold Legacy.smartCell; now destruct removeBg).
    apply rowSegments_band in Hr as Br. apply colSegments_band in Hc as Bc.
    destruct Br as (R0 & R1 & R2 & _). destruct Bc as (C0 & C1 & C2 & _).
    rewrite Sw, Sh. repeat split; try assumption; try lia.
Qed.

Lemma Legacy_fixedCells_eq (canvas : Canvas) (rows cols : Z) (removeBg : bool) :
  Legacy.fixedCells canvas rows cols removeBg
  = flat_map (fun r =>
                map (Legacy.fixedCell canvas (width canvas / cols)
                                      (height canvas / rows) removeBg r)
                    (range cols))
             (range rows).
Proof.
  unfold Legacy.fixedCells. cbv zeta.
  erewrite fold_left_ext.
  - rewrite fold_left_append. reflexivity.
  - intros acc r _. cbv beta. apply fold_left_push.
Qed.

Lemma Legacy_fixed_length (canvas : Canvas) (rows cols : Z) (removeBg : bool) :
  0 <= rows -> 0 <= cols ->
  length (Legacy.performFixedGridSlicing canvas rows cols removeBg)
  = Z.to_nat (rows * cols).
Proof.
  intros Hr Hc. unfold Legacy.performFixedGridSlicing.
  rewrite Legacy_align_length, Legacy_fixedCells_eq.
  rewrite (length_flat_map_block _ (n := Z.to_nat cols))
    by (intro a; now rewrite length_map, length_range).
  rewrite length_range. now rewrite Z2Nat.inj_mul.
Qed.

Lemma rowSegments_blank (canvas : Canvas) :
  (forall x y, ~ foregroundAt canvas x y) -> Legacy.rowSegments canvas = [].
Proof.
  intro Hn. destruct (Legacy.rowSegments canvas) as [|g l] eqn:E; [reflexivity|].
  assert (Hin : In g (Legacy.rowSegments canvas)) by (rewrite E; now left).
  apply rowSegments_band in Hin. destruct Hin as (_ & Hlong & _ & Hrun & _).
  destruct (Hrun (Legacy.seg_start g) ltac:(lia)) as (x & Hf).
  exfalso. exact (Hn _ _ Hf).
Qed.

(** X11. The earlier fixed grid cuts the sheet from its top-left corner into
    [rows * cols] cells of [floor(width / cols)] x [floor(height / rows)]
    pixels, in row-major order, whatever the sheet shows; fewer than [cols]
    columns on the right and fewer than [rows] rows at the bottom belong to
    no cell; and every cell comes back as a frame. *)
Theorem Legacy_performFixedGridSlicing_spec (canvas : Canvas) (rows cols : Z)
    (removeBg : bool) :
  1 <= rows <= height canvas -> 1 <= cols <= width canvas ->
  let frameWidth := width canvas / cols in
  let frameHeight := height canvas / rows in
  (1 <= frameWidth /\ width canvas - cols < cols * frameWidth <= width canvas)
  /\ (1 <= frameHeight /\ height canvas - rows < rows * frameHeight <= height canvas)
  /\ length (Legacy.performFixedGridSlicing canvas rows cols removeBg)
     = Z.to_nat (rows * cols)
  /\ forall r c, 0 <= r < rows -> 0 <= c < cols ->
       exists cell,
         nth_error (Legacy.fixedCells canvas rows cols removeBg)
                   (Z.to_nat (r * cols + c)) = Some cell
         /\ cell = (let drawn :=
                      drawImage (createCanvas frameWidth frameHeight) canvas
                        (inject_Z (c * frameWidth)) (inject_Z (r * frameHeight))
                        (inject_Z frameWidth) (inject_Z frameHeight)
                        0%Q 0%Q (inject_Z frameWidth) (inject_Z frameHeight) in
                    if removeBg then removeBackground drawn else drawn)
         /\ width cell = frameWidth /\ height cell = frameHeight.
Proof.
  intros Hr Hc frameWidth frameHeight.
  assert (Dw := Z.div_mod (width canvas) cols ltac:(lia)).
  assert (Mw := Z.mod_pos_bound (width canvas) cols ltac:(lia)).
  assert (Dh := Z.div_mod (height canvas) rows ltac:(lia)).
  assert (Mh := Z.mod_pos_bound (height canvas) rows ltac:(lia)).
  fold frameWidth in Dw. fold frameHeight in Dh.
  split; [nia|]. split; [nia|].
  split; [apply Legacy_fixed_length; lia|].
  intros r c Hr' Hc'. eexists. split; [|split].
  - rewrite Legacy_fixedCells_eq.
    apply (nth_error_row_major
             (Legacy.fixedCell canvas (width canvas / cols) (height canvas / rows)
                               removeBg)); assumption.
  - reflexivity.
  - unfold Legacy.fixedCell. destruct removeBg; split; reflexivity.
Qed.

(** X12. The earlier entry point never reports an extraction failure on a sheet
    that decodes: the promise is fulfilled with at least
    [floor(rows * cols / 2)] frames, which are the smart slicer's when it
    found that many and the [rows * cols] frames of the fixed grid
    otherwise; an undecodable source still gives the empty list. *)
Theorem Legacy_sliceSpriteSheet_spec (spriteSheetBase64 : string) (rows cols : Z)
    (removeBg : bool) :
  (decodeImage spriteSheetBase64 = None ->
   Legacy.sliceSpriteSheet spriteSheetBase64 rows cols removeBg = Fulfilled [])
  /\ forall img, decodeImage spriteSheetBase64 = Some img ->
       1 <= rows <= height img -> 1 <= cols <= width img ->
       exists frames,
         Legacy.sliceSpriteSheet spriteSheetBase64 rows cols removeBg = Fulfilled frames
         /\ rows * cols / 2 <= Z.of_nat (length frames)
         /\ (frames = Legacy.performSmartSlicing (sourceCanvas img) removeBg
             \/ (frames = Legacy.performFixedGridSlicing (sourceCanvas img)
                            rows cols removeBg
                 /\ length frames = Z.to_nat (rows * cols)
                 /\ Z.of_nat (length (Legacy.performSmartSlicing (sourceCanvas img)
                                                                removeBg))
                    < rows * cols / 2)).
Proof.
  unfold Legacy.sliceSpriteSheet. split; [now intros ->|].
  intros img -> Hr Hc. cbv zeta.
  destruct (Z.of_nat (length (Legacy.performSmartSlicing (sourceCanvas img) removeBg))
            >=? rows * cols / 2) eqn:E.
  - eexists. split; [reflexivity|]. split; [|now left].
    apply Z.geb_le in E. exact E.
  - eexists. split; [reflexivity|].
    assert (L := @Legacy_fixed_length (sourceCanvas img) rows cols removeBg
                   ltac:(lia) ltac:(lia)).
    assert (E' : Z.of_nat (length (Legacy.performSmartSlicing (sourceCanvas img)
                                                              removeBg))
                 < rows * cols / 2).
    { rewrite Z.geb_leb in E. apply Z.leb_gt in E. exact E. }
    split.
    + rewrite L. rewrite Z2Nat.id by nia.
      apply Z.div_le_upper_bound; nia.
    + right. split; [reflexivity|]. split; assumption.
Qed.

(** X13. On a sheet without any foreground the smart slicer finds nothing, and
    for a grid of at least two cells the earlier entry point answers with
    the [rows * cols] frames of the fixed grid, not with the empty list. *)
Theorem Legacy_sliceSpriteSheet_blank (spriteSheetBase64 : string) (img : Canvas)
    (rows cols : Z) (removeBg : bool) :
  decodeImage spriteSheetBase64 = Some img ->
  1 <= rows <= height img -> 1 <= cols <= width img -> 2 <= rows * cols ->
  (forall x y, ~ foregroundAt (sourceCanvas img) x y) ->
  Legacy.performSmartSlicing (sourceCanvas img) removeBg = []
  /\ Legacy.sliceSpriteSheet spriteSheetBase64 rows cols removeBg
     = Fulfilled (Legacy.performFixedGridSlicing (sourceCanvas img) rows cols removeBg)
  /\ length (Legacy.performFixedGridSlicing (sourceCanvas img) rows cols removeBg)
     = Z.to_nat (rows * cols).
Proof.
  intros Hd Hr Hc Hrc Hn.
  assert (Es : Legacy.performSmartSlicing (sourceCanvas img) removeBg = []).
  { unfold Legacy.performSmartSlicing. now rewrite (rowSegments_blank Hn). }
  split; [exact Es|]. split.
  - unfold Legacy.sliceSpriteSheet. rewrite Hd. cbv zeta. rewrite Es. simpl length.
    replace (Z.of_nat 0 >=? rows * cols / 2) with false; [reflexivity|].
    symmetry. rewrite Z.geb_leb. apply Z.leb_gt.
    apply Z.div_str_pos. lia.
  - apply Legacy_fixed_length; lia.
Qed.

End LegacySlicing.

(** * Around the slicer *)

(** ** The aspect ratio and the grid *)

Lemma allBelow_spec (n : nat) (f : Z -> bool) :
  allBelow n f = true -> forall z, 0 <= z < Z.of_nat n -> f z = true.
Proof.
  induction n as [|k IH]; intros Ha z Hz; [lia|].
  simpl in Ha. apply andb_true_iff in Ha. destruct Ha as [Hk Ha].
  destruct (Z.eq_dec z (Z.of_nat k)) as [->|Hne]; [exact Hk|].
  apply IH; [exact Ha|lia].
Qed.

(** Every grid of up to 128 rows and 128 columns, one by one. *)
Lemma getBestAspectRatio_grids :
  allBelow 129 (fun rows =>
    (rows =? 0)
    || allBelow 129 (fun cols =>
         String.eqb (getBestAspectRatio rows cols) (aspectByIntegers rows cols)))
  = true.
Proof. vm_compute. reflexivity. Qed.

Lemma getBestAspectRatio_cases (rows cols : Z) :
  1 <= rows <= 128 -> 0 <= cols <= 128 ->
  getBestAspectRatio rows cols = aspectByIntegers rows cols.
Proof.
  intros Hr Hc.
  assert (Hrow := @allBelow_spec _ _ getBestAspectRatio_grids rows ltac:(lia)).
  cbv beta in Hrow.
  destruct (Z.eqb_spec rows 0) as [E|_]; [lia|].
  apply String.eqb_eq.
  exact (@allBelow_spec _ _ Hrow cols ltac:(lia)).
Qed.

(** X14. For a grid of 1 to 128 rows and 0 to 128 columns the aspect ratio
    computed on doubles is the one three integer comparisons give: "16:9"
    when [cols / rows >= 1.8], else "4:3" when [cols / rows >= 1.3], else
    "3:4" when [cols / rows <= 0.7], else "1:1".  The branch for "9:16" is
    never taken: a ratio of at most 0.5 is caught by the test against 0.7
    before it. *)
Theorem getBestAspectRatio_spec (rows cols : Z) :
  1 <= rows <= 128 -> 0 <= cols <= 128 ->
  getBestAspectRatio rows cols
  = (if 9 * rows <=? 5 * cols then "16:9"%string
     else if 13 * rows <=? 10 * cols then "4:3"%string
     else if 10 * cols <=? 7 * rows then "3:4"%string
     else "1:1"%string)
  /\ getBestAspectRatio rows cols <> "9:16"%string.
Proof.
  intros Hr Hc.
  rewrite getBestAspectRatio_cases by assumption. unfold aspectByIntegers.
  split; [reflexivity|].
  destruct (9 * rows <=? 5 * cols); [discriminate|].
  destruct (13 * rows <=? 10 * cols); [discriminate|].
  destruct (10 * cols <=? 7 * rows); discriminate.
Qed.

Lemma gridOfFrameCount_cases (frameCount : Z) :
  gridOfFrameCount frameCount
  = if frameCount =? 6 then (2, 3)
    else if frameCount =? 8 then (2, 4)
    else if frameCount =? 9 then (3, 3)
    else (2, 2).
Proof.
  unfold gridOfFrameCount.
  destruct (Z.eqb_spec frameCount 6) as [->|H6]; [reflexivity|].
  destruct (Z.eqb_spec frameCount 8) as [->|H8]; [reflexivity|].
  destruct (Z.eqb_spec frameCount 9) as [->|H9]; [reflexivity|].
  now destruct (frameCount =? 4).
Qed.

(** X15. The grid chosen for a frame count: 2 x 3, 2 x 4 and 3 x 3 for 6, 8 and
    9 frames and 2 x 2 for every other count, so the grid has as many cells
    as frames were asked for exactly for 4, 6, 8 and 9.  Rows and columns
    are always between 2 and 4, never more rows than columns, and the two
    versions of the assignment sequence agree. *)
Theorem gridOfFrameCount_spec (frameCount : Z) :
  let rows := fst (gridOfFrameCount frameCount) in
  let cols := snd (gridOfFrameCount frameCount) in
  gridOfFrameCount' frameCount = gridOfFrameCount frameCount
  /\ (2 <= rows <= cols /\ cols <= 4)
  /\ (rows * cols = frameCount
      <-> frameCount = 4 \/ frameCount = 6 \/ frameCount = 8 \/ frameCount = 9)
  /\ (frameCount <> 6 -> frameCount <> 8 -> frameCount <> 9 -> (rows, cols) = (2, 2)).
Proof.
  intros rows cols. subst rows cols.
  split.
  - unfold gridOfFrameCount, gridOfFrameCount'.
    destruct (Z.eqb_spec frameCount 4) as [->|H4]; [reflexivity|].
    destruct (Z.eqb_spec frameCount 6) as [->|H6]; [reflexivity|].
    destruct (Z.eqb_spec frameCount 8) as [->|H8]; [reflexivity|].
    now destruct (Z.eqb_spec frameCount 9).
  - rewrite gridOfFrameCount_cases.
    destruct (Z.eqb_spec frameCount 6) as [->|H6]; [simpl; repeat split; lia|].
    destruct (Z.eqb_spec frameCount 8) as [->|H8]; [simpl; repeat split; lia|].
    destruct (Z.eqb_spec frameCount 9) as [->|H9]; [simpl; repeat split; lia|].
    simpl. repeat split; lia.
Qed.

(** X16. The aspect ratio requested for the sheet of a frame count is "16:9" for
    8 frames, "4:3" for 6 and "1:1" for every other count: never a portrait
    format. *)
Theorem aspectRatio_of_frameCount (frameCount : Z) :
  getBestAspectRatio (fst (gridOfFrameCount' frameCount))
                     (snd (gridOfFrameCount' frameCount))
  = (if frameCount =? 8 then "16:9"%string
     else if frameCount =? 6 then "4:3"%string else "1:1"%string).
Proof.
  unfold gridOfFrameCount'.
  destruct (Z.eqb_spec frameCount 4) as [->|H4]; [reflexivity|].
  destruct (Z.eqb_spec frameCount 6) as [->|H6]; [reflexivity|].
  destruct (Z.eqb_spec frameCount 8) as [->|H8]; [reflexivity|].
  now destruct (Z.eqb_spec frameCount 9) as [->|H9].
Qed.

(** ** Playback *)

Lemma nextFrameIndex_mod (prev length : Z) :
  0 <= prev -> 0 < length -> nextFrameIndex prev length = (prev + 1) mod length.
Proof.
  intros Hp Hl. unfold nextFrameIndex. apply Z.rem_mod_nonneg; lia.
Qed.

(** X17. From any non-negative index one playback step lands on a valid frame
    index, [n] steps advance by [n] positions round the ring, and as many
    steps as there are frames lead back to where a valid index started. *)
Theorem nextFrameIndex_cycle (prev length : Z) (n : nat) :
  0 <= prev -> 0 < length ->
  0 <= nextFrameIndex prev length < length
  /\ Nat.iter n (fun i => nextFrameIndex i length) prev
     = (if (n =? 0)%nat then prev else (prev + Z.of_nat n) mod length)
  /\ (prev < length ->
      Nat.iter (Z.to_nat length) (fun i => nextFrameIndex i length) prev = prev).
Proof.
  intros Hp Hl.
  assert (Hit : forall k, Nat.iter (S k) (fun i => nextFrameIndex i length) prev
                          = (prev + Z.of_nat (S k)) mod length).
  { induction k as [|k IH].
    - simpl. rewrite nextFrameIndex_mod by assumption. reflexivity.
    - change (Nat.iter (S (S k)) (fun i => nextFrameIndex i length) prev)
        with (nextFrameIndex (Nat.iter (S k) (fun i => nextFrameIndex i length) prev)
                             length).
      rewrite IH.
      rewrite nextFrameIndex_mod
        by (try assumption; apply Z.mod_pos_bound; assumption).
      rewrite Z.add_mod_idemp_l by lia. f_equal. lia. }
  split; [|split].
  - rewrite nextFrameIndex_mod by assumption. apply Z.mod_pos_bound. assumption.
  - destruct n as [|k]; [reflexivity|]. simpl Nat.eqb. cbv iota. apply Hit.
  - intro Hlt. destruct (Z.to_nat length) as [|k] eqn:E; [lia|].
    rewrite Hit, <- E, Z2Nat.id by lia.
    rewrite <- Z.add_mod_idemp_r, Z.mod_same, Z.add_0_r by lia.
    apply Z.mod_small. lia.
Qed.

(** ** The archive *)

Lemma length_string_append (a b : string) :
  String.length (a ++ b) = (String.length a + String.length b)%nat.
Proof. induction a as [|c a IH]; simpl; [reflexivity|now rewrite IH]. Qed.

Lemma string_append_inj_r (a b s : string) :
  (a ++ s)%string = (b ++ s)%string -> a = b.
Proof.
  revert b. induction a as [|c a IH]; intros [|d b] E; simpl in E.
  - reflexivity.
  - apply (f_equal String.length) in E. simpl in E.
    rewrite length_string_append in E. lia.
  - apply (f_equal String.length) in E. simpl in E.
    rewrite length_string_append in E. lia.
  - inversion E; subst. f_equal. now apply IH.
Qed.

Lemma numberToString_inj (n m : nat) :
  numberToString n = numberToString m -> n = m.
Proof.
  unfold numberToString. intro E.
  apply DecimalNat.Unsigned.to_uint_inj.
  assert (E' : NilEmpty.uint_of_string (NilEmpty.string_of_uint (Nat.to_uint n))
               = NilEmpty.uint_of_string (NilEmpty.string_of_uint (Nat.to_uint m)))
    by now rewrite E.
  rewrite !NilEmpty.usu in E'. now inversion E'.
Qed.

Lemma frameName_inj (i j : nat) : frameName i = frameName j -> i = j.
Proof.
  unfold frameName. intro E. simpl in E.
  inversion E as [E']. apply string_append_inj_r, numberToString_inj in E'. lia.
Qed.

Lemma file_fresh (folder : Folder) (name : string) (d : option string) :
  ~ In name (map fst folder) -> file folder name d = folder ++ [(name, d)].
Proof.
  intro Hn. unfold file.
  destruct (existsb (fun e => (fst e =? name)%string) folder) eqn:E; [|reflexivity].
  apply existsb_exists in E. destruct E as (e & Hin & He).
  apply String.eqb_eq in He. exfalso. apply Hn. rewrite <- He. now apply in_map.
Qed.

Lemma zipEntries_from (frames : list string) (start : nat) (folder : Folder) :
  (forall name, In name (map fst folder) -> exists i, (i < start)%nat /\ name = frameName i) ->
  fold_left (fun folder '(index, frame) =>
               file folder (frameName index) (nth_error (split "," frame) 1))
            (combine (seq start (length frames)) frames) folder
  = folder ++ map (fun '(index, frame) =>
                     (frameName index, nth_error (split "," frame) 1))
                  (combine (seq start (length frames)) frames).
Proof.
  revert start folder. induction frames as [|frame frames IH]; intros start folder Hold.
  - simpl. now rewrite app_nil_r.
  - simpl. rewrite file_fresh.
    + rewrite IH.
      * now rewrite <- app_assoc.
      * intros name Hin. rewrite map_app in Hin. apply in_app_or in Hin.
        destruct Hin as [Hin|[<-|[]]].
        -- destruct (Hold name Hin) as (i & Hi & ->). exists i. split; [lia|reflexivity].
        -- exists start. split; [lia|reflexivity].
    + intro Hin. destruct (Hold _ Hin) as (i & Hi & E).
      apply frameName_inj in E. lia.
Qed.

Lemma zipEntries_eq (frames : list string) :
  zipEntries frames
  = map (fun '(index, frame) => (frameName index, nth_error (split "," frame) 1))
        (combine (seq 0 (length frames)) frames).
Proof.
  unfold zipEntries.
  change (fold_left (fun folder '(index, frame) =>
                       file folder (frameName index) (nth_error (split "," frame) 1))
                    (combine (seq 0 (length frames)) frames) []
          = map (fun '(index, frame) =>
                   (frameName index, nth_error (split "," frame) 1))
                (combine (seq 0 (length frames)) frames)).
  rewrite zipEntries_from; [reflexivity|]. intros name [].
Qed.

Lemma nth_error_combine_seq {A : Type} (l : list A) (start i : nat) (a : A) :
  nth_error l i = Some a ->
  nth_error (combine (seq start (length l)) l) i = Some ((start + i)%nat, a).
Proof.
  revert start i. induction l as [|b l IH]; intros start [|i] E; simpl in *;
    try discriminate.
  - inversion E. now rewrite Nat.add_0_r.
  - rewrite (IH (S start) i E). f_equal. f_equal. lia.
Qed.

Lemma split_without (sep : ascii) (s : string) :
  without sep s -> split sep s = [s].
Proof.
  unfold without. induction s as [|c s IH]; intro Hn; simpl; [reflexivity|].
  simpl in Hn.
  destruct (Ascii.eqb_spec c sep) as [->|Hne]; [exfalso; apply Hn; now left|].
  rewrite IH by (intro Hin; apply Hn; now right). reflexivity.
Qed.

Lemma split_at_first (sep : ascii) (a b : string) :
  without sep a ->
  split sep (a ++ String sep b) = a :: split sep b.
Proof.
  unfold without. induction a as [|c a IH]; intro Hn; simpl.
  - now rewrite Ascii.eqb_refl.
  - simpl in Hn.
    destruct (Ascii.eqb_spec c sep) as [->|Hne]; [exfalso; apply Hn; now left|].
    rewrite IH by (intro Hin; apply Hn; now right). reflexivity.
Qed.

(** X18. [downloadZip] files every frame under its own name: the archive has one
    entry per frame, in frame order, entry [i] being called
    [frame_<i+1>.png], and no two entries share a name, so no frame replaces
    another. *)
Theorem downloadZip_entries (frames : list string) (filename : string) :
  let entries := fst (downloadZip frames filename) in
  length entries = length frames
  /\ NoDup (map fst entries)
  /\ (forall i frame, nth_error frames i = Some frame ->
        nth_error entries i
        = Some (("frame_" ++ numberToString (i + 1) ++ ".png")%string,
                nth_error (split "," frame) 1))
  /\ snd (downloadZip frames filename) = (filename ++ ".zip")%string.
Proof.
  cbv zeta. unfold downloadZip. cbn [fst snd]. rewrite zipEntries_eq.
  split; [|split; [|split]].
  - rewrite length_map, length_combine, length_seq. lia.
  - rewrite map_map.
    assert (Hgen : forall start,
               NoDup (map (fun x : nat * string =>
                             fst (let '(index, frame) := x in
                                  (frameName index, nth_error (split "," frame) 1)))
                          (combine (seq start (length frames)) frames))
               /\ forall name,
                    In name (map (fun x : nat * string =>
                                    fst (let '(index, frame) := x in
                                         (frameName index,
                                          nth_error (split "," frame) 1)))
                                 (combine (seq start (length frames)) frames)) ->
                    exists i, (start <= i)%nat /\ name = frameName i).
    { induction frames as [|frame l IH]; intro start; simpl.
      - split; [constructor|]. intros name [].
      - destruct (IH (S start)) as [Hnd Hnames]. split.
        + constructor; [|exact Hnd].
          intro Hin. destruct (Hnames _ Hin) as (i & Hi & E).
          apply frameName_inj in E. lia.
        + intros name [<-|Hin]; [exists start; split; [lia|reflexivity]|].
          destruct (Hnames _ Hin) as (i & Hi & ->). exists i. split; [lia|reflexivity]. }
    apply Hgen.
  - intros i frame E.
    rewrite nth_error_map, (nth_error_combine_seq frames 0 i E). reflexivity.
  - reflexivity.
Qed.

(** X19. For a frame that is a data URL, a header and a payload joined by the
    first comma with no further comma in the payload, the entry holds the
    payload; for a frame without any comma the data passed is [undefined]. *)
Theorem downloadZip_payload (frames : list string) (filename : string)
    (i : nat) (header payload : string) :
  nth_error frames i = Some (header ++ "," ++ payload)%string ->
  without "," header -> without "," payload ->
  nth_error (fst (downloadZip frames filename)) i
  = Some (("frame_" ++ numberToString (i + 1) ++ ".png")%string, Some payload)
  /\ (forall j frame, nth_error frames j = Some frame -> without "," frame ->
        nth_error (fst (downloadZip frames filename)) j
        = Some (("frame_" ++ numberToString (j + 1) ++ ".png")%string, None)).
Proof.
  intros E Hh Hp. unfold downloadZip. cbn [fst]. rewrite zipEntries_eq. split.
  - rewrite nth_error_map, (nth_error_combine_seq frames 0 i E). simpl option_map.
    change ("," ++ payload)%string with (String "," payload).
    rewrite split_at_first by assumption.
    rewrite split_without by assumption. reflexivity.
  - intros j frame Ej Hf.
    rewrite nth_error_map, (nth_error_combine_seq frames 0 j Ej). simpl option_map.
    rewrite split_without by assumption. reflexivity.
Qed.

(** ** The animated PNG *)

Lemma length_getImageData (c : Canvas) (sx sy w h : Z) :
  0 <= w -> 0 <= h ->
  length (data (getImageData c sx sy w h)) = Z.to_nat (4 * w * h).
Proof.
  intros Hw Hh. unfold getImageData. cbn [data].
  rewrite (length_flat_map_block _ (n := (Z.to_nat w * 4)%nat)).
  - rewrite length_range.
    replace (4 * w * h) with (h * (w * 4)) by ring.
    rewrite !Z2Nat.inj_mul by lia. reflexivity.
  - intro y. rewrite (length_flat_map_block _ (n := 4%nat)) by reflexivity.
    now rewrite length_range.
Qed.

Section Apng.
Context `{Platform}.

Lemma apngStep_fixed (s : ApngLoop) (frameImg : Canvas) :
  loopWidth s <> 0 ->
  loopWidth (apngStep s frameImg) = loopWidth s
  /\ loopHeight (apngStep s frameImg) = loopHeight s
  /\ loopBuffers (apngStep s frameImg)
     = loopBuffers s
       ++ [data (getImageData
                   (drawImage (createCanvas (loopWidth s) (loopHeight s)) frameImg
                      0%Q 0%Q (inject_Z (width frameImg)) (inject_Z (height frameImg))
                      0%Q 0%Q (inject_Z (loopWidth s)) (inject_Z (loopHeight s)))
                   0 0 (loopWidth s) (loopHeight s))].
Proof.
  intro Hw. unfold apngStep. cbv zeta.
  destruct (Z.eqb_spec (loopWidth s) 0) as [E|_]; [contradiction|].
  repeat split.
Qed.

Lemma apngLoop_fixed (frames : list string) :
  forall s,
    loopWidth s <> 0 -> 0 <= loopWidth s -> 0 <= loopHeight s ->
    (forall frame, In frame frames -> decodeImage frame <> None) ->
    exists bs,
      apngLoop frames s
      = Some {| loopWidth := loopWidth s; loopHeight := loopHeight s;
                loopBuffers := loopBuffers s ++ bs |}
      /\ length bs = length frames
      /\ Forall (fun b => length b = Z.to_nat (4 * loopWidth s * loopHeight s)) bs.
Proof.
  induction frames as [|frame frames IH]; intros s Hw Pw Ph Hd.
  - exists []. simpl. rewrite app_nil_r. destruct s. repeat split. constructor.
  - simpl. destruct (decodeImage frame) as [img|] eqn:E;
      [|exfalso; apply (Hd frame); [now left|assumption]].
    destruct (apngStep_fixed s img Hw) as (Ew & Eh & Eb).
    destruct (IH (apngStep s img)) as (bs & -> & Hl & Hf).
    + now rewrite Ew.
    + now rewrite Ew.
    + now rewrite Eh.
    + intros f Hin. apply Hd. now right.
    + rewrite Ew, Eh, Eb in *. eexists. split; [|split].
      * rewrite <- app_assoc. reflexivity.
      * simpl. now rewrite Hl.
      * constructor; [|exact Hf]. apply length_getImageData; assumption.
Qed.

Lemma apngLoop_fails (frames : list string) :
  forall s,
    (exists frame, In frame frames /\ decodeImage frame = None) ->
    apngLoop frames s = None.
Proof.
  induction frames as [|frame frames IH]; intros s (f & Hin & E).
  - contradiction.
  - simpl. destruct (decodeImage frame) as [img|] eqn:Ed; [|reflexivity].
    apply IH. destruct Hin as [<-|Hin]; [congruence|eauto].
Qed.

(** X20. [downloadApng] saves nothing for an empty sequence and is rejected as
    soon as one frame fails to load.  When every frame loads, [UPNG.encode]
    is called with the size of the first frame, one buffer and one delay per
    frame, every buffer holding exactly [4 * width * height] bytes whatever
    the sizes of the later frames, and every delay being
    [Math.round(1000 / fps)] (for [fps >= 1], where the quotient is a
    rational). *)
Theorem downloadApng_spec (frames : list string) (fps : Z) (filename : string) :
  (frames = [] -> downloadApng frames fps filename = Fulfilled None)
  /\ (frames <> [] ->
      (exists frame, In frame frames /\ decodeImage frame = None) ->
      downloadApng frames fps filename = Rejected)
  /\ (forall first rest img,
        frames = first :: rest -> 1 <= fps ->
        decodeImage first = Some img -> 0 < width img -> 0 < height img ->
        (forall frame, In frame rest -> decodeImage frame <> None) ->
        exists call,
          downloadApng frames fps filename = Fulfilled (Some call)
          /\ apngWidth call = width img /\ apngHeight call = height img
          /\ cnum call = 0
          /\ length (buffers call) = length frames
          /\ length (delays call) = length frames
          /\ Forall (fun b => length b = Z.to_nat (4 * width img * height img))
                    (buffers call)
          /\ Forall (fun d => d = round (1000 / inject_Z fps)) (delays call)
          /\ apngName call = (filename ++ ".png")%string).
Proof.
  split; [|split].
  - now intros ->.
  - intros Hne Hex. unfold downloadApng.
    destruct frames as [|f l]; [contradiction|]. simpl Nat.eqb. cbv iota.
    now rewrite apngLoop_fails.
  - intros first rest img -> _ Ed Pw Ph Hrest.
    unfold downloadApng. simpl Nat.eqb. cbv iota.
    simpl apngLoop. rewrite Ed.
    set (s1 := apngStep {| loopWidth := 0; loopHeight := 0; loopBuffers := [] |} img).
    assert (E1 : loopWidth s1 = width img /\ loopHeight s1 = height img
                 /\ exists b, loopBuffers s1 = [b]
                              /\ length b = Z.to_nat (4 * width img * height img)).
    { unfold s1, apngStep. cbn [loopWidth loopHeight loopBuffers].
      change (0 =? 0) with true. cbv beta iota zeta.
      cbn [loopWidth loopHeight loopBuffers app].
      split; [reflexivity|]. split; [reflexivity|].
      eexists. split; [reflexivity|]. apply length_getImageData; lia. }
    destruct E1 as (Ew & Eh & b & Eb & Lb).
    destruct (@apngLoop_fixed rest s1) as (bs & -> & Hl & Hf);
      [lia|lia|lia|assumption|].
    rewrite Ew, Eh, Eb in *. cbv zeta. eexists. split; [reflexivity|].
    cbn [apngWidth apngHeight cnum buffers delays apngName
         loopWidth loopHeight loopBuffers].
    split; [reflexivity|]. split; [reflexivity|]. split; [reflexivity|].
    assert (Hlen : length ([b] ++ bs) = length (first :: rest))
      by (simpl; now rewrite Hl).
    split; [exact Hlen|]. split; [|split; [|split]].
    + now rewrite repeat_length.
    + constructor; assumption.
    + apply Forall_forall. intros d Hin. now apply repeat_spec in Hin.
    + reflexivity.
Qed.

End Apng.

(** ** Data URLs *)

Lemma stripPrefix_Some (pre s r : string) :
  stripPrefix pre s = Some r <-> s = (pre ++ r)%string.
Proof.
  revert s. induction pre as [|c pre IH]; intro s; simpl.
  - split; [now intros [= ->]|now intros ->].
  - destruct s as [|d s]; [split; discriminate|].
    destruct (Ascii.eqb_spec c d) as [->|Hne].
    + rewrite IH. split; [now intros ->|now intros [= ->]].
    + split; [discriminate|]. intros [= E _]. congruence.
Qed.

Lemma takeWhile_split (p : ascii -> bool) (s a b : string) :
  takeWhile p s = (a, b) ->
  s = (a ++ b)%string /\ allChars p a = true
  /\ match b with String c _ => p c = false | EmptyString => True end.
Proof.
  revert a b. induction s as [|c s IH]; intros a b E; simpl in E.
  - inversion E; subst. repeat split.
  - destruct (p c) eqn:Ep.
    + destruct (takeWhile p s) as [a' b'] eqn:Et. inversion E; subst.
      destruct (IH a' b eq_refl) as (-> & Ha & Hb).
      simpl. rewrite Ep. repeat split; assumption.
    + inversion E; subst. simpl. repeat split. assumption.
Qed.

Lemma takeWhile_app (p : ascii -> bool) (a b : string) :
  allChars p a = true ->
  match b with String c _ => p c = false | EmptyString => True end ->
  takeWhile p (a ++ b) = (a, b).
Proof.
  induction a as [|c a IH]; intros Ha Hb; simpl.
  - destruct b as [|c b]; [reflexivity|]. simpl. now rewrite Hb.
  - simpl in Ha. apply andb_true_iff in Ha. destruct Ha as [Hc Ha].
    rewrite Hc, IH by assumption. reflexivity.
Qed.

Lemma string_append_assoc (a b c : string) :
  ((a ++ b) ++ c)%string = (a ++ (b ++ c))%string.
Proof. induction a as [|x a IH]; simpl; [reflexivity|now rewrite IH]. Qed.

Lemma matchDataUrl_shape (s mimeType payload : string) :
  matchDataUrl s = Some (mimeType, payload) <-> dataUrlShape s mimeType payload.
Proof.
  unfold matchDataUrl, dataUrlShape. split.
  - destruct (stripPrefix "data:" s) as [r1|] eqn:E1; [|discriminate].
    apply stripPrefix_Some in E1.
    destruct (takeWhile isAlnum r1) as [type r2] eqn:E2.
    apply takeWhile_split in E2. destruct E2 as (-> & Ht & _).
    destruct type as [|c type]; [discriminate|]. cbn [isEmptyString].
    destruct (stripPrefix "/" r2) as [r3|] eqn:E3; [|discriminate].
    apply stripPrefix_Some in E3. subst r2.
    destruct (takeWhile isSubtypeChar r3) as [subtype r4] eqn:E4.
    apply takeWhile_split in E4. destruct E4 as (-> & Hs & _).
    destruct subtype as [|d subtype]; [discriminate|]. cbn [isEmptyString].
    destruct (stripPrefix ";base64," r4) as [r5|] eqn:E5; [|discriminate].
    apply stripPrefix_Some in E5. subst r4.
    destruct (negb (isEmptyString r5) && allChars isDot r5) eqn:E6; [|discriminate].
    apply andb_true_iff in E6. destruct E6 as [Hne Hd].
    intros [= <- <-].
    exists (String c type), (String d subtype).
    split; [exact E1|]. split; [reflexivity|].
    split; [discriminate|]. split; [assumption|].
    split; [discriminate|]. split; [assumption|].
    split; [|assumption]. destruct r5; [discriminate|discriminate].
  - intros (type & subtype & -> & -> & Hne1 & Ht & Hne2 & Hs & Hne3 & Hd).
    cbn [stripPrefix append]. rewrite !Ascii.eqb_refl.
    rewrite (takeWhile_app isAlnum type) by (try assumption; reflexivity).
    destruct type as [|c type]; [contradiction|]. cbn [isEmptyString].
    cbn [stripPrefix append]. rewrite Ascii.eqb_refl.
    rewrite (takeWhile_app isSubtypeChar subtype) by (try assumption; reflexivity).
    destruct subtype as [|d subtype]; [contradiction|]. cbn [isEmptyString].
    cbn [stripPrefix append]. rewrite !Ascii.eqb_refl.
    destruct payload as [|e payload]; [contradiction|]. cbn [isEmptyString negb andb].
    now rewrite Hd.
Qed.

(** X21. [extractBase64Data] takes a well-formed data URL apart again: for a
    string of the shape [data:<type>/<subtype>;base64,<payload>] (type of
    letters and digits, subtype of letters, digits, ["-"], ["."], ["+"],
    payload non-empty and without line breaks) it returns the MIME type and
    the payload, and the regular expression accepts no other strings. *)
Theorem extractBase64Data_roundtrip (s mimeType payload : string) :
  (matchDataUrl s = Some (mimeType, payload) <-> dataUrlShape s mimeType payload)
  /\ (dataUrlShape s mimeType payload -> extractBase64Data s = (mimeType, payload)).
Proof.
  split; [apply matchDataUrl_shape|].
  intro Hs. apply matchDataUrl_shape in Hs.
  unfold extractBase64Data. now rewrite Hs.
Qed.

Lemma matchDataUrl_comma (s : string) (r : string * string) :
  matchDataUrl s = Some r -> In ","%char (list_ascii_of_string s).
Proof.
  destruct r as [m d]. intro E. apply matchDataUrl_shape in E.
  destruct E as (type & subtype & -> & _).
  assert (Happ : forall a b, In ","%char (list_ascii_of_string b) ->
                             In ","%char (list_ascii_of_string (a ++ b))).
  { induction a as [|c a IH]; intros b Hb; simpl; [assumption|right; now apply IH]. }
  apply (Happ "data:"%string), Happ. apply (Happ "/"%string), Happ.
  simpl. do 7 right. now left.
Qed.

(** X22. What the fallback does: a string without any comma comes back whole,
    labelled ["image/png"]; and the URL [generateSpriteSheet] returns for
    comma-free image data is taken apart into ["image/png"] and that data,
    also when the data is empty or contains line breaks, which the regular
    expression rejects. *)
Theorem extractBase64Data_fallback (s : string) :
  without "," s ->
  extractBase64Data s = ("image/png"%string, s)
  /\ extractBase64Data (spriteSheetUrl s) = ("image/png"%string, s).
Proof.
  intro Hn. split.
  - unfold extractBase64Data.
    destruct (matchDataUrl s) as [r|] eqn:E.
    + exfalso. apply Hn. eapply matchDataUrl_comma. eassumption.
    + rewrite split_without by assumption. reflexivity.
  - unfold extractBase64Data, spriteSheetUrl.
    destruct (matchDataUrl ("data:image/png;base64," ++ s)) as [[m d]|] eqn:E.
    + apply matchDataUrl_shape in E.
      destruct E as (type & subtype & Es & -> & _ & Ht & _ & Hs & _).
      cbn [append] in Es. injection Es as Es.
      (* the type is the longest run of letters and digits after "data:" *)
      pose proof (f_equal (takeWhile isAlnum) Es) as E1.
      rewrite (takeWhile_app isAlnum type) in E1 by (try assumption; reflexivity).
      vm_compute in E1. injection E1 as <- E1.
      pose proof (f_equal (takeWhile isSubtypeChar) E1) as E2.
      rewrite (takeWhile_app isSubtypeChar subtype) in E2
        by (try assumption; reflexivity).
      vm_compute in E2. injection E2 as <- E2.
      now subst d.
    + change ("data:image/png;base64," ++ s)%string
        with ("data:image/png;base64" ++ String "," s)%string.
      rewrite split_at_first.
      * rewrite split_without by assumption. reflexivity.
      * unfold without. simpl. intros Hin.
        repeat (destruct Hin as [Hin|Hin]; [discriminate|]). contradiction.
Qed.

(** * The further code on the reference platform *)

Example twoSprites_bands :
  Legacy.rowSegments twoSprites = [Legacy.mkSegment 6 22]
  /\ Legacy.colSegments twoSprites = [Legacy.mkSegment 4 18].
Proof. split; vm_compute; reflexivity. Qed.

Example twoSprites_legacy_frames :
  sizes (framesOf (@Legacy.sliceSpriteSheet samplePlatform "two" 1 2 true))
  = [(54, 56)]
  /\ sizes (framesOf (@Legacy.sliceSpriteSheet samplePlatform "two" 2 3 true))
     = [(54, 49); (54, 49); (54, 49); (54, 49); (54, 49); (54, 49)].
Proof. split; vm_compute; reflexivity. Qed.

Example zip_of_two_frames :
  downloadZip ["data:image/png;base64,AAAA"; "data:image/png;base64,BBBB"]%string
              "toon"
  = ([("frame_1.png", Some "AAAA"); ("frame_2.png", Some "BBBB")]%string,
     "toon.zip"%string).
Proof. vm_compute. reflexivity. Qed.

Example apng_of_two_frames :
  match @downloadApng samplePlatform ["two"; "white"]%string 6 "toon" with
  | Fulfilled (Some call) =>
      (apngWidth call, apngHeight call,
       map (fun b => Z.of_nat (length b)) (buffers call),
       delays call, apngName call)
      = (60, 30, [7200; 7200], [167; 167], "toon.png"%string)
  | _ => False
  end.
Proof. vm_compute. reflexivity. Qed.

Example generate_refused :
  generateSpriteSheet (Some "key"%string)
    (Returned (Some [mkPart None (Some "I cannot draw that."%string)]))
  = Thrown "Failed to generate animation frames."
  /\ generateSpriteSheet (Some "key"%string)
       (Returned (Some [mkPart None (Some "Here it is."%string);
                        mkPart (Some "iVBOR"%string) None]))
     = Returned "data:image/png;base64,iVBOR"%string.
Proof. split; reflexivity. Qed.

Example extract_jpeg :
  extractBase64Data "data:image/jpeg;base64,/9j/4AAQ" = ("image/jpeg", "/9j/4AAQ")%string.
Proof. vm_compute. reflexivity. Qed.

Lemma rawCanvases_cover_witness :
  let cell := nth 0 (@rawCanvases samplePlatform threeSlots 1 3 true) (createCanvas 0 0) in
  (1 <= 1 /\ 1 <= 3 /\ In cell (@rawCanvases samplePlatform threeSlots 1 3 true))
  /\ (box_w (gridArea threeSlots) <= 3 * width cell < box_w (gridArea threeSlots) + 3
      /\ box_h (gridArea threeSlots) <= 1 * height cell
         < box_h (gridArea threeSlots) + 1).
Proof.
  intro cell.
  assert (Hin : In cell (@rawCanvases samplePlatform threeSlots 1 3 true)).
  { apply nth_In. rewrite (@length_rawCanvases samplePlatform) by lia. simpl. lia. }
  split; [split; [lia|split; [lia|exact Hin]]|].
  apply (@rawCanvases_cover samplePlatform threeSlots 1 3 true cell); [lia|lia|exact Hin].
Defined.

Lemma sliceSpriteSheet_frame_size_witness :
  let frames := framesOf (@sliceSpriteSheet samplePlatform "two" 1 2 true) in
  (1 <= 1 /\ 1 <= 2
   /\ @decodeImage samplePlatform "two" = Some twoSprites
   /\ @sliceSpriteSheet samplePlatform "two" 1 2 true = Fulfilled frames)
  /\ let area := gridArea (@sourceCanvas samplePlatform twoSprites) in
     let cellW := Qceiling (inject_Z (box_w area) / inject_Z 2) in
     let cellH := Qceiling (inject_Z (box_h area) / inject_Z 1) in
     forall out, In out frames ->
       5 <= iwidth out <= cellW - 4 /\ 5 <= iheight out <= cellH - 4.
Proof.
  intro frames.
  assert (E : @sliceSpriteSheet samplePlatform "two" 1 2 true = Fulfilled frames)
    by reflexivity.
  split; [split; [lia|split; [lia|split; [reflexivity|exact E]]]|].
  apply (@sliceSpriteSheet_frame_size samplePlatform "two" twoSprites 1 2 true frames);
    [lia|lia|reflexivity|exact E].
Defined.

Lemma Legacy_alignAndCenterFrames_spec_witness :
  (forall frame, In frame [twoSprites; whiteSheet] ->
                 0 < width frame /\ 0 < height frame)
  /\ (length (@Legacy.alignAndCenterFrames samplePlatform [twoSprites; whiteSheet])
      = length [twoSprites; whiteSheet]
      /\ exists w h,
           (40 <= w /\ 40 <= h)
           /\ (forall out,
                 In out (@Legacy.alignAndCenterFrames samplePlatform
                           [twoSprites; whiteSheet]) ->
                 iwidth out = w /\ iheight out = h)
           /\ (forall frame b, In frame [twoSprites; whiteSheet] ->
                               contentBox frame = Some b ->
                               box_w b + 40 <= w /\ box_h b + 40 <= h)
           /\ ((forall frame, In frame [twoSprites; whiteSheet] ->
                              contentBox frame = None) ->
               w = 40 /\ h = 40
               /\ forall out,
                    In out (@Legacy.alignAndCenterFrames samplePlatform
                              [twoSprites; whiteSheet]) ->
                    Forall (fun v => v = 0) (data out))).
Proof.
  assert (Hs : forall frame, In frame [twoSprites; whiteSheet] ->
                             0 < width frame /\ 0 < height frame).
  { intros frame [<-|[<-|[]]]; simpl; lia. }
  split; [exact Hs|].
  exact (@Legacy_alignAndCenterFrames_spec samplePlatform [twoSprites; whiteSheet] Hs).
Defined.

Lemma Legacy_performFixedGridSlicing_spec_witness :
  (1 <= 2 <= height twoSprites /\ 1 <= 3 <= width twoSprites)
  /\ let frameWidth := width twoSprites / 3 in
     let frameHeight := height twoSprites / 2 in
     (1 <= frameWidth /\ width twoSprites - 3 < 3 * frameWidth <= width twoSprites)
     /\ (1 <= frameHeight
         /\ height twoSprites - 2 < 2 * frameHeight <= height twoSprites)
     /\ length (@Legacy.performFixedGridSlicing samplePlatform twoSprites 2 3 false)
        = Z.to_nat (2 * 3)
     /\ forall r c, 0 <= r < 2 -> 0 <= c < 3 ->
          exists cell,
            nth_error (@Legacy.fixedCells samplePlatform twoSprites 2 3 false)
                      (Z.to_nat (r * 3 + c)) = Some cell
            /\ cell = (let drawn :=
                         @drawImage samplePlatform
                           (createCanvas frameWidth frameHeight) twoSprites
                           (inject_Z (c * frameWidth)) (inject_Z (r * frameHeight))
                           (inject_Z frameWidth) (inject_Z frameHeight)
                           0%Q 0%Q (inject_Z frameWidth) (inject_Z frameHeight) in
                       if false then removeBackground drawn else drawn)
            /\ width cell = frameWidth /\ height cell = frameHeight.
Proof.
  split; [simpl; lia|].
  apply (@Legacy_performFixedGridSlicing_spec samplePlatform twoSprites 2 3 false);
    simpl; lia.
Defined.

Lemma Legacy_sliceSpriteSheet_blank_witness :
  (@decodeImage samplePlatform "white" = Some whiteSheet
   /\ 1 <= 2 <= height whiteSheet /\ 1 <= 2 <= width whiteSheet /\ 2 <= 2 * 2
   /\ (forall x y, ~ foregroundAt (@sourceCanvas samplePlatform whiteSheet) x y))
  /\ (@Legacy.performSmartSlicing samplePlatform
        (@sourceCanvas samplePlatform whiteSheet) true = []
      /\ @Legacy.sliceSpriteSheet samplePlatform "white" 2 2 true
         = Fulfilled (@Legacy.performFixedGridSlicing samplePlatform
                        (@sourceCanvas samplePlatform whiteSheet) 2 2 true)
      /\ length (@Legacy.performFixedGridSlicing samplePlatform
                   (@sourceCanvas samplePlatform whiteSheet) 2 2 true)
         = Z.to_nat (2 * 2)).
Proof.
  assert (Hn : forall x y, ~ foregroundAt (@sourceCanvas samplePlatform whiteSheet) x y).
  { apply contentBox_None. vm_compute. reflexivity. }
  split; [split; [reflexivity|split; [simpl; lia|split; [simpl; lia|split; [lia|exact Hn]]]]|].
  apply (@Legacy_sliceSpriteSheet_blank samplePlatform "white" whiteSheet 2 2 true);
    [reflexivity|simpl; lia|simpl; lia|lia|exact Hn].
Defined.

Lemma getBestAspectRatio_spec_witness :
  (1 <= 2 <= 128 /\ 0 <= 3 <= 128)
  /\ (getBestAspectRatio 2 3
      = (if 9 * 2 <=? 5 * 3 then "16:9"%string
         else if 13 * 2 <=? 10 * 3 then "4:3"%string
         else if 10 * 3 <=? 7 * 2 then "3:4"%string
         else "1:1"%string)
      /\ getBestAspectRatio 2 3 <> "9:16"%string).
Proof.
  split; [lia|]. apply (@getBestAspectRatio_spec 2 3); lia.
Defined.

Lemma nextFrameIndex_cycle_witness :
  (0 <= 5 /\ 0 < 6)
  /\ (0 <= nextFrameIndex 5 6 < 6
      /\ Nat.iter 3 (fun i => nextFrameIndex i 6) 5
         = (if (3 =? 0)%nat then 5 else (5 + Z.of_nat 3) mod 6)
      /\ (5 < 6 -> Nat.iter (Z.to_nat 6) (fun i => nextFrameIndex i 6) 5 = 5)).
Proof.
  split; [lia|]. apply (@nextFrameIndex_cycle 5 6 3); lia.
Defined.

Lemma downloadZip_payload_witness :
  (nth_error ["data:image/png;base64,AAAA"%string] 0
   = Some ("data:image/png;base64" ++ "," ++ "AAAA")%string
   /\ without "," "data:image/png;base64" /\ without "," "AAAA")
  /\ (nth_error (fst (downloadZip ["data:image/png;base64,AAAA"%string] "toon")) 0
      = Some (("frame_" ++ numberToString (0 + 1) ++ ".png")%string, Some "AAAA"%string)
      /\ (forall j frame,
             nth_error ["data:image/png;base64,AAAA"%string] j = Some frame ->
             without "," frame ->
             nth_error (fst (downloadZip ["data:image/png;base64,AAAA"%string] "toon")) j
             = Some (("frame_" ++ numberToString (j + 1) ++ ".png")%string, None))).
Proof.
  assert (H1 : without "," "data:image/png;base64").
  { unfold without. simpl. intro Hin.
    repeat (destruct Hin as [Hin|Hin]; [discriminate|]). contradiction. }
  assert (H2 : without "," "AAAA").
  { unfold without. simpl. intro Hin.
    repeat (destruct Hin as [Hin|Hin]; [discriminate|]). contradiction. }
  split; [split; [reflexivity|split; assumption]|].
  apply (@downloadZip_payload ["data:image/png;base64,AAAA"%string] "toon" 0
           "data:image/png;base64" "AAAA"); [reflexivity|exact H1|exact H2].
Defined.

Lemma extractBase64Data_fallback_witness :
  without "," "iVBOR"
  /\ (extractBase64Data "iVBOR" = ("image/png"%string, "iVBOR"%string)
      /\ extractBase64Data (spriteSheetUrl "iVBOR") = ("image/png"%string, "iVBOR"%string)).
Proof.
  assert (H1 : without "," "iVBOR").
  { unfold without. simpl. intro Hin.
    repeat (destruct Hin as [Hin|Hin]; [discriminate|]). contradiction. }
  split; [exact H1|]. apply (@extractBase64Data_fallback "iVBOR"). exact H1.
Defined.

(** * The service and the app *)

Lemma firstImage_url (parts : list Part) (url : string) :
  firstImage parts = Some url ->
  exists before part rest data,
    parts = before ++ part :: rest
    /\ Forall (fun p => inlineData p = None) before
    /\ inlineData part = Some data /\ url = spriteSheetUrl data.
Proof.
  induction parts as [|p parts IH]; simpl; [discriminate|].
  destruct (inlineData p) as [data|] eqn:E.
  - intros [= <-]. exists [], p, parts, data. repeat split; try assumption. constructor.
  - intro Hf. destruct (IH Hf) as (before & part & rest & data & -> & Hb & Hd & ->).
    exists (p :: before), part, rest, data. repeat split; try assumption.
    now constructor.
Qed.

(** X23. [generateSpriteSheet] returns a URL exactly when there is an API key,
    the request succeeds and some part of the answer carries image data; the
    URL is then the PNG data URL of the first such part.  Every failure after
    the key check reaches the caller as "Failed to generate animation
    frames.": the refusal and no-image messages raised inside the [try] are
    replaced by the [catch] and never seen. *)
Theorem generateSpriteSheet_outcomes (apiKey : option string)
    (response : Outcome (option (list Part))) :
  (forall url,
      generateSpriteSheet apiKey response = Returned url
      <-> truthy apiKey = true
          /\ exists parts, response = Returned (Some parts)
                           /\ firstImage parts = Some url)
  /\ (forall url, generateSpriteSheet apiKey response = Returned url ->
        exists before part rest data,
          response = Returned (Some (before ++ part :: rest))
          /\ Forall (fun p => inlineData p = None) before
          /\ inlineData part = Some data /\ url = spriteSheetUrl data)
  /\ (forall message, generateSpriteSheet apiKey response = Thrown message ->
        (truthy apiKey = false /\ message = "API Key not found"%string)
        \/ (truthy apiKey = true
            /\ message = "Failed to generate animation frames."%string)).
Proof.
  assert (Hret : forall url,
             generateSpriteSheet apiKey response = Returned url
             <-> truthy apiKey = true
                 /\ exists parts, response = Returned (Some parts)
                                  /\ firstImage parts = Some url).
  { intro url. unfold generateSpriteSheet.
    destruct (truthy apiKey); simpl; [|split; [discriminate|intros [E _]; discriminate]].
    destruct response as [[parts|]|m]; simpl.
    - destruct (firstImage parts) as [u|] eqn:E.
      + split.
        * intros [= ->]. split; [reflexivity|]. exists parts. auto.
        * intros (_ & parts' & [= <-] & E'). congruence.
      + split.
        * destruct (find _ parts); discriminate.
        * intros (_ & parts' & [= <-] & E'). congruence.
    - split; [discriminate|]. intros (_ & parts' & [=] & _).
    - split; [discriminate|]. intros (_ & parts' & [=] & _). }
  split; [exact Hret|]. split.
  - intros url E. apply Hret in E. destruct E as (_ & parts & -> & Hf).
    destruct (firstImage_url _ Hf) as (before & part & rest & data & -> & Hb & Hd & ->).
    exists before, part, rest, data. repeat split; assumption.
  - intros message. unfold generateSpriteSheet.
    destruct (truthy apiKey); simpl.
    + intro E. right. split; [reflexivity|].
      destruct response as [[parts|]|m]; simpl in E.
      * destruct (firstImage parts); [discriminate|].
        destruct (find _ parts); now inversion E.
      * now inversion E.
      * now inversion E.
    + intros [= <-]. left. split; reflexivity.
Qed.

Section App.
Context `{Platform}.

Lemma sliceSpriteSheet_all_or_nothing (spriteSheetBase64 : string) (rows cols : Z)
    (removeBg : bool) :
  1 <= rows -> 1 <= cols ->
  exists frames,
    sliceSpriteSheet spriteSheetBase64 rows cols removeBg = Fulfilled frames
    /\ (frames = []
        \/ (length frames = Z.to_nat (rows * cols)
            /\ exists w h, forall out, In out frames -> iwidth out = w /\ iheight out = h)).
Proof.
  intros Hr Hc. unfold sliceSpriteSheet.
  destruct (decodeImage spriteSheetBase64) as [img|]; [|exists []; auto].
  cbv zeta. eexists. split; [reflexivity|]. unfold performFixedGridSlicing.
  destruct (content_or_none (rawCanvases (sourceCanvas img) rows cols removeBg))
    as [Hex|Hn].
  - right. destruct (alignAndMaximizeFrames_content _ Hex) as (maxW & maxH & -> & _).
    split.
    + rewrite length_map. apply length_rawCanvases; lia.
    + exists (maxW + padding * 2), (maxH + padding * 2).
      intros out Hin. apply in_map_iff in Hin. destruct Hin as (frame & <- & _).
      apply size_centerFrame.
  - left. now apply alignAndMaximizeFrames_no_content.
Qed.

(** X24. However [handleGenerate] ends once an image and an action are there, the
    app is in COMPLETE or in ERROR.  In COMPLETE no message is shown and the
    frames are exactly as many as the grid has cells (as many as were asked
    for when that is 4, 6, 8 or 9), all of one size; in ERROR there are no
    frames and a message is shown.  Without an image or an action only the
    message changes. *)
Theorem handleGenerate_spec (view : View) (originalImage : option string)
    (actionPrompt : string) (frameCount : Z) (generate : Z -> Z -> Outcome string) :
  let after := handleGenerate view originalImage actionPrompt frameCount generate in
  let rows := fst (gridOfFrameCount' frameCount) in
  let cols := snd (gridOfFrameCount' frameCount) in
  ((truthy originalImage = false \/ truthy (Some actionPrompt) = false) ->
   appState after = appState view /\ generatedFrames after = generatedFrames view
   /\ errorMsg after <> None)
  /\ (truthy originalImage = true -> truthy (Some actionPrompt) = true ->
      (appState after = COMPLETE
       /\ errorMsg after = None
       /\ length (generatedFrames after) = Z.to_nat (rows * cols)
       /\ (frameCount = 4 \/ frameCount = 6 \/ frameCount = 8 \/ frameCount = 9 ->
           Z.of_nat (length (generatedFrames after)) = frameCount)
       /\ (exists url, generate rows cols = Returned url
                       /\ sliceSpriteSheet url rows cols true
                          = Fulfilled (generatedFrames after))
       /\ exists w h, forall out, In out (generatedFrames after) ->
                                  iwidth out = w /\ iheight out = h)
      \/ (appState after = ERROR
          /\ generatedFrames after = []
          /\ errorMsg after <> None)).
Proof.
  intros after rows cols. subst after.
  assert (Hgrid : gridOfFrameCount' frameCount = (rows, cols))
    by (unfold rows, cols; now destruct (gridOfFrameCount' frameCount)).
  assert (Hrc : (2 <= rows <= cols /\ cols <= 4)
                /\ (frameCount = 4 \/ frameCount = 6 \/ frameCount = 8 \/ frameCount = 9 ->
                    rows * cols = frameCount)).
  { unfold rows, cols, gridOfFrameCount'.
    destruct (Z.eqb_spec frameCount 4) as [->|H4]; [simpl; lia|].
    destruct (Z.eqb_spec frameCount 6) as [->|H6]; [simpl; lia|].
    destruct (Z.eqb_spec frameCount 8) as [->|H8]; [simpl; lia|].
    destruct (Z.eqb_spec frameCount 9) as [->|H9]; [simpl; lia|].
    simpl. lia. }
  destruct Hrc as [Hb Hfc].
  unfold handleGenerate. split.
  - intros [E|E].
    + rewrite E. simpl. repeat split; discriminate.
    + destruct (truthy originalImage); [rewrite E|]; simpl;
        repeat split; discriminate.
  - intros E1 E2. rewrite E1, E2. simpl negb. cbv iota. rewrite Hgrid.
    destruct (generate rows cols) as [url|message];
      [|right; simpl; repeat split; discriminate].
    destruct (sliceSpriteSheet_all_or_nothing url true (rows := rows) (cols := cols))
      as (frames & Es & Hf); [lia|lia|].
    rewrite Es.
    destruct Hf as [->|(Hl & w & h & Hsz)];
      [right; simpl; repeat split; discriminate|].
    destruct frames as [|f l]; [right; simpl; repeat split; discriminate|].
    left. simpl Nat.eqb. cbv iota. cbn [appState errorMsg generatedFrames].
    split; [reflexivity|]. split; [reflexivity|]. split; [exact Hl|].
    split; [|split].
    + intro Hc. rewrite Hl, Z2Nat.id by nia. now apply Hfc.
    + exists url. split; [reflexivity|exact Es].
    + exists w, h. exact Hsz.
Qed.

End App.
